(** * GrClipMaskManager: clip-mask selection, mask construction and
      stencil-settings resolution

    A shallow embedding of [GrClipMaskManager.cpp] (the second translation
    unit stored in [src/src/gpu/effects/GrDistanceFieldTextureEffect.h]).

    The manager is a stateful object.  Its own fields ([fCurrClipMaskType],
    [fClipMode], [fAACache]) and the things it mutates through pointers (the
    draw state, the effect and stencil restore guards, the scissor state, the
    stencil buffer's last-clip record) are threaded explicitly.  Everything it
    only consumes (path-renderer lookup, scratch-texture allocation, processor
    factories, the clip-stack reduction, the stencil pass table) is a field of
    the record [GrContext] or of the input records, so that every theorem
    holds for every behaviour of those collaborators.

    Commands issued to [fClipTarget], to the context and to the software
    mask helper (clears, rect and path draws, texture requests) are recorded
    in order in [fCommands]; how the clip target executes them, including
    the clip and geometry scopes it is given for the recursive draws
    ([AutoClipRestore], [AutoGeometryPush]), is outside this file.  Debug
    assertions are not part of the model; where a theorem needs what one
    asserts, it says so as a hypothesis. *)

From Stdlib Require Import ZArith List Bool Lia QArith Qround Qpower Lqa.
Import ListNotations.
Open Scope Z_scope.


(* ================================================================== *)
(** ** Geometry *)

Module SkIPoint.
Record t := Make { fX : Z; fY : Z }.
(** [operator-] *)
Definition neg (p : t) : t := Make (- fX p) (- fY p).
Definition eqb (a b : t) : bool := (fX a =? fX b) && (fY a =? fY b).
End SkIPoint.

(** [SkIRect]: 32-bit integer edges.  The arithmetic below is the plain
    integer arithmetic of the ranges on which the C++ does not overflow. *)
Module SkIRect.
Record t := MakeLTRB { fLeft : Z; fTop : Z; fRight : Z; fBottom : Z }.
Definition MakeWH (w h : Z) : t := MakeLTRB 0 0 w h.
Definition width (r : t) : Z := fRight r - fLeft r.
Definition height (r : t) : Z := fBottom r - fTop r.
Definition offset (r : t) (p : SkIPoint.t) : t :=
  MakeLTRB (fLeft r + SkIPoint.fX p) (fTop r + SkIPoint.fY p)
           (fRight r + SkIPoint.fX p) (fBottom r + SkIPoint.fY p).
(** [operator==] *)
Definition eqb (a b : t) : bool :=
  (fLeft a =? fLeft b) && (fTop a =? fTop b) &&
  (fRight a =? fRight b) && (fBottom a =? fBottom b).
End SkIRect.

(** [SkRect]: [SkScalar] edges.  Scalars are modelled by rationals; the file
    only offsets them by integers and compares them. *)
Module SkRect.
Record t := MakeLTRB { fLeft : Q; fTop : Q; fRight : Q; fBottom : Q }.
Definition Make (r : SkIRect.t) : t :=
  MakeLTRB (inject_Z (SkIRect.fLeft r)) (inject_Z (SkIRect.fTop r))
           (inject_Z (SkIRect.fRight r)) (inject_Z (SkIRect.fBottom r)).
Definition offset (r : t) (dx dy : Q) : t :=
  MakeLTRB (fLeft r + dx)%Q (fTop r + dy)%Q (fRight r + dx)%Q (fBottom r + dy)%Q.
Definition isEmpty (r : t) : bool :=
  Qle_bool (fRight r) (fLeft r) || Qle_bool (fBottom r) (fTop r).
Definition contains (a r : t) : bool :=
  negb (isEmpty r) && negb (isEmpty a) &&
  Qle_bool (fLeft a) (fLeft r) && Qle_bool (fTop a) (fTop r) &&
  Qle_bool (fRight r) (fRight a) && Qle_bool (fBottom r) (fBottom a).
Definition roundOut (r : t) : SkIRect.t :=
  SkIRect.MakeLTRB (Qfloor (fLeft r)) (Qfloor (fTop r))
                   (Qceiling (fRight r)) (Qceiling (fBottom r)).
End SkRect.

Record SkVector := { vX : Q; vY : Q }.

(** [SkIntToScalar] *)
Definition SkIntToScalar (n : Z) : Q := inject_Z n.

(** A matrix is kept as the product the code builds it from. *)
Inductive SkMatrix :=
| MatrixI
| MatrixTranslate (dx dy : Q)
| MatrixIDiv (w h : Z)
| MatrixPreConcat (m n : SkMatrix).

Record SkPath := {
  pathKey : nat;
  isInverseFillType : bool;
  pathIsEmpty : bool }.

Definition toggleInverseFillType (p : SkPath) : SkPath :=
  {| pathKey := pathKey p;
     isInverseFillType := negb (isInverseFillType p);
     pathIsEmpty := pathIsEmpty p |}.

Record SkRRect := { rrKey : nat; rrRect : SkRect.t }.

Definition SkRRect_offset (rr : SkRRect) (dx dy : Q) : SkRRect :=
  {| rrKey := rrKey rr; rrRect := SkRect.offset (rrRect rr) dx dy |}.

(* ================================================================== *)
(** ** Enumerations *)

(** [SkRegion::Op] *)
Inductive Op :=
| kDifference_Op | kIntersect_Op | kUnion_Op | kXOR_Op
| kReverseDifference_Op | kReplace_Op.

(** [GrBlendCoeff] is declared in [GrBlend.h], which is not among the
    sources.  The enumerators are the public ones of that header:
    [SC]/[ISC] the source colour and its complement, [DC]/[IDC] the
    destination colour and its complement, [SA]/[ISA] and [DA]/[IDA] the
    corresponding alpha coefficients. *)
Inductive GrBlendCoeff :=
| kZero_GrBlendCoeff | kOne_GrBlendCoeff
| kSC_GrBlendCoeff | kISC_GrBlendCoeff
| kDC_GrBlendCoeff | kIDC_GrBlendCoeff
| kSA_GrBlendCoeff | kISA_GrBlendCoeff
| kDA_GrBlendCoeff | kIDA_GrBlendCoeff
| kConstC_GrBlendCoeff | kIConstC_GrBlendCoeff
| kConstA_GrBlendCoeff | kIConstA_GrBlendCoeff.

Inductive GrStencilOp :=
| kKeep_StencilOp | kReplace_StencilOp | kIncWrap_StencilOp
| kIncClamp_StencilOp | kDecWrap_StencilOp | kDecClamp_StencilOp
| kZero_StencilOp | kInvert_StencilOp.

(** [GrStencilFunc]: the basic functions followed by the clip-relative ones,
    in the order in which [gSpecialToBasicStencilFunc] indexes them. *)
Inductive GrStencilFunc :=
| kAlways_StencilFunc | kNever_StencilFunc | kGreater_StencilFunc
| kGEqual_StencilFunc | kLess_StencilFunc | kLEqual_StencilFunc
| kEqual_StencilFunc | kNotEqual_StencilFunc
| kAlwaysIfInClip_StencilFunc | kEqualIfInClip_StencilFunc
| kLessIfInClip_StencilFunc | kLEqualIfInClip_StencilFunc
| kNonZeroIfInClip_StencilFunc.

(** The enumerator's integer value. *)
Definition funcValue (f : GrStencilFunc) : nat :=
  match f with
  | kAlways_StencilFunc => 0 | kNever_StencilFunc => 1
  | kGreater_StencilFunc => 2 | kGEqual_StencilFunc => 3
  | kLess_StencilFunc => 4 | kLEqual_StencilFunc => 5
  | kEqual_StencilFunc => 6 | kNotEqual_StencilFunc => 7
  | kAlwaysIfInClip_StencilFunc => 8 | kEqualIfInClip_StencilFunc => 9
  | kLessIfInClip_StencilFunc => 10 | kLEqualIfInClip_StencilFunc => 11
  | kNonZeroIfInClip_StencilFunc => 12
  end%nat.

Definition kStencilFuncCount : nat := 13.
Definition kClipStencilFuncCount : nat :=
  funcValue kNonZeroIfInClip_StencilFunc - funcValue kAlwaysIfInClip_StencilFunc + 1.
Definition kBasicStencilFuncCount : nat := kStencilFuncCount - kClipStencilFuncCount.

Inductive ElementType := kEmpty_Type | kRect_Type | kRRect_Type | kPath_Type.

Inductive InitialState := kAllIn_InitialState | kAllOut_InitialState.

Inductive ClipMaskType := kNone_ClipMaskType | kAlpha_ClipMaskType | kStencil_ClipMaskType.

Inductive StencilClipMode :=
| kModifyClip_StencilClipMode | kRespectClip_StencilClipMode | kIgnoreClip_StencilClipMode.

(** [GrPathRendererChain::DrawType] *)
Inductive DrawType :=
| kColor_DrawType | kColorAntiAlias_DrawType | kStencilOnly_DrawType
| kStencilAndColor_DrawType | kStencilAndColorAntiAlias_DrawType.

(** [GrPathRenderer::StencilSupport] *)
Inductive StencilSupport :=
| kNoSupport_StencilSupport | kStencilOnly_StencilSupport | kNoRestriction_StencilSupport.

Inductive GrPrimitiveEdgeType :=
| kFillBW_GrProcessorEdgeType | kFillAA_GrProcessorEdgeType
| kInverseFillBW_GrProcessorEdgeType | kInverseFillAA_GrProcessorEdgeType
| kHairlineAA_GrProcessorEdgeType.

Inductive GrPixelConfig := kAlpha_8_GrPixelConfig | kRGBA_8888_GrPixelConfig.

Definition Op_eqb (a b : Op) : bool :=
  match a, b with
  | kDifference_Op, kDifference_Op | kIntersect_Op, kIntersect_Op
  | kUnion_Op, kUnion_Op | kXOR_Op, kXOR_Op
  | kReverseDifference_Op, kReverseDifference_Op | kReplace_Op, kReplace_Op => true
  | _, _ => false
  end.

Definition isRect (t : ElementType) : bool :=
  match t with kRect_Type => true | _ => false end.

Definition isAllIn (s : InitialState) : bool :=
  match s with kAllIn_InitialState => true | kAllOut_InitialState => false end.

Definition isRespectClip (m : StencilClipMode) : bool :=
  match m with kRespectClip_StencilClipMode => true | _ => false end.

(* ================================================================== *)
(** ** Stencil settings *)

(** One face of [GrStencilSettings]; the three masks are [uint16_t]. *)
Record FaceSettings := {
  passOp : GrStencilOp;
  failOp : GrStencilOp;
  func : GrStencilFunc;
  funcMask : Z;
  funcRef : Z;
  writeMask : Z }.

Record GrStencilSettings := { front : FaceSettings; back : FaceSettings }.

(** [GR_STATIC_CONST_SAME_STENCIL(name, passOp, failOp, func, funcMask,
    funcRef, writeMask)]: the same settings on both faces. *)
Definition SAME_STENCIL (p f : GrStencilOp) (fn : GrStencilFunc) (fm fr wm : Z)
  : GrStencilSettings :=
  let face := {| passOp := p; failOp := f; func := fn;
                 funcMask := fm; funcRef := fr; writeMask := wm |} in
  {| front := face; back := face |}.

(** A default-constructed [GrStencilSettings] ([setDisabled]). *)
Definition GrStencilSettings_disabled : GrStencilSettings :=
  SAME_STENCIL kKeep_StencilOp kKeep_StencilOp kAlways_StencilFunc 0 0 0.

Definition isKeep (o : GrStencilOp) : bool :=
  match o with kKeep_StencilOp => true | _ => false end.

Definition isAlways (f : GrStencilFunc) : bool :=
  match f with kAlways_StencilFunc => true | _ => false end.

(** [GrStencilSettings::isDisabled], declared in [GrStencil.h], which is not
    among the sources: both faces keep on pass and fail and always pass. *)
Definition isDisabled (s : GrStencilSettings) : bool :=
  isKeep (passOp (front s)) && isKeep (passOp (back s)) &&
  isKeep (failOp (front s)) && isKeep (failOp (back s)) &&
  isAlways (func (front s)) && isAlways (func (back s)).

Definition copyFrontSettingsToBack (s : GrStencilSettings) : GrStencilSettings :=
  {| front := front s; back := front s |}.

(** Conversions to the C++ integer types of the locals of
    [adjustStencilParams]. *)
Definition to_u16 (x : Z) : Z := x mod 2 ^ 16.
Definition to_u32 (x : Z) : Z := x mod 2 ^ 32.

(** [gSpecialToBasicStencilFunc[2][kClipStencilFuncCount]] *)
Definition gSpecialToBasicStencilFunc : list (list GrStencilFunc) :=
  [ (* Stencil-Clipping is DISABLED *)
    [ kAlways_StencilFunc;     (* kAlwaysIfInClip_StencilFunc *)
      kEqual_StencilFunc;      (* kEqualIfInClip_StencilFunc *)
      kLess_StencilFunc;       (* kLessIfInClip_StencilFunc *)
      kLEqual_StencilFunc;     (* kLEqualIfInClip_StencilFunc *)
      kNotEqual_StencilFunc ]; (* kNonZeroIfInClip_StencilFunc *)
    (* Stencil-Clipping is ENABLED *)
    [ kEqual_StencilFunc;      (* kAlwaysIfInClip_StencilFunc *)
      kEqual_StencilFunc;      (* kEqualIfInClip_StencilFunc *)
      kLess_StencilFunc;       (* kLessIfInClip_StencilFunc *)
      kLEqual_StencilFunc;     (* kLEqualIfInClip_StencilFunc *)
      kLess_StencilFunc ] ].   (* kNonZeroIfInClip_StencilFunc *)

(** The body of the per-face loop of [adjustStencilParams]. *)
Definition adjustFace (mode : StencilClipMode) (clipBit userBits : Z)
           (s : FaceSettings) : FaceSettings :=
  let func0 := func s in
  let writeMask1 := to_u16 (Z.land (writeMask s) userBits) in
  let funcMask0 := funcMask s in
  let funcRef0 := funcRef s in
  let '(func1, funcMask1, funcRef1) :=
    if (kBasicStencilFuncCount <=? funcValue func0)%nat then
      let respectClip := isRespectClip mode in
      let '(fm, fr) :=
        if respectClip then
          match func0 with
          | kAlwaysIfInClip_StencilFunc => (to_u16 clipBit, to_u16 clipBit)
          | kEqualIfInClip_StencilFunc
          | kLessIfInClip_StencilFunc
          | kLEqualIfInClip_StencilFunc =>
              (to_u16 (Z.lor (Z.land funcMask0 userBits) clipBit),
               to_u16 (Z.lor (Z.land funcRef0 userBits) clipBit))
          | kNonZeroIfInClip_StencilFunc =>
              (to_u16 (Z.lor (Z.land funcMask0 userBits) clipBit), to_u16 clipBit)
          | _ => (funcMask0, funcRef0)
          end
        else
          (to_u16 (Z.land funcMask0 userBits), to_u16 (Z.land funcRef0 userBits)) in
      let table := nth (if respectClip then 1 else 0)%nat gSpecialToBasicStencilFunc [] in
      (nth (funcValue func0 - kBasicStencilFuncCount) table func0, fm, fr)
    else
      (func0, to_u16 (Z.land funcMask0 userBits), to_u16 (Z.land funcRef0 userBits)) in
  {| passOp := passOp s; failOp := failOp s; func := func1;
     funcMask := funcMask1; funcRef := funcRef1; writeMask := writeMask1 |}.

(** [GrClipMaskManager::adjustStencilParams].  [twoSided] is
    [fClipTarget->caps()->twoSidedStencilSupport()].  The loop runs for the
    front face and, when two-sided stencil is supported, for the back face;
    otherwise the front settings are copied to the back. *)
Definition adjustStencilParams (twoSided : bool) (settings : GrStencilSettings)
           (mode : StencilClipMode) (stencilBitCnt : Z) : GrStencilSettings :=
  match mode with
  | kModifyClip_StencilClipMode => settings
  | _ =>
      let clipBit := to_u32 (Z.shiftl 1 (stencilBitCnt - 1)) in
      let userBits := to_u32 (clipBit - 1) in
      let s1 := {| front := adjustFace mode clipBit userBits (front settings);
                   back := back settings |} in
      let s2 := if twoSided
                then {| front := front s1;
                        back := adjustFace mode clipBit userBits (back s1) |}
                else s1 in
      if negb twoSided then copyFrontSettingsToBack s2 else s2
  end.

(* ================================================================== *)
(** ** Surfaces, processors and the draw state *)

(** The per-stencil-buffer data the manager reads: its bit depth.  The
    buffer's record of the last clip rendered into it is mutable and lives in
    the manager state below, keyed by [sbKey]. *)
Record GrStencilBuffer := { sbKey : nat; bits : Z }.

Record GrRenderTarget := {
  rtKey : nat;
  rtWidth : Z;
  rtHeight : Z;
  numSamples : Z;
  getStencilBuffer : option GrStencilBuffer }.

(** Modelled from the spec: [GrRenderTarget::isMultisampled] is declared in a
    header that is not among the sources; a target is multisampled when its
    sample count is not zero. *)
Definition isMultisampled (rt : GrRenderTarget) : bool := negb (numSamples rt =? 0).

Record GrTexture := {
  texKey : nat;
  texWidth : Z;
  texHeight : Z;
  asRenderTarget : GrRenderTarget }.

Record GrSurfaceDesc := {
  fFlags_RenderTarget : bool;     (* kRenderTarget_GrSurfaceFlag *)
  fFlags_NoStencil : bool;        (* kNoStencil_GrSurfaceFlag *)
  fWidth : Z;
  fHeight : Z;
  fConfig : GrPixelConfig }.

Inductive GrFragmentProcessor :=
| GrConvexPolyEffect (edgeType : GrPrimitiveEdgeType) (key : nat)
| GrRRectEffect (edgeType : GrPrimitiveEdgeType) (key : nat)
| GrTextureDomainEffect (tex : GrTexture) (m : SkMatrix) (domain : SkIRect.t)
                        (positionCoords : bool).

Record GrDrawState := {
  fRenderTarget : option GrRenderTarget;
  fViewMatrix : SkMatrix;
  kClip_StateBit : bool;
  kCoverageDrawing_StateBit : bool;
  kNoColorWrites_StateBit : bool;
  kHWAntialias_StateBit : bool;
  fSrcBlend : GrBlendCoeff;
  fDstBlend : GrBlendCoeff;
  fStencilSettings : GrStencilSettings;
  fAlpha : Z;
  fColorStages : list GrFragmentProcessor;
  fCoverageStages : list GrFragmentProcessor }.

(** [GrDrawState drawState(matrix)]: a fresh draw state with the given view
    matrix. *)
Definition GrDrawState_new (m : SkMatrix) : GrDrawState :=
  {| fRenderTarget := None; fViewMatrix := m;
     kClip_StateBit := false; kCoverageDrawing_StateBit := false;
     kNoColorWrites_StateBit := false; kHWAntialias_StateBit := false;
     fSrcBlend := kOne_GrBlendCoeff; fDstBlend := kZero_GrBlendCoeff;
     fStencilSettings := GrStencilSettings_disabled;
     fAlpha := 255; fColorStages := []; fCoverageStages := [] |}.

Definition setRenderTarget (rt : GrRenderTarget) (ds : GrDrawState) : GrDrawState :=
  {| fRenderTarget := Some rt; fViewMatrix := fViewMatrix ds;
     kClip_StateBit := kClip_StateBit ds;
     kCoverageDrawing_StateBit := kCoverageDrawing_StateBit ds;
     kNoColorWrites_StateBit := kNoColorWrites_StateBit ds;
     kHWAntialias_StateBit := kHWAntialias_StateBit ds;
     fSrcBlend := fSrcBlend ds; fDstBlend := fDstBlend ds;
     fStencilSettings := fStencilSettings ds; fAlpha := fAlpha ds;
     fColorStages := fColorStages ds; fCoverageStages := fCoverageStages ds |}.

Definition setIdentityViewMatrix (ds : GrDrawState) : GrDrawState :=
  {| fRenderTarget := fRenderTarget ds; fViewMatrix := MatrixI;
     kClip_StateBit := kClip_StateBit ds;
     kCoverageDrawing_StateBit := kCoverageDrawing_StateBit ds;
     kNoColorWrites_StateBit := kNoColorWrites_StateBit ds;
     kHWAntialias_StateBit := kHWAntialias_StateBit ds;
     fSrcBlend := fSrcBlend ds; fDstBlend := fDstBlend ds;
     fStencilSettings := fStencilSettings ds; fAlpha := fAlpha ds;
     fColorStages := fColorStages ds; fCoverageStages := fCoverageStages ds |}.

(** [enableState(kCoverageDrawing_StateBit | kClip_StateBit)] *)
Definition enableCoverageDrawingAndClip (ds : GrDrawState) : GrDrawState :=
  {| fRenderTarget := fRenderTarget ds; fViewMatrix := fViewMatrix ds;
     kClip_StateBit := true; kCoverageDrawing_StateBit := true;
     kNoColorWrites_StateBit := kNoColorWrites_StateBit ds;
     kHWAntialias_StateBit := kHWAntialias_StateBit ds;
     fSrcBlend := fSrcBlend ds; fDstBlend := fDstBlend ds;
     fStencilSettings := fStencilSettings ds; fAlpha := fAlpha ds;
     fColorStages := fColorStages ds; fCoverageStages := fCoverageStages ds |}.

(** [enableState(kClip_StateBit); enableState(kNoColorWrites_StateBit)] *)
Definition enableClipAndNoColorWrites (ds : GrDrawState) : GrDrawState :=
  {| fRenderTarget := fRenderTarget ds; fViewMatrix := fViewMatrix ds;
     kClip_StateBit := true;
     kCoverageDrawing_StateBit := kCoverageDrawing_StateBit ds;
     kNoColorWrites_StateBit := true;
     kHWAntialias_StateBit := kHWAntialias_StateBit ds;
     fSrcBlend := fSrcBlend ds; fDstBlend := fDstBlend ds;
     fStencilSettings := fStencilSettings ds; fAlpha := fAlpha ds;
     fColorStages := fColorStages ds; fCoverageStages := fCoverageStages ds |}.

(** [setState(kHWAntialias_StateBit, b)] *)
Definition setHWAntialias (b : bool) (ds : GrDrawState) : GrDrawState :=
  {| fRenderTarget := fRenderTarget ds; fViewMatrix := fViewMatrix ds;
     kClip_StateBit := kClip_StateBit ds;
     kCoverageDrawing_StateBit := kCoverageDrawing_StateBit ds;
     kNoColorWrites_StateBit := kNoColorWrites_StateBit ds;
     kHWAntialias_StateBit := b;
     fSrcBlend := fSrcBlend ds; fDstBlend := fDstBlend ds;
     fStencilSettings := fStencilSettings ds; fAlpha := fAlpha ds;
     fColorStages := fColorStages ds; fCoverageStages := fCoverageStages ds |}.

Definition setBlendFunc (src dst : GrBlendCoeff) (ds : GrDrawState) : GrDrawState :=
  {| fRenderTarget := fRenderTarget ds; fViewMatrix := fViewMatrix ds;
     kClip_StateBit := kClip_StateBit ds;
     kCoverageDrawing_StateBit := kCoverageDrawing_StateBit ds;
     kNoColorWrites_StateBit := kNoColorWrites_StateBit ds;
     kHWAntialias_StateBit := kHWAntialias_StateBit ds;
     fSrcBlend := src; fDstBlend := dst;
     fStencilSettings := fStencilSettings ds; fAlpha := fAlpha ds;
     fColorStages := fColorStages ds; fCoverageStages := fCoverageStages ds |}.

Definition setStencil (s : GrStencilSettings) (ds : GrDrawState) : GrDrawState :=
  {| fRenderTarget := fRenderTarget ds; fViewMatrix := fViewMatrix ds;
     kClip_StateBit := kClip_StateBit ds;
     kCoverageDrawing_StateBit := kCoverageDrawing_StateBit ds;
     kNoColorWrites_StateBit := kNoColorWrites_StateBit ds;
     kHWAntialias_StateBit := kHWAntialias_StateBit ds;
     fSrcBlend := fSrcBlend ds; fDstBlend := fDstBlend ds;
     fStencilSettings := s; fAlpha := fAlpha ds;
     fColorStages := fColorStages ds; fCoverageStages := fCoverageStages ds |}.

Definition setAlpha (a : Z) (ds : GrDrawState) : GrDrawState :=
  {| fRenderTarget := fRenderTarget ds; fViewMatrix := fViewMatrix ds;
     kClip_StateBit := kClip_StateBit ds;
     kCoverageDrawing_StateBit := kCoverageDrawing_StateBit ds;
     kNoColorWrites_StateBit := kNoColorWrites_StateBit ds;
     kHWAntialias_StateBit := kHWAntialias_StateBit ds;
     fSrcBlend := fSrcBlend ds; fDstBlend := fDstBlend ds;
     fStencilSettings := fStencilSettings ds; fAlpha := a;
     fColorStages := fColorStages ds; fCoverageStages := fCoverageStages ds |}.

(** [addColorProcessor] / [addCoverageProcessor] append to the chain. *)
Definition addColorProcessor (fp : GrFragmentProcessor) (ds : GrDrawState) : GrDrawState :=
  {| fRenderTarget := fRenderTarget ds; fViewMatrix := fViewMatrix ds;
     kClip_StateBit := kClip_StateBit ds;
     kCoverageDrawing_StateBit := kCoverageDrawing_StateBit ds;
     kNoColorWrites_StateBit := kNoColorWrites_StateBit ds;
     kHWAntialias_StateBit := kHWAntialias_StateBit ds;
     fSrcBlend := fSrcBlend ds; fDstBlend := fDstBlend ds;
     fStencilSettings := fStencilSettings ds; fAlpha := fAlpha ds;
     fColorStages := fColorStages ds ++ [fp];
     fCoverageStages := fCoverageStages ds |}.

Definition addCoverageProcessor (fp : GrFragmentProcessor) (ds : GrDrawState) : GrDrawState :=
  {| fRenderTarget := fRenderTarget ds; fViewMatrix := fViewMatrix ds;
     kClip_StateBit := kClip_StateBit ds;
     kCoverageDrawing_StateBit := kCoverageDrawing_StateBit ds;
     kNoColorWrites_StateBit := kNoColorWrites_StateBit ds;
     kHWAntialias_StateBit := kHWAntialias_StateBit ds;
     fSrcBlend := fSrcBlend ds; fDstBlend := fDstBlend ds;
     fStencilSettings := fStencilSettings ds; fAlpha := fAlpha ds;
     fColorStages := fColorStages ds;
     fCoverageStages := fCoverageStages ds ++ [fp] |}.

(** The stages of the draw state cut back to the given counts
    ([pop_back_n] on both chains). *)
Definition popStagesTo (nColor nCoverage : nat) (ds : GrDrawState) : GrDrawState :=
  {| fRenderTarget := fRenderTarget ds; fViewMatrix := fViewMatrix ds;
     kClip_StateBit := kClip_StateBit ds;
     kCoverageDrawing_StateBit := kCoverageDrawing_StateBit ds;
     kNoColorWrites_StateBit := kNoColorWrites_StateBit ds;
     kHWAntialias_StateBit := kHWAntialias_StateBit ds;
     fSrcBlend := fSrcBlend ds; fDstBlend := fDstBlend ds;
     fStencilSettings := fStencilSettings ds; fAlpha := fAlpha ds;
     fColorStages := firstn nColor (fColorStages ds);
     fCoverageStages := firstn nCoverage (fCoverageStages ds) |}.

(** Modelled from the spec: [GrDrawState::AutoRestoreEffects] is declared in
    [GrDrawState.h], which is not among the sources.  It is the scoped guard
    of the specification: while armed it remembers how many colour and
    coverage processors the draw state had when the guard was set, and
    setting it again (to the draw state or to NULL) first removes every
    processor added since.  [None] is the idle guard. *)
Definition AutoRestoreEffects := option (nat * nat).

Definition AutoRestoreEffects_restore (are : AutoRestoreEffects) (ds : GrDrawState)
  : GrDrawState :=
  match are with
  | Some (nColor, nCoverage) => popStagesTo nColor nCoverage ds
  | None => ds
  end.

(** [are->set(drawState)] *)
Definition AutoRestoreEffects_set (are : AutoRestoreEffects) (ds : GrDrawState)
  : AutoRestoreEffects * GrDrawState :=
  let ds' := AutoRestoreEffects_restore are ds in
  (Some (length (fColorStages ds'), length (fCoverageStages ds')), ds').

(** [are->set(NULL)] *)
Definition AutoRestoreEffects_setNULL (are : AutoRestoreEffects) (ds : GrDrawState)
  : AutoRestoreEffects * GrDrawState :=
  (None, AutoRestoreEffects_restore are ds).

(** Modelled from the spec: [GrDrawState::AutoRestoreStencil], the scoped
    guard for the stencil settings, likewise declared in [GrDrawState.h]. *)
Definition AutoRestoreStencil := option GrStencilSettings.

(** [ars->set(drawState)] *)
Definition AutoRestoreStencil_set (ars : AutoRestoreStencil) (ds : GrDrawState)
  : AutoRestoreStencil * GrDrawState :=
  let ds' := match ars with Some s => setStencil s ds | None => ds end in
  (Some (fStencilSettings ds'), ds').

(** [GrClipMaskManager::ScissorState] *)
Record ScissorState := { fEnabled : bool; fRect : SkIRect.t }.

Definition ScissorState_set (rect : SkIRect.t) : ScissorState :=
  {| fEnabled := true; fRect := rect |}.

(* ================================================================== *)
(** ** Clip elements and the reduced clip *)

(** A [SkClipStack::Element], given by what its accessors return. *)
Record Element := {
  getType : ElementType;
  getOp : Op;
  isAA : bool;
  isInverseFilled : bool;
  getRect : SkRect.t;
  getRRect : SkRRect;
  getPath : SkPath;
  asPath : SkPath;
  getBounds : SkRect.t;
  contains : SkRect.t -> bool }.

(** The outputs of [GrReducedClip::ReduceClipStack]. *)
Record ReducedClip := {
  elements : list Element;
  genID : Z;
  initialState : InitialState;
  clipSpaceIBounds : SkIRect.t;
  requiresAA : bool }.

(** A [SkClipStack], given by [isWideOpen] and by what the reduction
    produces for a query rectangle. *)
Record SkClipStack := {
  isWideOpen : bool;
  ReduceClipStack : SkIRect.t -> ReducedClip }.

Record GrClipData := { fClipStack : SkClipStack; fOrigin : SkIPoint.t }.

Record GrPathRenderer := { prKey : nat }.

(* ================================================================== *)
(** ** Collaborators *)

(** What the manager asks of the context, the clip target's caps and the
    processor factories.  [getPathRenderer] is always called with a fill
    stroke and with the software renderer disallowed; it also yields the
    stencil support it reports through its out-parameter.
    [refScratchTexture n desc] is the answer to the [n]-th scratch-texture
    request. *)
Record GrContext := {
  getPathRenderer :
    GrDrawState -> SkPath -> DrawType -> option (GrPathRenderer * StencilSupport);
  refScratchTexture : nat -> GrSurfaceDesc -> option GrTexture;
  isConfigRenderable_Alpha_8 : bool;
  twoSidedStencilSupport : bool;
  GetClipPasses : Op -> bool -> Z -> bool -> bool * list GrStencilSettings;
  GrConvexPolyEffect_Create_path :
    GrPrimitiveEdgeType -> SkPath -> SkVector -> option GrFragmentProcessor;
  GrConvexPolyEffect_Create_rect :
    GrPrimitiveEdgeType -> SkRect.t -> option GrFragmentProcessor;
  GrRRectEffect_Create :
    GrPrimitiveEdgeType -> SkRRect -> option GrFragmentProcessor }.

(* ================================================================== *)
(** ** The manager and what it drives *)

(** Commands issued to the clip target, the context and the software mask
    helper, in program order. *)
Inductive Command :=
| clear (rect : SkIRect.t) (color : Z) (rt : GrRenderTarget)
| clearStencilClip (rect : SkIRect.t) (insideClip : bool) (rt : GrRenderTarget)
| drawSimpleRect (ds : GrDrawState) (rect : SkRect.t)
| fillAARect (ds : GrDrawState) (rect : SkRect.t)
| drawPath (pr : GrPathRenderer) (ds : GrDrawState) (path : SkPath) (aa : bool)
| stencilPath (pr : GrPathRenderer) (ds : GrDrawState) (path : SkPath)
| acquireMask (clipGenID : Z) (desc : GrSurfaceDesc) (bound : SkIRect.t)
| createTempMaskRequest (desc : GrSurfaceDesc)
| helper_init (bounds : SkIRect.t) (m : SkMatrix)
| helper_clear (alpha : Z)
| helper_drawRect (rect : SkRect.t) (op : Op) (aa : bool) (alpha : Z)
| helper_drawPath (path : SkPath) (op : Op) (aa : bool) (alpha : Z)
| helper_toTexture (tex : GrTexture).

(** The manager's routines whose runs are traced. *)
Inductive Routine :=
| R_installClipEffects
| R_createAlphaClipMask
| R_createSoftwareClipMask
| R_createStencilClipMask.

(** Modelled from the spec: [GrClipMaskCache] is declared in
    [GrClipMaskCache.h], which is not among the sources.  It holds a single
    active entry: the generation id and clip-space bounds a mask was built
    for and the mask texture; an entry can be reused only when both the
    generation id and the bounds match exactly. *)
Record MaskCacheEntry := {
  fLastClipGenID : Z;
  fLastBound : SkIRect.t;
  fLastMask : GrTexture }.

Definition GrClipMaskCache := option MaskCacheEntry.

Definition canReuse (c : GrClipMaskCache) (clipGenID : Z) (bounds : SkIRect.t) : bool :=
  match c with
  | Some e => (fLastClipGenID e =? clipGenID) && SkIRect.eqb (fLastBound e) bounds
  | None => false
  end.

Definition getLastMask (c : GrClipMaskCache) : option GrTexture :=
  option_map fLastMask c.

(** The key under which a stencil buffer remembers the clip last rendered
    into it. *)
Record StencilClipKey := {
  fLastClipStackGenID : Z;
  fLastClipStackRect : SkIRect.t;
  fLastClipSpaceOffset : SkIPoint.t }.

(** The manager's fields, the mutable state of the objects it reaches
    through pointers, and two traces: the commands issued and the routines
    run (with the success of each run).  The traces are write-only. *)
Record GrClipMaskManager := {
  fCurrClipMaskType : ClipMaskType;
  fClipMode : StencilClipMode;
  fAACache : GrClipMaskCache;
  fLastClip : nat -> option StencilClipKey;
  fScratchRequests : nat;
  fCommands : list Command;
  fRan : list (Routine * bool) }.

Definition set_fCurrClipMaskType (t : ClipMaskType) (m : GrClipMaskManager) :=
  {| fCurrClipMaskType := t; fClipMode := fClipMode m; fAACache := fAACache m;
     fLastClip := fLastClip m; fScratchRequests := fScratchRequests m;
     fCommands := fCommands m; fRan := fRan m |}.

Definition set_fClipMode (c : StencilClipMode) (m : GrClipMaskManager) :=
  {| fCurrClipMaskType := fCurrClipMaskType m; fClipMode := c; fAACache := fAACache m;
     fLastClip := fLastClip m; fScratchRequests := fScratchRequests m;
     fCommands := fCommands m; fRan := fRan m |}.

Definition set_fAACache (c : GrClipMaskCache) (m : GrClipMaskManager) :=
  {| fCurrClipMaskType := fCurrClipMaskType m; fClipMode := fClipMode m; fAACache := c;
     fLastClip := fLastClip m; fScratchRequests := fScratchRequests m;
     fCommands := fCommands m; fRan := fRan m |}.

Definition set_fLastClip (k : nat) (v : StencilClipKey) (m : GrClipMaskManager) :=
  {| fCurrClipMaskType := fCurrClipMaskType m; fClipMode := fClipMode m;
     fAACache := fAACache m;
     fLastClip := fun k' => if Nat.eqb k' k then Some v else fLastClip m k';
     fScratchRequests := fScratchRequests m;
     fCommands := fCommands m; fRan := fRan m |}.

Definition countScratchRequest (m : GrClipMaskManager) :=
  {| fCurrClipMaskType := fCurrClipMaskType m; fClipMode := fClipMode m;
     fAACache := fAACache m; fLastClip := fLastClip m;
     fScratchRequests := S (fScratchRequests m);
     fCommands := fCommands m; fRan := fRan m |}.

(** Issue one command. *)
Definition issue (c : Command) (m : GrClipMaskManager) :=
  {| fCurrClipMaskType := fCurrClipMaskType m; fClipMode := fClipMode m;
     fAACache := fAACache m; fLastClip := fLastClip m;
     fScratchRequests := fScratchRequests m;
     fCommands := fCommands m ++ [c]; fRan := fRan m |}.

(** Record that a routine ran and whether it succeeded. *)
Definition ran (r : Routine) (ok : bool) (m : GrClipMaskManager) :=
  {| fCurrClipMaskType := fCurrClipMaskType m; fClipMode := fClipMode m;
     fAACache := fAACache m; fLastClip := fLastClip m;
     fScratchRequests := fScratchRequests m;
     fCommands := fCommands m; fRan := fRan m ++ [(r, ok)] |}.

(** [fAACache.reset()] *)
Definition fAACache_reset (m : GrClipMaskManager) := set_fAACache None m.

(* ================================================================== *)
(** ** Helpers in the anonymous namespace *)

(** [setup_drawstate_aaclip]: sample the mask [result] as a coverage
    processor, in device coordinates. *)
Definition setup_drawstate_aaclip (devBound : SkIRect.t) (drawState : GrDrawState)
           (result : GrTexture) : GrDrawState :=
  let mat :=
    MatrixPreConcat
      (MatrixPreConcat (MatrixIDiv (texWidth result) (texHeight result))
                       (MatrixTranslate (SkIntToScalar (- SkIRect.fLeft devBound))
                                        (SkIntToScalar (- SkIRect.fTop devBound))))
      (fViewMatrix drawState) in
  let domainTexels := SkIRect.MakeWH (SkIRect.width devBound) (SkIRect.height devBound) in
  addCoverageProcessor (GrTextureDomainEffect result mat domainTexels true) drawState.

Definition colorDrawType (doAA : bool) : DrawType :=
  if doAA then kColorAntiAlias_DrawType else kColor_DrawType.

(** The path with an inverse fill type toggled to the plain one. *)
Definition nonInverse (p : SkPath) : SkPath :=
  if isInverseFillType p then toggleInverseFillType p else p.

Definition path_needs_SW_renderer (context : GrContext) (drawState : GrDrawState)
           (origPath : SkPath) (doAA : bool) : bool :=
  match getPathRenderer context drawState (nonInverse origPath) (colorDrawType doAA) with
  | None => true
  | Some _ => false
  end.

(** [setup_boolean_blendcoeffs] *)
Definition setup_boolean_blendcoeffs (op : Op) (drawState : GrDrawState) : GrDrawState :=
  match op with
  | kReplace_Op => setBlendFunc kOne_GrBlendCoeff kZero_GrBlendCoeff drawState
  | kIntersect_Op => setBlendFunc kDC_GrBlendCoeff kZero_GrBlendCoeff drawState
  | kUnion_Op => setBlendFunc kOne_GrBlendCoeff kISC_GrBlendCoeff drawState
  | kXOR_Op => setBlendFunc kIDC_GrBlendCoeff kISC_GrBlendCoeff drawState
  | kDifference_Op => setBlendFunc kZero_GrBlendCoeff kISC_GrBlendCoeff drawState
  | kReverseDifference_Op => setBlendFunc kIDC_GrBlendCoeff kZero_GrBlendCoeff drawState
  end.

(** [basic_apply_stencil_clip_settings] *)
Definition basic_apply_stencil_clip_settings : GrStencilSettings :=
  SAME_STENCIL kKeep_StencilOp kKeep_StencilOp kAlwaysIfInClip_StencilFunc 0 0 0.

(* ================================================================== *)
(** ** GrClipMaskManager *)

(** [useSWOnlyPath]: does some non-rect element need the software path
    renderer? *)
Fixpoint useSWOnlyPath (context : GrContext) (drawState : GrDrawState)
         (els : list Element) : bool :=
  match els with
  | [] => false
  | element :: rest =>
      if negb (isRect (getType element)) &&
         path_needs_SW_renderer context drawState (asPath element) (isAA element)
      then true
      else useSWOnlyPath context drawState rest
  end.

(** The target of the draw state as [installClipEffects] reads it; the
    caller has asserted that it is not null. *)
Definition targetIsMultisampled (ds : GrDrawState) : bool :=
  match fRenderTarget ds with
  | Some rt => isMultisampled rt
  | None => false
  end.

Definition clipEdgeType (aa invert : bool) : GrPrimitiveEdgeType :=
  if aa
  then (if invert then kInverseFillAA_GrProcessorEdgeType else kFillAA_GrProcessorEdgeType)
  else (if invert then kInverseFillBW_GrProcessorEdgeType else kFillBW_GrProcessorEdgeType).

(** The processor factory call made for an element (the inner [switch] of
    [installClipEffects]). *)
Definition createClipProcessor (context : GrContext) (edgeType : GrPrimitiveEdgeType)
           (clipToRTOffset : SkVector) (element : Element) : option GrFragmentProcessor :=
  match getType element with
  | kPath_Type =>
      GrConvexPolyEffect_Create_path context edgeType (getPath element) clipToRTOffset
  | kRRect_Type =>
      GrRRectEffect_Create context edgeType
        (SkRRect_offset (getRRect element) (vX clipToRTOffset) (vY clipToRTOffset))
  | kRect_Type =>
      GrConvexPolyEffect_Create_rect context edgeType
        (SkRect.offset (getRect element) (vX clipToRTOffset) (vY clipToRTOffset))
  | kEmpty_Type => None
  end.

(** How the outer [switch] of [installClipEffects] classifies an operator:
    [None] when the operator is not handled, else [(invert, skip)]. *)
Definition classifyOp (boundsInClipSpace : option SkRect.t) (element : Element)
  : option (bool * bool) :=
  match getOp element with
  | kReplace_Op | kIntersect_Op =>
      Some (false, match boundsInClipSpace with
                   | Some b => contains element b
                   | None => false
                   end)
  | kDifference_Op => Some (true, false)
  | _ => None
  end.

(** The [while] loop of [installClipEffects]; the first component of the
    result is the local [failed]. *)
Fixpoint installClipEffects_loop (context : GrContext)
         (boundsInClipSpace : option SkRect.t) (clipToRTOffset : SkVector)
         (els : list Element) (drawState : GrDrawState) : bool * GrDrawState :=
  match els with
  | [] => (false, drawState)
  | element :: rest =>
      match classifyOp boundsInClipSpace element with
      | None => (true, drawState)
      | Some (invert, skip) =>
          if skip
          then installClipEffects_loop context boundsInClipSpace clipToRTOffset rest drawState
          else if isAA element && targetIsMultisampled drawState
          then (true, drawState)
          else
            match createClipProcessor context (clipEdgeType (isAA element) invert)
                                      clipToRTOffset element with
            | Some fp =>
                installClipEffects_loop context boundsInClipSpace clipToRTOffset rest
                                        (addCoverageProcessor fp drawState)
            | None => (true, drawState)
            end
      end
  end.

(** [installClipEffects]: the result, the draw state and the guard. *)
Definition installClipEffects (context : GrContext) (drawState : GrDrawState)
           (are : AutoRestoreEffects) (els : list Element)
           (clipToRTOffset : SkVector) (drawBounds : option SkRect.t)
  : bool * GrDrawState * AutoRestoreEffects :=
  let boundsInClipSpace :=
    option_map (fun b => SkRect.offset b (- vX clipToRTOffset)%Q (- vY clipToRTOffset)%Q)
               drawBounds in
  let '(are1, ds1) := AutoRestoreEffects_set are drawState in
  let '(failed, ds2) :=
    installClipEffects_loop context boundsInClipSpace clipToRTOffset els ds1 in
  if failed
  then let '(are2, ds3) := AutoRestoreEffects_setNULL are1 ds2 in (false, ds3, are2)
  else (true, ds2, are1).

(** [drawElement] *)
Definition drawElement (context : GrContext) (m : GrClipMaskManager)
           (drawState : GrDrawState) (target : GrTexture) (element : Element)
           (pr : option GrPathRenderer) : bool * GrClipMaskManager :=
  let ds := setRenderTarget (asRenderTarget target) drawState in
  match getType element with
  | kEmpty_Type => (true, m)
  | kRect_Type =>
      if isAA element
      then (true, issue (fillAARect ds (getRect element)) m)
      else (true, issue (drawSimpleRect ds (getRect element)) m)
  | _ =>
      let path := nonInverse (asPath element) in
      let pr1 :=
        match pr with
        | Some p => Some p
        | None => option_map fst (getPathRenderer context ds path
                                                  (colorDrawType (isAA element)))
        end in
      match pr1 with
      | None => (false, m)
      | Some p => (true, issue (drawPath p ds path (isAA element)) m)
      end
  end.

(** [canStencilAndDrawElement]: the result, the draw state with its target
    set, and the renderer stored through [pr]. *)
Definition canStencilAndDrawElement (context : GrContext) (drawState : GrDrawState)
           (target : GrTexture) (element : Element)
  : bool * GrDrawState * option GrPathRenderer :=
  let ds := setRenderTarget (asRenderTarget target) drawState in
  if isRect (getType element)
  then (true, ds, None)
  else
    let path := nonInverse (asPath element) in
    let type := if isAA element
                then kStencilAndColorAntiAlias_DrawType
                else kStencilAndColor_DrawType in
    match getPathRenderer context ds path type with
    | Some (p, _) => (true, ds, Some p)
    | None => (false, ds, None)
    end.

(** [mergeMask] *)
Definition mergeMask (m : GrClipMaskManager) (drawState : GrDrawState)
           (dstMask srcMask : GrTexture) (op : Op) (dstBound srcBound : SkIRect.t)
  : GrClipMaskManager :=
  let ds1 := setIdentityViewMatrix drawState in
  let ds2 := setRenderTarget (asRenderTarget dstMask) ds1 in
  let ds3 := setup_boolean_blendcoeffs op ds2 in
  let sampleM := MatrixIDiv (texWidth srcMask) (texHeight srcMask) in
  let ds4 := addColorProcessor (GrTextureDomainEffect srcMask sampleM srcBound false) ds3 in
  issue (drawSimpleRect ds4 (SkRect.Make dstBound)) m.

(** [createTempMask] *)
Definition createTempMask (context : GrContext) (m : GrClipMaskManager) (width height : Z)
  : option GrTexture * GrClipMaskManager :=
  let desc := {| fFlags_RenderTarget := true; fFlags_NoStencil := true;
                 fWidth := width; fHeight := height;
                 fConfig := kAlpha_8_GrPixelConfig |} in
  (refScratchTexture context (fScratchRequests m) desc,
   countScratchRequest (issue (createTempMaskRequest desc) m)).

(** [getCachedMaskTexture] *)
Definition getCachedMaskTexture (m : GrClipMaskManager) (elementsGenID : Z)
           (clipSpaceIBounds : SkIRect.t) : option GrTexture :=
  if canReuse (fAACache m) elementsGenID clipSpaceIBounds
  then getLastMask (fAACache m)
  else None.

(** Modelled from the spec: [GrClipMaskCache::acquireMask] allocates the
    mask texture from the scratch pool and makes it the active entry for the
    generation id and the bounds; when the allocation fails there is no
    entry. *)
Definition fAACache_acquireMask (context : GrContext) (m : GrClipMaskManager)
           (clipGenID : Z) (desc : GrSurfaceDesc) (bound : SkIRect.t)
  : GrClipMaskManager :=
  let entry :=
    option_map (fun t => {| fLastClipGenID := clipGenID; fLastBound := bound;
                            fLastMask := t |})
               (refScratchTexture context (fScratchRequests m) desc) in
  set_fAACache entry (countScratchRequest (issue (acquireMask clipGenID desc bound) m)).

(** [allocMaskTexture] *)
Definition allocMaskTexture (context : GrContext) (m : GrClipMaskManager)
           (elementsGenID : Z) (clipSpaceIBounds : SkIRect.t) (willUpload : bool)
  : option GrTexture * GrClipMaskManager :=
  let m1 := fAACache_reset m in
  let desc := {| fFlags_RenderTarget := negb willUpload; fFlags_NoStencil := false;
                 fWidth := SkIRect.width clipSpaceIBounds;
                 fHeight := SkIRect.height clipSpaceIBounds;
                 fConfig := if willUpload || isConfigRenderable_Alpha_8 context
                            then kAlpha_8_GrPixelConfig
                            else kRGBA_8888_GrPixelConfig |} in
  let m2 := fAACache_acquireMask context m1 elementsGenID desc clipSpaceIBounds in
  (getLastMask (fAACache m2), m2).

Definition kStencilInElement : GrStencilSettings :=
  SAME_STENCIL kReplace_StencilOp kReplace_StencilOp kAlways_StencilFunc
               65535 65535 65535.

Definition kDrawOutsideElement : GrStencilSettings :=
  SAME_STENCIL kZero_StencilOp kZero_StencilOp kEqual_StencilFunc
               65535 0 65535.

Definition gDrawToStencil : GrStencilSettings :=
  SAME_STENCIL kIncClamp_StencilOp kIncClamp_StencilOp kAlways_StencilFunc
               65535 0 65535.

(** Does the element have to go through the stencil-assisted branch of
    [createAlphaClipMask]? *)
Definition modifiesOutside (element : Element) : bool :=
  isInverseFilled element ||
  Op_eqb kIntersect_Op (getOp element) ||
  Op_eqb kReverseDifference_Op (getOp element).

(** One iteration of the element loop of [createAlphaClipMask].  [temp] is
    the scratch texture, allocated on first use and kept across iterations.
    The first component is [false] when the iteration leaves the function
    through one of its [return NULL]s (after resetting the cache). *)
Definition createAlphaClipMask_element (context : GrContext)
           (result : GrTexture) (clipSpaceIBounds maskSpaceIBounds : SkIRect.t)
           (clipToMaskOffset : SkVector)
           (m : GrClipMaskManager) (temp : option GrTexture) (element : Element)
  : bool * GrClipMaskManager * option GrTexture :=
  let translate := MatrixTranslate (vX clipToMaskOffset) (vY clipToMaskOffset) in
  let op := getOp element in
  let invert := isInverseFilled element in
  if modifiesOutside element then
    let drawState0 := enableCoverageDrawingAndClip (GrDrawState_new translate) in
    let '(canStencil, drawState1, pr) :=
      canStencilAndDrawElement context drawState0 result element in
    let useTemp := negb canStencil in
    if useTemp then
      let maskSpaceElementIBounds :=
        if invert then maskSpaceIBounds
        else SkRect.roundOut (SkRect.offset (getBounds element)
                                            (vX clipToMaskOffset) (vY clipToMaskOffset)) in
      let '(temp1, m1) :=
        match temp with
        | Some t => (Some t, m)
        | None => createTempMask context m (SkIRect.fRight maskSpaceIBounds)
                                 (SkIRect.fBottom maskSpaceIBounds)
        end in
      match temp1 with
      | None => (false, fAACache_reset m1, None)
      | Some dst =>
          let m2 := issue (clear maskSpaceElementIBounds
                                 (if invert then 4294967295 else 0)
                                 (asRenderTarget dst)) m1 in
          let drawState2 := setup_boolean_blendcoeffs kReplace_Op drawState1 in
          let drawState3 := setAlpha (if invert then 0 else 255) drawState2 in
          let backupDrawState := drawState3 in
          let '(ok, m3) := drawElement context m2 drawState3 dst element pr in
          if ok
          then (true,
                mergeMask m3 backupDrawState result dst op
                          maskSpaceIBounds maskSpaceElementIBounds,
                temp1)
          else (false, fAACache_reset m3, temp1)
      end
    else
      let dst := result in
      let drawState2 :=
        setup_boolean_blendcoeffs op (setStencil kStencilInElement drawState1) in
      let drawState3 := setAlpha (if invert then 0 else 255) drawState2 in
      let backupDrawState := drawState3 in
      let '(ok, m3) := drawElement context m drawState3 dst element pr in
      if ok
      then
        let backup1 :=
          setStencil kDrawOutsideElement
                     (setAlpha (if invert then 255 else 0) backupDrawState) in
        (true, issue (drawSimpleRect backup1 (SkRect.Make clipSpaceIBounds)) m3, temp)
      else (false, fAACache_reset m3, temp)
  else
    let drawState0 := enableCoverageDrawingAndClip (GrDrawState_new translate) in
    let drawState1 := setup_boolean_blendcoeffs op (setAlpha 255 drawState0) in
    (* the result of this drawElement call is not looked at *)
    let '(_, m1) := drawElement context m drawState1 result element None in
    (true, m1, temp).

(** The element loop of [createAlphaClipMask]. *)
Fixpoint createAlphaClipMask_loop (context : GrContext)
         (result : GrTexture) (clipSpaceIBounds maskSpaceIBounds : SkIRect.t)
         (clipToMaskOffset : SkVector)
         (m : GrClipMaskManager) (temp : option GrTexture) (els : list Element)
  : bool * GrClipMaskManager :=
  match els with
  | [] => (true, m)
  | element :: rest =>
      let '(ok, m1, temp1) :=
        createAlphaClipMask_element context result clipSpaceIBounds maskSpaceIBounds
                                    clipToMaskOffset m temp element in
      if ok
      then createAlphaClipMask_loop context result clipSpaceIBounds maskSpaceIBounds
                                    clipToMaskOffset m1 temp1 rest
      else (false, m1)
  end.

(** [createAlphaClipMask]: [None] is the NULL result. *)
Definition createAlphaClipMask (context : GrContext) (m : GrClipMaskManager)
           (elementsGenID : Z) (initialState : InitialState)
           (els : list Element) (clipSpaceIBounds : SkIRect.t)
  : option GrTexture * GrClipMaskManager :=
  match getCachedMaskTexture m elementsGenID clipSpaceIBounds with
  | Some result => (Some result, set_fCurrClipMaskType kAlpha_ClipMaskType m)
  | None =>
      let '(alloc, m1) :=
        allocMaskTexture context m elementsGenID clipSpaceIBounds false in
      match alloc with
      | None => (None, fAACache_reset m1)
      | Some result =>
          let clipToMaskOffset :=
            {| vX := SkIntToScalar (- SkIRect.fLeft clipSpaceIBounds);
               vY := SkIntToScalar (- SkIRect.fTop clipSpaceIBounds) |} in
          let maskSpaceIBounds :=
            SkIRect.MakeWH (SkIRect.width clipSpaceIBounds)
                           (SkIRect.height clipSpaceIBounds) in
          let m2 := issue (clear maskSpaceIBounds
                                 (if isAllIn initialState then 4294967295 else 0)
                                 (asRenderTarget result)) m1 in
          let '(ok, m3) :=
            createAlphaClipMask_loop context result clipSpaceIBounds maskSpaceIBounds
                                     clipToMaskOffset m2 None els in
          if ok
          then (Some result, set_fCurrClipMaskType kAlpha_ClipMaskType m3)
          else (None, m3)
      end
  end.

(** One iteration of the element loop of [createSoftwareClipMask]. *)
Definition createSoftwareClipMask_element (clipSpaceIBounds : SkIRect.t)
           (m : GrClipMaskManager) (element : Element) : GrClipMaskManager :=
  let op := getOp element in
  if Op_eqb kIntersect_Op op || Op_eqb kReverseDifference_Op op then
    let m1 :=
      if Op_eqb kReverseDifference_Op op
      then issue (helper_drawRect (SkRect.Make clipSpaceIBounds) kXOR_Op false 255) m
      else m in
    issue (helper_drawPath (toggleInverseFillType (asPath element))
                           kReplace_Op (isAA element) 0) m1
  else if isRect (getType element)
  then issue (helper_drawRect (getRect element) op (isAA element) 255) m
  else issue (helper_drawPath (asPath element) op (isAA element) 255) m.

(** [createSoftwareClipMask] *)
Definition createSoftwareClipMask (context : GrContext) (m : GrClipMaskManager)
           (elementsGenID : Z) (initialState : InitialState)
           (els : list Element) (clipSpaceIBounds : SkIRect.t)
  : option GrTexture * GrClipMaskManager :=
  match getCachedMaskTexture m elementsGenID clipSpaceIBounds with
  | Some result => (Some result, m)
  | None =>
      let maskSpaceIBounds :=
        SkIRect.MakeWH (SkIRect.width clipSpaceIBounds)
                       (SkIRect.height clipSpaceIBounds) in
      let matrix :=
        MatrixTranslate (SkIntToScalar (- SkIRect.fLeft clipSpaceIBounds))
                        (SkIntToScalar (- SkIRect.fTop clipSpaceIBounds)) in
      let m1 := issue (helper_init maskSpaceIBounds matrix) m in
      let m2 := issue (helper_clear (if isAllIn initialState then 255 else 0)) m1 in
      let m3 := fold_left (createSoftwareClipMask_element clipSpaceIBounds) els m2 in
      let '(alloc, m4) :=
        allocMaskTexture context m3 elementsGenID clipSpaceIBounds true in
      match alloc with
      | None => (None, fAACache_reset m4)
      | Some result =>
          (Some result,
           set_fCurrClipMaskType kAlpha_ClipMaskType (issue (helper_toTexture result) m4))
      end
  end.

Definition StencilClipKey_eqb (a b : StencilClipKey) : bool :=
  (fLastClipStackGenID a =? fLastClipStackGenID b) &&
  SkIRect.eqb (fLastClipStackRect a) (fLastClipStackRect b) &&
  SkIPoint.eqb (fLastClipSpaceOffset a) (fLastClipSpaceOffset b).

(** Modelled from the spec: [GrStencilBuffer::mustRenderClip] is declared in
    [GrStencilBuffer.h], which is not among the sources.  The stencil buffer
    is keyed by the stored (generation id, bounds, offset) and regeneration
    is skipped when they are unchanged. *)
Definition mustRenderClip (m : GrClipMaskManager) (sb : GrStencilBuffer)
           (key : StencilClipKey) : bool :=
  match fLastClip m (sbKey sb) with
  | Some k => negb (StencilClipKey_eqb k key)
  | None => true
  end.

(** What an element is drawn as in [createStencilClipMask]. *)
Inductive StencilShape :=
| ShapeRect (rect : SkRect.t)
| ShapePath (pr : GrPathRenderer) (clipPath : SkPath).

(** One iteration of the element loop of [createStencilClipMask]; [false]
    when no path renderer is found for the element. *)
Definition createStencilClipMask_element (context : GrContext) (rt : GrRenderTarget)
           (clipBit : Z) (matrix : SkMatrix) (clipSpaceIBounds : SkIRect.t)
           (m : GrClipMaskManager) (element : Element)
  : bool * GrClipMaskManager :=
  let drawState0 :=
    enableClipAndNoColorWrites (setRenderTarget rt (GrDrawState_new matrix)) in
  let drawState :=
    if isMultisampled rt then setHWAntialias (isAA element) drawState0 else drawState0 in
  let m0 := set_fClipMode kIgnoreClip_StencilClipMode m in
  let op := getOp element in
  let lookup : option (StencilSupport * bool * StencilShape) :=
    if isRect (getType element)
    then Some (kNoRestriction_StencilSupport, false, ShapeRect (getRect element))
    else
      let clipPath0 := asPath element in
      let fillInverted := isInverseFillType clipPath0 in
      let clipPath := nonInverse clipPath0 in
      match getPathRenderer context drawState clipPath kStencilOnly_DrawType with
      | None => None
      | Some (pr, stencilSupport) =>
          Some (stencilSupport, fillInverted, ShapePath pr clipPath)
      end in
  match lookup with
  | None => (false, m0)
  | Some (stencilSupport, fillInverted, shape) =>
      let canRenderDirectToStencil :=
        match stencilSupport with
        | kNoRestriction_StencilSupport => true
        | _ => false
        end in
      let '(canDrawDirectToClip, stencilSettings) :=
        GetClipPasses context op canRenderDirectToStencil clipBit fillInverted in
      let m1 :=
        if canDrawDirectToClip then m0
        else
          match shape with
          | ShapeRect rect =>
              issue (drawSimpleRect (setStencil gDrawToStencil drawState) rect) m0
          | ShapePath pr clipPath =>
              if pathIsEmpty clipPath then m0
              else if canRenderDirectToStencil
              then issue (drawPath pr (setStencil gDrawToStencil drawState)
                                   clipPath false) m0
              else issue (stencilPath pr drawState clipPath) m0
          end in
      let m2 := set_fClipMode kModifyClip_StencilClipMode m1 in
      let pass (mm : GrClipMaskManager) (settings : GrStencilSettings) :=
        let drawStateCopy := setStencil settings drawState in
        if canDrawDirectToClip then
          match shape with
          | ShapeRect rect => issue (drawSimpleRect drawStateCopy rect) mm
          | ShapePath pr clipPath => issue (drawPath pr drawStateCopy clipPath false) mm
          end
        else issue (drawSimpleRect drawStateCopy (SkRect.Make clipSpaceIBounds)) mm in
      (true, fold_left pass stencilSettings m2)
  end.

Fixpoint createStencilClipMask_loop (context : GrContext) (rt : GrRenderTarget)
         (clipBit : Z) (matrix : SkMatrix) (clipSpaceIBounds : SkIRect.t)
         (m : GrClipMaskManager) (els : list Element) : bool * GrClipMaskManager :=
  match els with
  | [] => (true, m)
  | element :: rest =>
      let '(ok, m1) :=
        createStencilClipMask_element context rt clipBit matrix clipSpaceIBounds
                                      m element in
      if ok
      then createStencilClipMask_loop context rt clipBit matrix clipSpaceIBounds m1 rest
      else (false, m1)
  end.

(** [createStencilClipMask] *)
Definition createStencilClipMask (context : GrContext) (m : GrClipMaskManager)
           (rt : GrRenderTarget) (elementsGenID : Z) (initialState : InitialState)
           (els : list Element) (clipSpaceIBounds : SkIRect.t)
           (clipSpaceToStencilOffset : SkIPoint.t) : bool * GrClipMaskManager :=
  match getStencilBuffer rt with
  | None => (false, m)
  | Some stencilBuffer =>
      let key := {| fLastClipStackGenID := elementsGenID;
                    fLastClipStackRect := clipSpaceIBounds;
                    fLastClipSpaceOffset := clipSpaceToStencilOffset |} in
      let '(ok, m3) :=
        if mustRenderClip m stencilBuffer key then
          let m1 := set_fLastClip (sbKey stencilBuffer) key m in
          let matrix :=
            MatrixTranslate (SkIntToScalar (SkIPoint.fX clipSpaceToStencilOffset))
                            (SkIntToScalar (SkIPoint.fY clipSpaceToStencilOffset)) in
          let stencilSpaceIBounds :=
            SkIRect.offset clipSpaceIBounds clipSpaceToStencilOffset in
          let clipBit := Z.shiftl 1 (bits stencilBuffer - 1) in
          let m2 := issue (clearStencilClip stencilSpaceIBounds
                                            (isAllIn initialState) rt) m1 in
          createStencilClipMask_loop context rt clipBit matrix clipSpaceIBounds m2 els
        else (true, m) in
      if ok
      then (true, set_fClipMode kRespectClip_StencilClipMode
                    (set_fCurrClipMaskType kStencil_ClipMaskType m3))
      else (false, m3)
  end.

(** The stencil bit count [setDrawStateStencil] reads off the draw state's
    target. *)
Definition targetStencilBits (ds : GrDrawState) : Z :=
  match fRenderTarget ds with
  | Some rt => match getStencilBuffer rt with
               | Some stencilBuffer => bits stencilBuffer
               | None => 0
               end
  | None => 0
  end.

(** [setDrawStateStencil] *)
Definition setDrawStateStencil (context : GrContext) (m : GrClipMaskManager)
           (drawState : GrDrawState) (ars : AutoRestoreStencil)
  : GrDrawState * AutoRestoreStencil :=
  let chosen :=
    if isDisabled (fStencilSettings drawState)
    then (if isRespectClip (fClipMode m)
          then Some basic_apply_stencil_clip_settings
          else None)
    else Some (fStencilSettings drawState) in
  match chosen with
  | None => (drawState, ars)
  | Some settings =>
      let settings1 :=
        adjustStencilParams (twoSidedStencilSupport context) settings (fClipMode m)
                            (targetStencilBits drawState) in
      let '(ars1, ds1) := AutoRestoreStencil_set ars drawState in
      (setStencil settings1 ds1, ars1)
  end.

(** What a call of [setupClipping] leaves behind: its result, the manager,
    and the four objects it mutates through its pointer arguments. *)
Record Outcome := {
  result : bool;
  manager : GrClipMaskManager;
  outDrawState : GrDrawState;
  outAre : AutoRestoreEffects;
  outArs : AutoRestoreStencil;
  outScissorState : ScissorState }.

(** The common tail [this->setDrawStateStencil(drawState, ars); return true;] *)
Definition returnTrue (context : GrContext) (m : GrClipMaskManager)
           (drawState : GrDrawState) (are : AutoRestoreEffects)
           (ars : AutoRestoreStencil) (scissorState : ScissorState) : Outcome :=
  let '(ds1, ars1) := setDrawStateStencil context m drawState ars in
  {| result := true; manager := m; outDrawState := ds1; outAre := are;
     outArs := ars1; outScissorState := scissorState |}.

(** The two statements that open [setupClipping]. *)
Definition setupClipping_enter (m : GrClipMaskManager) : GrClipMaskManager :=
  let m1 := set_fCurrClipMaskType kNone_ClipMaskType m in
  if isRespectClip (fClipMode m1)
  then set_fClipMode kIgnoreClip_StencilClipMode m1
  else m1.

(** Is the pointer result not NULL? *)
Definition notNull {A : Type} (o : option A) : bool :=
  match o with Some _ => true | None => false end.

(** The stencil representation: the end of [setupClipping]. *)
Definition setupClipping_stencil (context : GrContext) (m : GrClipMaskManager)
           (rt : GrRenderTarget) (drawState : GrDrawState) (are : AutoRestoreEffects)
           (ars : AutoRestoreStencil) (clipDataIn : GrClipData) (red : ReducedClip)
  : Outcome :=
  let m1 := fAACache_reset m in
  let clipSpaceToStencilSpaceOffset := SkIPoint.neg (fOrigin clipDataIn) in
  (* the result of createStencilClipMask is not looked at *)
  let '(ok, m2) :=
    createStencilClipMask context m1 rt (genID red) (initialState red) (elements red)
                          (clipSpaceIBounds red) clipSpaceToStencilSpaceOffset in
  let m3 := ran R_createStencilClipMask ok m2 in
  let scissorSpaceIBounds :=
    SkIRect.offset (clipSpaceIBounds red) clipSpaceToStencilSpaceOffset in
  returnTrue context m3 drawState are ars (ScissorState_set scissorSpaceIBounds).

(** The alpha-mask representation ([#if GR_AA_CLIP] block), falling through
    to the stencil representation. *)
Definition setupClipping_alpha (context : GrContext) (m : GrClipMaskManager)
           (rt : GrRenderTarget) (drawState : GrDrawState) (are : AutoRestoreEffects)
           (ars : AutoRestoreStencil) (scissorState : ScissorState)
           (clipDataIn : GrClipData) (red : ReducedClip) : Outcome :=
  if (numSamples rt =? 0) && requiresAA red then
    let '(res, m1) :=
      if useSWOnlyPath context drawState (elements red)
      then
        let '(r, m') := createSoftwareClipMask context m (genID red) (initialState red)
                                               (elements red) (clipSpaceIBounds red) in
        (r, ran R_createSoftwareClipMask (notNull r) m')
      else
        let '(r, m') := createAlphaClipMask context m (genID red) (initialState red)
                                            (elements red) (clipSpaceIBounds red) in
        (r, ran R_createAlphaClipMask (notNull r) m') in
    match res with
    | Some tex =>
        let rtSpaceMaskBounds :=
          SkIRect.offset (clipSpaceIBounds red) (SkIPoint.neg (fOrigin clipDataIn)) in
        returnTrue context m1 (setup_drawstate_aaclip rtSpaceMaskBounds drawState tex)
                   are ars scissorState
    | None =>
        setupClipping_stencil context m1 rt drawState are ars clipDataIn red
    end
  else setupClipping_stencil context m rt drawState are ars clipDataIn red.

(** The part of [setupClipping] that follows the [ignoreClip] test: the
    coverage-processor fast path and then the masks. *)
Definition setupClipping_clip (context : GrContext) (m : GrClipMaskManager)
           (rt : GrRenderTarget) (drawState : GrDrawState) (are : AutoRestoreEffects)
           (ars : AutoRestoreStencil) (scissorState : ScissorState)
           (clipDataIn : GrClipData) (devBounds : option SkRect.t) (red : ReducedClip)
  : Outcome :=
  let els := elements red in
  let isEmpty := match els with [] => true | _ => false end in
  let clipToRTOffset :=
    {| vX := SkIntToScalar (- SkIPoint.fX (fOrigin clipDataIn));
       vY := SkIntToScalar (- SkIPoint.fY (fOrigin clipDataIn)) |} in
  (* [elements.isEmpty() || (requiresAA && installClipEffects(...))] *)
  let '(fast, m1, ds1, are1) :=
    if (Z.of_nat (length els) <=? 4) then
      if isEmpty then (true, m, drawState, are)
      else if requiresAA red then
        let '(ok, ds', are') :=
          installClipEffects context drawState are els clipToRTOffset devBounds in
        (ok, ran R_installClipEffects ok m, ds', are')
      else (false, m, drawState, are)
    else (false, m, drawState, are) in
  if fast then
    let scissorSpaceIBounds :=
      SkIRect.offset (clipSpaceIBounds red) (SkIPoint.neg (fOrigin clipDataIn)) in
    let scissor1 :=
      match devBounds with
      | None => ScissorState_set scissorSpaceIBounds
      | Some b =>
          if negb (SkRect.contains (SkRect.Make scissorSpaceIBounds) b)
          then ScissorState_set scissorSpaceIBounds
          else scissorState
      end in
    returnTrue context m1 ds1 are1 ars scissor1
  else
    setupClipping_alpha context m1 rt ds1 are1 ars scissorState clipDataIn red.

(** [GrClipMaskManager::setupClipping].  The render target of the draw state
    is asserted to be there ([SkASSERT(rt)], "GrDrawTarget should have
    filtered this for us"); for a draw state without one the model answers
    [false]. *)
Definition setupClipping (context : GrContext) (m : GrClipMaskManager)
           (drawState : GrDrawState) (are : AutoRestoreEffects)
           (ars : AutoRestoreStencil) (scissorState : ScissorState)
           (clipDataIn : GrClipData) (devBounds : option SkRect.t) : Outcome :=
  let m0 := setupClipping_enter m in
  let fail := {| result := false; manager := m0; outDrawState := drawState;
                 outAre := are; outArs := ars; outScissorState := scissorState |} in
  match fRenderTarget drawState with
  | None => fail
  | Some rt =>
      if negb (kClip_StateBit drawState) || isWideOpen (fClipStack clipDataIn)
      then returnTrue context m0 drawState are ars scissorState
      else
        let clipSpaceRTIBounds :=
          SkIRect.offset (SkIRect.MakeWH (rtWidth rt) (rtHeight rt))
                         (fOrigin clipDataIn) in
        let red := ReduceClipStack (fClipStack clipDataIn) clipSpaceRTIBounds in
        match elements red with
        | [] =>
            if isAllIn (initialState red)
            then
              (* ignoreClip = clipSpaceIBounds == clipSpaceRTIBounds *)
              if SkIRect.eqb (clipSpaceIBounds red) clipSpaceRTIBounds
              then returnTrue context m0 drawState are ars scissorState
              else setupClipping_clip context m0 rt drawState are ars scissorState
                                      clipDataIn devBounds red
            else fail
        | _ :: _ =>
            setupClipping_clip context m0 rt drawState are ars scissorState
                               clipDataIn devBounds red
        end
  end.

(** [adjustPathStencilParams] *)
Definition adjustPathStencilParams (context : GrContext) (m : GrClipMaskManager)
           (stencilBuffer : option GrStencilBuffer) (settings : GrStencilSettings)
  : GrStencilSettings :=
  match stencilBuffer with
  | Some sb => adjustStencilParams (twoSidedStencilSupport context) settings
                                   (fClipMode m) (bits sb)
  | None => settings
  end.

(** The trace of routines run by a call: what [fRan] gained. *)
Definition ranSince (before after : GrClipMaskManager) : list (Routine * bool) :=
  skipn (length (fRan before)) (fRan after).

(** The commands issued by a call: what [fCommands] gained. *)
Definition issuedSince (before after : GrClipMaskManager) : list Command :=
  skipn (length (fCommands before)) (fCommands after).

(** Either mask builder of the alpha-mask representation, chosen as
    [setupClipping] chooses it: the software one when [software]. *)
Definition createClipMask (software : bool) (context : GrContext)
           (m : GrClipMaskManager) (elementsGenID : Z) (initialState : InitialState)
           (els : list Element) (clipSpaceIBounds : SkIRect.t)
  : option GrTexture * GrClipMaskManager :=
  if software
  then createSoftwareClipMask context m elementsGenID initialState els clipSpaceIBounds
  else createAlphaClipMask context m elementsGenID initialState els clipSpaceIBounds.

(** The blend coefficients of a draw state. *)
Definition blendFunc (ds : GrDrawState) : GrBlendCoeff * GrBlendCoeff :=
  (fSrcBlend ds, fDstBlend ds).

(** The draw state a command draws with, if it is a draw. *)
Definition commandDrawState (c : Command) : option GrDrawState :=
  match c with
  | drawSimpleRect ds _ | fillAARect ds _ | drawPath _ ds _ _ | stencilPath _ ds _ =>
      Some ds
  | _ => None
  end.

(** The table of blend coefficients as the specification words it, with the
    alpha coefficients: replace (one, zero); intersect (dst-alpha, zero);
    union (one, inverse-src-alpha); xor (inverse-dst-alpha,
    inverse-src-alpha); difference (zero, inverse-src-alpha);
    reverse-difference (inverse-dst-alpha, zero). *)
Definition spec_blendcoeffs (op : Op) : GrBlendCoeff * GrBlendCoeff :=
  match op with
  | kReplace_Op => (kOne_GrBlendCoeff, kZero_GrBlendCoeff)
  | kIntersect_Op => (kDA_GrBlendCoeff, kZero_GrBlendCoeff)
  | kUnion_Op => (kOne_GrBlendCoeff, kISA_GrBlendCoeff)
  | kXOR_Op => (kIDA_GrBlendCoeff, kISA_GrBlendCoeff)
  | kDifference_Op => (kZero_GrBlendCoeff, kISA_GrBlendCoeff)
  | kReverseDifference_Op => (kIDA_GrBlendCoeff, kZero_GrBlendCoeff)
  end.

(** The operators [installClipEffects] turns into coverage processors. *)
Definition opHasClipEffect (op : Op) : bool :=
  match op with
  | kReplace_Op | kIntersect_Op | kDifference_Op => true
  | _ => false
  end.

(** The edge type [installClipEffects] asks for: inverse for a difference. *)
Definition clipEffectEdgeType (element : Element) : GrPrimitiveEdgeType :=
  clipEdgeType (isAA element) (Op_eqb kDifference_Op (getOp element)).

(* ================================================================== *)
(** ** Sample inputs *)

Module Samples.

Definition stencilBuffer8 : GrStencilBuffer := {| sbKey := 1; bits := 8 |}.

(** A 200x200 target, not multisampled, with an 8-bit stencil buffer. *)
Definition rt : GrRenderTarget :=
  {| rtKey := 1; rtWidth := 200; rtHeight := 200; numSamples := 0;
     getStencilBuffer := Some stencilBuffer8 |}.

Definition maskTexture (n : nat) (desc : GrSurfaceDesc) : GrTexture :=
  {| texKey := 10 + n; texWidth := fWidth desc; texHeight := fHeight desc;
     asRenderTarget := {| rtKey := 10 + n; rtWidth := fWidth desc;
                          rtHeight := fHeight desc; numSamples := 0;
                          getStencilBuffer := None |} |}.

Definition onePass : GrStencilSettings :=
  SAME_STENCIL kReplace_StencilOp kReplace_StencilOp kAlways_StencilFunc
               65535 128 128.

(** A context with no path renderer at all; textures and clip processors
    are always available. *)
Definition noRenderer : GrContext :=
  {| getPathRenderer := fun _ _ _ => None;
     refScratchTexture := fun n desc => Some (maskTexture n desc);
     isConfigRenderable_Alpha_8 := true;
     twoSidedStencilSupport := true;
     GetClipPasses := fun _ _ _ _ => (true, [onePass]);
     GrConvexPolyEffect_Create_path :=
       fun e p _ => Some (GrConvexPolyEffect e (pathKey p));
     GrConvexPolyEffect_Create_rect := fun e _ => Some (GrConvexPolyEffect e 0);
     GrRRectEffect_Create := fun e rr => Some (GrRRectEffect e (rrKey rr)) |}.

(** A context in which every lookup and allocation succeeds. *)
Definition allRenderers : GrContext :=
  {| getPathRenderer :=
       fun _ _ _ => Some ({| prKey := 1 |}, kNoRestriction_StencilSupport);
     refScratchTexture := fun n desc => Some (maskTexture n desc);
     isConfigRenderable_Alpha_8 := true;
     twoSidedStencilSupport := true;
     GetClipPasses := fun _ _ _ _ => (true, [onePass]);
     GrConvexPolyEffect_Create_path :=
       fun e p _ => Some (GrConvexPolyEffect e (pathKey p));
     GrConvexPolyEffect_Create_rect := fun e _ => Some (GrConvexPolyEffect e 0);
     GrRRectEffect_Create := fun e rr => Some (GrRRectEffect e (rrKey rr)) |}.

(** As [allRenderers], but no scratch texture can be allocated. *)
Definition noTextures : GrContext :=
  {| getPathRenderer :=
       fun _ _ _ => Some ({| prKey := 1 |}, kNoRestriction_StencilSupport);
     refScratchTexture := fun _ _ => None;
     isConfigRenderable_Alpha_8 := true;
     twoSidedStencilSupport := true;
     GetClipPasses := fun _ _ _ _ => (true, [onePass]);
     GrConvexPolyEffect_Create_path :=
       fun e p _ => Some (GrConvexPolyEffect e (pathKey p));
     GrConvexPolyEffect_Create_rect := fun e _ => Some (GrConvexPolyEffect e 0);
     GrRRectEffect_Create := fun e rr => Some (GrRRectEffect e (rrKey rr)) |}.

(** A manager that has not yet set up any clip. *)
Definition manager0 : GrClipMaskManager :=
  {| fCurrClipMaskType := kNone_ClipMaskType;
     fClipMode := kIgnoreClip_StencilClipMode;
     fAACache := None;
     fLastClip := fun _ => None;
     fScratchRequests := 0;
     fCommands := [];
     fRan := [] |}.

(** A draw state on [rt] with clipping enabled and one coverage processor
    of its own. *)
Definition drawState : GrDrawState :=
  addCoverageProcessor (GrConvexPolyEffect kFillBW_GrProcessorEdgeType 99)
    (enableCoverageDrawingAndClip (setRenderTarget rt (GrDrawState_new MatrixI))).

Definition scissor0 : ScissorState :=
  {| fEnabled := false; fRect := SkIRect.MakeWH 0 0 |}.

Definition rect50 : SkRect.t := SkRect.Make (SkIRect.MakeLTRB 10 10 60 60).

Definition path7 : SkPath :=
  {| pathKey := 7; isInverseFillType := false; pathIsEmpty := false |}.

(** A path element with the given operator and antialiasing. *)
Definition pathElement (op : Op) (aa : bool) : Element :=
  {| getType := kPath_Type; getOp := op; isAA := aa; isInverseFilled := false;
     getRect := rect50; getRRect := {| rrKey := 0; rrRect := rect50 |};
     getPath := path7; asPath := path7; getBounds := rect50;
     contains := fun _ => false |}.

(** A rectangle element with the given operator and antialiasing. *)
Definition rectElement (op : Op) (aa : bool) : Element :=
  {| getType := kRect_Type; getOp := op; isAA := aa; isInverseFilled := false;
     getRect := rect50; getRRect := {| rrKey := 0; rrRect := rect50 |};
     getPath := path7;
     asPath := {| pathKey := 8; isInverseFillType := false; pathIsEmpty := false |};
     getBounds := rect50;
     contains := fun _ => false |}.

Definition bounds50 : SkIRect.t := SkIRect.MakeLTRB 10 10 60 60.

(** A clip stack that is not wide open and reduces to the given elements,
    initial state, bounds and AA requirement. *)
Definition stack (els : list Element) (st : InitialState) (b : SkIRect.t)
           (aa : bool) : GrClipData :=
  {| fClipStack :=
       {| isWideOpen := false;
          ReduceClipStack := fun _ =>
            {| elements := els; genID := 5; initialState := st;
               clipSpaceIBounds := b; requiresAA := aa |} |};
     fOrigin := SkIPoint.Make 0 0 |}.

(** Stencil settings that test [kNonZeroIfInClip] against the reference 1. *)
Definition nonZeroRefOne : GrStencilSettings :=
  SAME_STENCIL kKeep_StencilOp kKeep_StencilOp kNonZeroIfInClip_StencilFunc
               65535 1 65535.

End Samples.

(* ================================================================== *)
(** ** Vocabulary of the statements *)

(** Was the element left out by [installClipEffects] because it already
    contains the draw bounds? *)
Definition skipped (boundsInClipSpace : option SkRect.t) (element : Element) : bool :=
  match getOp element, boundsInClipSpace with
  | (kReplace_Op | kIntersect_Op), Some b => contains element b
  | _, _ => false
  end.

(** The three ways in which an element makes [installClipEffects] fail: an
    operator that has no coverage processor, coverage antialiasing on a
    multisampled target, or a shape for which no processor can be made. *)
Definition yieldsNoProcessor (context : GrContext) (clipToRTOffset : SkVector)
           (multisampled : bool) (boundsInClipSpace : option SkRect.t)
           (element : Element) : bool :=
  negb (opHasClipEffect (getOp element)) ||
  negb (skipped boundsInClipSpace element) &&
  ((isAA element && multisampled) ||
   negb (notNull (createClipProcessor context (clipEffectEdgeType element)
                                      clipToRTOffset element))).

(** The draw bounds in clip space, as [installClipEffects] computes them. *)
Definition boundsInClipSpace (clipToRTOffset : SkVector) (drawBounds : option SkRect.t)
  : option SkRect.t :=
  option_map (fun b => SkRect.offset b (- vX clipToRTOffset)%Q (- vY clipToRTOffset)%Q)
             drawBounds.

(** The render-target bounds in clip space: the local [clipSpaceRTIBounds]
    of [setupClipping]. *)
Definition clipSpaceRTIBounds (rt : GrRenderTarget) (clipDataIn : GrClipData) : SkIRect.t :=
  SkIRect.offset (SkIRect.MakeWH (rtWidth rt) (rtHeight rt)) (fOrigin clipDataIn).

(** The reduction [setupClipping] asks for: the clip stack against the
    render-target bounds in clip space. *)
Definition reducedClip (rt : GrRenderTarget) (clipDataIn : GrClipData) : ReducedClip :=
  ReduceClipStack (fClipStack clipDataIn)
    (SkIRect.offset (SkIRect.MakeWH (rtWidth rt) (rtHeight rt)) (fOrigin clipDataIn)).

(** The local [clipToRTOffset] of [setupClipping]. *)
Definition clipToRTOffset (clipDataIn : GrClipData) : SkVector :=
  {| vX := SkIntToScalar (- SkIPoint.fX (fOrigin clipDataIn));
     vY := SkIntToScalar (- SkIPoint.fY (fOrigin clipDataIn)) |}.

(** Does [setupClipping] call [installClipEffects] for this reduced clip? *)
Definition attemptsClipEffects (red : ReducedClip) : bool :=
  (Z.of_nat (length (elements red)) <=? 4) &&
  negb (match elements red with [] => true | _ => false end) &&
  requiresAA red.

(** The cache entry for a mask. *)
Definition cached (clipGenID : Z) (bounds : SkIRect.t) (t : GrTexture) : GrClipMaskCache :=
  Some {| fLastClipGenID := clipGenID; fLastBound := bounds; fLastMask := t |}.

(** What holds of a command issued while [element] is composed into the
    alpha mask: if it is a draw, it either blends with the coefficients of
    the element's operator, or it is the draw of the shape into the scratch
    texture [temp'], which replaces. *)
Definition accumulatorBlend (element : Element) (temp' : option GrTexture)
           (c : Command) : Prop :=
  match commandDrawState c with
  | None => True
  | Some ds =>
      blendFunc ds = blendFunc (setup_boolean_blendcoeffs (getOp element) ds) \/
      (exists t, temp' = Some t /\ fRenderTarget ds = Some (asRenderTarget t) /\
                 blendFunc ds = (kOne_GrBlendCoeff, kZero_GrBlendCoeff))
  end.

(** The traces the alpha-mask block of [setupClipping] can leave, [enabled]
    being its guard [0 == rt->numSamples() && requiresAA]: the stencil mask
    alone when the guard is off; otherwise one of the two alpha-mask
    builders, followed by the stencil mask when the builder returned NULL. *)
Definition alphaTrace (enabled : bool) (tr : list (Routine * bool)) : Prop :=
  (enabled = false /\ exists ok, tr = [(R_createStencilClipMask, ok)]) \/
  (enabled = true /\
   exists R, (R = R_createAlphaClipMask \/ R = R_createSoftwareClipMask) /\
             (tr = [(R, true)] \/
              exists ok, tr = [(R, false); (R_createStencilClipMask, ok)])).

(** Closes a goal [accumulatorBlend element _ (draw ...)] for a draw that
    blends with the coefficients of the element's operator. *)
Ltac blend_of_op element :=
  unfold accumulatorBlend; simpl; left; destruct (getOp element); reflexivity.

(** Is the command the rendering of the element's shape: by [drawElement]
    for the GPU builder, by the software helper for the software builder? *)
Definition rendersElement (software : bool) (element : Element) (c : Command) : Prop :=
  if software
  then c = helper_drawRect (getRect element) (getOp element) (isAA element) 255 \/
       c = helper_drawPath (asPath element) (getOp element) (isAA element) 255 \/
       c = helper_drawPath (toggleInverseFillType (asPath element)) kReplace_Op
                           (isAA element) 0
  else match c with
       | fillAARect _ r =>
           isRect (getType element) = true /\ isAA element = true /\ r = getRect element
       | drawSimpleRect _ r =>
           isRect (getType element) = true /\ isAA element = false /\ r = getRect element
       | drawPath _ _ path aa =>
           isRect (getType element) = false /\
           path = nonInverse (asPath element) /\ aa = isAA element
       | _ => False
       end.

(** The elements the GPU builder goes through without drawing their shape:
    an empty element, and a path that is drawn directly into the mask when
    no path renderer is found (the result of that draw is not looked at).
    The software builder draws every element. *)
Definition nothingToRender (software : bool) (context : GrContext) (element : Element)
  : Prop :=
  software = false /\
  (getType element = kEmpty_Type \/
   (isRect (getType element) = false /\ modifiesOutside element = false /\
    exists ds, getPathRenderer context ds (nonInverse (asPath element))
                               (colorDrawType (isAA element)) = None)).

(** The element was gone through by a builder that issued [issued]. *)
Definition regenerated (software : bool) (context : GrContext) (issued : list Command)
           (element : Element) : Prop :=
  (exists c, In c issued /\ rendersElement software element c) \/
  nothingToRender software context element.

(** The command that brings a new mask to the clip's initial state. *)
Definition initialClear (software : bool) (st : InitialState) (b : SkIRect.t)
           (mask : GrTexture) : Command :=
  if software
  then helper_clear (if isAllIn st then 255 else 0)
  else clear (SkIRect.MakeWH (SkIRect.width b) (SkIRect.height b))
             (if isAllIn st then 4294967295 else 0) (asRenderTarget mask).

(** A command through which [drawElement] drew: a rectangle, or a path for
    which the context had a path renderer. *)
Definition drawnShape (context : GrContext) (c : Command) : Prop :=
  match c with
  | fillAARect _ _ | drawSimpleRect _ _ => True
  | drawPath _ ds path aa => getPathRenderer context ds path (colorDrawType aa) <> None
  | _ => False
  end.


(* ================================================================== *)
(** ** Vocabulary of the further properties *)

(** Is the function one of the basic ones, which need no clip to be
    resolved ([func < kBasicStencilFuncCount])? *)
Definition isBasicFunc (f : GrStencilFunc) : bool :=
  (funcValue f <? kBasicStencilFuncCount)%nat.

(** What one face comes out as in Respect mode. *)
Definition respectFace (clipBit userBits : Z) (s : FaceSettings) : FaceSettings :=
  {| passOp := passOp s; failOp := failOp s;
     func := match func s with
             | kAlwaysIfInClip_StencilFunc => kEqual_StencilFunc
             | kEqualIfInClip_StencilFunc => kEqual_StencilFunc
             | kLessIfInClip_StencilFunc => kLess_StencilFunc
             | kLEqualIfInClip_StencilFunc => kLEqual_StencilFunc
             | kNonZeroIfInClip_StencilFunc => kLess_StencilFunc
             | basic => basic
             end;
     funcMask := match func s with
                 | kAlwaysIfInClip_StencilFunc => clipBit
                 | kEqualIfInClip_StencilFunc | kLessIfInClip_StencilFunc
                 | kLEqualIfInClip_StencilFunc | kNonZeroIfInClip_StencilFunc =>
                     Z.land (funcMask s) userBits + clipBit
                 | _ => Z.land (funcMask s) userBits
                 end;
     funcRef := match func s with
                | kAlwaysIfInClip_StencilFunc | kNonZeroIfInClip_StencilFunc => clipBit
                | kEqualIfInClip_StencilFunc | kLessIfInClip_StencilFunc
                | kLEqualIfInClip_StencilFunc =>
                    Z.land (funcRef s) userBits + clipBit
                | _ => Z.land (funcRef s) userBits
                end;
     writeMask := Z.land (writeMask s) userBits |}.

(** What one face comes out as in Ignore mode. *)
Definition ignoreFace (userBits : Z) (s : FaceSettings) : FaceSettings :=
  {| passOp := passOp s; failOp := failOp s;
     func := match func s with
             | kAlwaysIfInClip_StencilFunc => kAlways_StencilFunc
             | kEqualIfInClip_StencilFunc => kEqual_StencilFunc
             | kLessIfInClip_StencilFunc => kLess_StencilFunc
             | kLEqualIfInClip_StencilFunc => kLEqual_StencilFunc
             | kNonZeroIfInClip_StencilFunc => kNotEqual_StencilFunc
             | basic => basic
             end;
     funcMask := Z.land (funcMask s) userBits;
     funcRef := Z.land (funcRef s) userBits;
     writeMask := Z.land (writeMask s) userBits |}.

(** The fields of the manager that only [setupClipping] and
    [createStencilClipMask] assign. *)
Definition sameClipState (m m' : GrClipMaskManager) : Prop :=
  fCurrClipMaskType m' = fCurrClipMaskType m /\
  fClipMode m' = fClipMode m /\
  fLastClip m' = fLastClip m.

(** Case analysis on every scrutinee of the goal. *)
Ltac break_match :=
  repeat match goal with
         | |- context [match ?x with _ => _ end] => destruct x eqn:?
         end.

(** A command that, if it draws, draws into [rt] with colour writes off and
    the clip state bit on. *)
Definition stencilOnlyDraw (rt : GrRenderTarget) (c : Command) : Prop :=
  match commandDrawState c with
  | None => True
  | Some ds => kNoColorWrites_StateBit ds = true /\ kClip_StateBit ds = true /\
               fRenderTarget ds = Some rt
  end.

(** Is some element that is not a rectangle without a stencil-only path
    renderer?  The draw state is the one the stencil loop looks up with. *)
Definition lacksStencilRenderer (context : GrContext) (rt : GrRenderTarget)
           (matrix : SkMatrix) (element : Element) : bool :=
  negb (isRect (getType element)) &&
  negb (notNull
          (getPathRenderer context
             (let ds := enableClipAndNoColorWrites
                          (setRenderTarget rt (GrDrawState_new matrix)) in
              if isMultisampled rt then setHWAntialias (isAA element) ds else ds)
             (nonInverse (asPath element)) kStencilOnly_DrawType)).

(** The view matrix [createStencilClipMask] draws with: the translation
    from clip space to the stencil buffer. *)
Definition stencilMatrix (clipSpaceToStencilOffset : SkIPoint.t) : SkMatrix :=
  MatrixTranslate (SkIntToScalar (SkIPoint.fX clipSpaceToStencilOffset))
                  (SkIntToScalar (SkIPoint.fY clipSpaceToStencilOffset)).

(** The reduced bounds moved from clip space to render-target space. *)
Definition scissorSpaceIBounds (clipDataIn : GrClipData) (red : ReducedClip) : SkIRect.t :=
  SkIRect.offset (clipSpaceIBounds red) (SkIPoint.neg (fOrigin clipDataIn)).

(** The exit through the stencil representation. *)
Definition stencilExit (ds : GrDrawState) (clipDataIn : GrClipData) (red : ReducedClip)
           (ok : bool) (o : Outcome) : Prop :=
  result o = true /\
  outScissorState o = ScissorState_set (scissorSpaceIBounds clipDataIn red) /\
  fAACache (manager o) = None /\
  fCurrClipMaskType (manager o)
  = (if ok then kStencil_ClipMaskType else kNone_ClipMaskType) /\
  (if ok then fClipMode (manager o) = kRespectClip_StencilClipMode else True) /\
  fCoverageStages (outDrawState o) = fCoverageStages ds /\
  fColorStages (outDrawState o) = fColorStages ds.

(** The exit through an alpha mask [tex]. *)
Definition alphaExit (ds : GrDrawState) (sc : ScissorState) (red : ReducedClip)
           (tex : GrTexture) (o : Outcome) : Prop :=
  result o = true /\
  outScissorState o = sc /\
  fAACache (manager o) = cached (genID red) (clipSpaceIBounds red) tex /\
  (exists mat,
     fCoverageStages (outDrawState o)
     = fCoverageStages ds
       ++ [GrTextureDomainEffect tex mat
             (SkIRect.MakeWH (SkIRect.width (clipSpaceIBounds red))
                             (SkIRect.height (clipSpaceIBounds red))) true]) /\
  fColorStages (outDrawState o) = fColorStages ds.

(** The exit through the coverage processors alone. *)
Definition fastExit (m : GrClipMaskManager) (sc : ScissorState)
           (clipDataIn : GrClipData) (devBounds : option SkRect.t) (red : ReducedClip)
           (o : Outcome) : Prop :=
  result o = true /\
  fCommands (manager o) = fCommands m /\
  fAACache (manager o) = fAACache m /\
  fCurrClipMaskType (manager o) = fCurrClipMaskType m /\
  outScissorState o
  = match devBounds with
    | None => ScissorState_set (scissorSpaceIBounds clipDataIn red)
    | Some b =>
        if SkRect.contains (SkRect.Make (scissorSpaceIBounds clipDataIn red)) b
        then sc
        else ScissorState_set (scissorSpaceIBounds clipDataIn red)
    end.


(* ================================================================== *)
(** ** Machine arithmetic *)

(** The value an integer wraps to in [int32_t]. *)
Definition to_i32 (x : Z) : Z := (x + 2 ^ 31) mod 2 ^ 32 - 2 ^ 31.

(** Is the integer an [int32_t]? *)
Definition fitsInt32 (x : Z) : bool := (- 2 ^ 31 <=? x) && (x <? 2 ^ 31).

(** Are the four edges of the rectangle [int32_t]s? *)
Definition isInt32Rect (r : SkIRect.t) : bool :=
  fitsInt32 (SkIRect.fLeft r) && fitsInt32 (SkIRect.fTop r) &&
  fitsInt32 (SkIRect.fRight r) && fitsInt32 (SkIRect.fBottom r).

(** [SkIRect::width] and [SkIRect::height] as the [int32_t] differences
    they are. *)
Definition SkIRect_width32 (r : SkIRect.t) : Z :=
  to_i32 (SkIRect.fRight r - SkIRect.fLeft r).

Definition SkIRect_height32 (r : SkIRect.t) : Z :=
  to_i32 (SkIRect.fBottom r - SkIRect.fTop r).

(** [2 ^ e] as a scalar, for an exponent of either sign. *)
Definition pow2 (e : Z) : Q := (2 ^ e)%Q.

(** The binary exponent of a positive scalar [x]: the [e] with
    [2 ^ e <= x < 2 ^ (e + 1)]. *)
Definition binaryExponent (x : Q) : Z :=
  let e := Z.log2 (Qnum x) - Z.log2 (Z.pos (Qden x)) in
  if Qle_bool (pow2 e) x then e else e - 1.

(** Rounding to the nearest integer, ties to the even one. *)
Definition roundHalfEven (s : Q) : Z :=
  let f := Qfloor s in
  match (s - inject_Z f ?= 1 # 2)%Q with
  | Lt => f
  | Gt => f + 1
  | Eq => if Z.even f then f else f + 1
  end.

Definition roundPositive (x : Q) : Q :=
  let e := binaryExponent x in
  (inject_Z (roundHalfEven (x * pow2 (23 - e))) * pow2 (e - 23))%Q.

(** The [float] nearest to a scalar: IEEE-754 binary32 with 24 significant
    bits, rounding to nearest, ties to even.  The exponent is not bounded:
    the value is the one of binary32 for magnitudes from [2 ^ -126] up to
    [2 ^ 128], which covers every quotient of two [int]s. *)
Definition float32 (x : Q) : Q :=
  match Qnum x with
  | Z0 => 0%Q
  | Zpos _ => roundPositive x
  | Zneg _ => (- roundPositive (- x))%Q
  end.

(* ================================================================== *)
(** ** SkPictureImageFilter *)

Module PictureFilter.

Record SkPicture := { pictureKey : nat; cullRect : SkRect.t }.

Inductive PictureResolution :=
| kDeviceSpace_PictureResolution
| kLocalSpace_PictureResolution.

(** The integer an enumerator is written as. *)
Definition resolutionValue (r : PictureResolution) : Z :=
  match r with
  | kDeviceSpace_PictureResolution => 0
  | kLocalSpace_PictureResolution => 1
  end.

Record SkPictureImageFilter := {
  fPicture : option SkPicture;
  fCropRect : SkRect.t;
  fPictureResolution : PictureResolution;
  fUniqueID : Z }.

Definition SkRect_MakeEmpty : SkRect.t := SkRect.MakeLTRB 0 0 0 0.

(** [SkPictureImageFilter(const SkPicture*, uint32_t uniqueID)] *)
Definition new_from_picture (picture : option SkPicture) (uniqueID : Z)
  : SkPictureImageFilter :=
  {| fPicture := picture;
     fCropRect := match picture with
                  | Some p => cullRect p
                  | None => SkRect_MakeEmpty
                  end;
     fPictureResolution := kDeviceSpace_PictureResolution;
     fUniqueID := uniqueID |}.

(** [SkPictureImageFilter(const SkPicture*, const SkRect&, uint32_t,
    PictureResolution)] *)
Definition new_with_crop (picture : option SkPicture) (cropRect : SkRect.t)
           (uniqueID : Z) (pictureResolution : PictureResolution)
  : SkPictureImageFilter :=
  {| fPicture := picture; fCropRect := cropRect;
     fPictureResolution := pictureResolution; fUniqueID := uniqueID |}.

(** The two factories of the class, declared in its header, which is not
    among the sources: each calls the four-argument constructor with unique
    id 0 and the resolution of its name. *)
Definition Create (picture : option SkPicture) (cropRect : SkRect.t) :=
  new_with_crop picture cropRect 0 kDeviceSpace_PictureResolution.

Definition CreateForLocalSpace (picture : option SkPicture) (cropRect : SkRect.t) :=
  new_with_crop picture cropRect 0 kLocalSpace_PictureResolution.

(** What a flattenable writes and reads: booleans, integers, rectangles and
    whole pictures.  [SkWriteBuffer] and [SkReadBuffer] are not among the
    sources; a buffer is the sequence of values written, read back in
    order, and a picture is read back as it was written. *)
Inductive Token :=
| TBool (b : bool)
| TInt (n : Z)
| TRect (r : SkRect.t)
| TPicture (p : SkPicture).

Record SkWriteBuffer := { wCrossProcess : bool; written : list Token }.

Definition write (t : Token) (b : SkWriteBuffer) : SkWriteBuffer :=
  {| wCrossProcess := wCrossProcess b; written := written b ++ [t] |}.

(** [SkPictureImageFilter::flatten] *)
Definition flatten (f : SkPictureImageFilter) (buffer : SkWriteBuffer) : SkWriteBuffer :=
  let b1 :=
    if negb (wCrossProcess buffer) then
      match fPicture f with
      | Some p => write (TPicture p) (write (TBool true) buffer)
      | None => write (TBool false) buffer
      end
    else write (TBool false) buffer in
  write (TInt (resolutionValue (fPictureResolution f))) (write (TRect (fCropRect f)) b1).

(** A read buffer: what is left to read, whether the data crosses a process
    boundary, whether its version predates the picture resolution, and
    whether validation has held so far. *)
Record SkReadBuffer := {
  rCrossProcess : bool;
  versionLT_PictureImageFilterResolution : bool;
  toRead : list Token;
  isValid : bool }.

Definition advance (rest : list Token) (b : SkReadBuffer) : SkReadBuffer :=
  {| rCrossProcess := rCrossProcess b;
     versionLT_PictureImageFilterResolution := versionLT_PictureImageFilterResolution b;
     toRead := rest; isValid := isValid b |}.

(** [buffer.validate(ok)] *)
Definition validate (ok : bool) (b : SkReadBuffer) : SkReadBuffer :=
  {| rCrossProcess := rCrossProcess b;
     versionLT_PictureImageFilterResolution := versionLT_PictureImageFilterResolution b;
     toRead := toRead b; isValid := isValid b && ok |}.

(** The reads; [None] when the next value is not of the kind asked for. *)
Definition readBool (b : SkReadBuffer) : option (bool * SkReadBuffer) :=
  match toRead b with
  | TBool v :: rest => Some (v, advance rest b)
  | _ => None
  end.

Definition readInt (b : SkReadBuffer) : option (Z * SkReadBuffer) :=
  match toRead b with
  | TInt v :: rest => Some (v, advance rest b)
  | _ => None
  end.

Definition readRect (b : SkReadBuffer) : option (SkRect.t * SkReadBuffer) :=
  match toRead b with
  | TRect v :: rest => Some (v, advance rest b)
  | _ => None
  end.

(** [SkPicture::CreateFromBuffer] *)
Definition CreateFromBuffer (b : SkReadBuffer) : option (SkPicture * SkReadBuffer) :=
  match toRead b with
  | TPicture v :: rest => Some (v, advance rest b)
  | _ => None
  end.

Definition bind {A B : Type} (x : option A) (f : A -> option B) : option B :=
  match x with Some a => f a | None => None end.

(** [SkPictureImageFilter::CreateProc]: the filter and the buffer as it is
    left. *)
Definition CreateProc (buffer : SkReadBuffer)
  : option (SkPictureImageFilter * SkReadBuffer) :=
  bind (if negb (rCrossProcess buffer) then
          bind (readBool buffer) (fun '(hasPicture, b1) =>
            if hasPicture
            then bind (CreateFromBuffer b1) (fun '(p, b2) => Some (Some p, b2))
            else Some (None, b1))
        else
          bind (readBool buffer) (fun '(v, b1) => Some (None, validate (negb v) b1)))
       (fun '(picture, b1) =>
  bind (readRect b1) (fun '(cropRect, b2) =>
  bind (if versionLT_PictureImageFilterResolution b2
        then Some (resolutionValue kDeviceSpace_PictureResolution, b2)
        else readInt b2) (fun '(pictureResolution, b3) =>
  if pictureResolution =? resolutionValue kLocalSpace_PictureResolution
  then Some (CreateForLocalSpace picture cropRect, b3)
  else Some (Create picture cropRect, b3)))).

(** A reader over what a writer wrote, at the current version. *)
Definition reader (w : SkWriteBuffer) : SkReadBuffer :=
  {| rCrossProcess := wCrossProcess w;
     versionLT_PictureImageFilterResolution := false;
     toRead := written w; isValid := true |}.


(** [SkIRect::isEmpty] and [SkIRect::intersect], declared in [SkRect.h],
    which is not among the sources: a rectangle is empty when it has no
    width or no height; [intersect] answers [false] and leaves the
    rectangle alone unless both rectangles are non-empty and overlap, and
    otherwise shrinks it to the overlap ([None] is the answer [false]). *)
Definition SkIRect_isEmpty (r : SkIRect.t) : bool :=
  (SkIRect.fRight r <=? SkIRect.fLeft r) || (SkIRect.fBottom r <=? SkIRect.fTop r).

Definition SkIRect_intersect (a r : SkIRect.t) : option SkIRect.t :=
  if (SkIRect.fLeft r <? SkIRect.fRight r) && (SkIRect.fTop r <? SkIRect.fBottom r) &&
     negb (SkIRect_isEmpty a) &&
     (SkIRect.fLeft a <? SkIRect.fRight r) && (SkIRect.fLeft r <? SkIRect.fRight a) &&
     (SkIRect.fTop a <? SkIRect.fBottom r) && (SkIRect.fTop r <? SkIRect.fBottom a)
  then Some (SkIRect.MakeLTRB (Z.max (SkIRect.fLeft a) (SkIRect.fLeft r))
                              (Z.max (SkIRect.fTop a) (SkIRect.fTop r))
                              (Z.min (SkIRect.fRight a) (SkIRect.fRight r))
                              (Z.min (SkIRect.fBottom a) (SkIRect.fBottom r)))
  else None.

(** [SkImageFilter::Context], as far as [onFilterImage] reads it. *)
Record Context := { ctm : SkMatrix; clipBounds : SkIRect.t }.

Record SkBaseDevice := { deviceKey : nat; deviceWidth : Z; deviceHeight : Z }.

(** The bitmap [device->accessBitmap(false)] gives. *)
Inductive SkBitmap :=
| emptyBitmap
| bitmapOf (device : SkBaseDevice).

(** What [onFilterImage] asks of its collaborators: the proxy's device
    factory, the mapping of a rectangle by a matrix, and whether a matrix is
    more than a translation ([getType() & ~kTranslate_Mask]). *)
Record Proxy := {
  createDevice : Z -> Z -> option SkBaseDevice;
  mapRect : SkMatrix -> SkRect.t -> SkRect.t;
  moreThanTranslate : SkMatrix -> bool }.

(** Which of the two drawing routines [onFilterImage] called. *)
Inductive DrawCall :=
| drawPictureAtLocalResolution (device : SkBaseDevice) (bounds : SkIRect.t)
| drawPictureAtDeviceResolution (device : SkBaseDevice) (bounds : SkIRect.t).

Record FilterResult := {
  returned : bool;
  outResult : SkBitmap;
  outOffset : SkIPoint.t;
  drawCall : option DrawCall }.

Definition isLocalSpace (r : PictureResolution) : bool :=
  match r with kLocalSpace_PictureResolution => true | _ => false end.

(** [SkPictureImageFilter::onFilterImage]; [result] and [offset] are the
    values behind the two out-pointers on entry.  The edges of a rectangle
    are integers: the model is the code's where the rounded-out rectangle
    and the clip bounds have [int32_t] edges. *)
Definition onFilterImage (f : SkPictureImageFilter) (proxy : Proxy) (ctx : Context)
           (result : SkBitmap) (offset : SkIPoint.t) : FilterResult :=
  match fPicture f with
  | None =>
      {| returned := true; outResult := result; outOffset := SkIPoint.Make 0 0;
         drawCall := None |}
  | Some _ =>
      let floatBounds := mapRect proxy (ctm ctx) (fCropRect f) in
      match SkIRect_intersect (SkRect.roundOut floatBounds) (clipBounds ctx) with
      | None =>
          {| returned := false; outResult := result; outOffset := offset;
             drawCall := None |}
      | Some bounds =>
          if SkIRect_isEmpty bounds
          then {| returned := true; outResult := result;
                  outOffset := SkIPoint.Make 0 0; drawCall := None |}
          else
            match createDevice proxy (SkIRect_width32 bounds) (SkIRect_height32 bounds) with
            | None =>
                {| returned := false; outResult := result; outOffset := offset;
                   drawCall := None |}
            | Some device =>
                {| returned := true; outResult := bitmapOf device;
                   outOffset := SkIPoint.Make (SkIRect.fLeft bounds) (SkIRect.fTop bounds);
                   drawCall :=
                     Some (if isLocalSpace (fPictureResolution f) &&
                              moreThanTranslate proxy (ctm ctx)
                           then drawPictureAtLocalResolution device bounds
                           else drawPictureAtDeviceResolution device bounds) |}
            end
      end
  end.

End PictureFilter.

(* ================================================================== *)
(** ** SKPBench and GrPaint *)

Module SKPBench.

(** [SkIRect::MakeXYWH] and [SkIRect::contains(x, y)] of [SkRect.h]. *)
Definition MakeXYWH (x y w h : Z) : SkIRect.t := SkIRect.MakeLTRB x y (x + w) (y + h).

Definition containsXY (r : SkIRect.t) (x y : Z) : bool :=
  (SkIRect.fLeft r <=? x) && (x <? SkIRect.fRight r) &&
  (SkIRect.fTop r <=? y) && (y <? SkIRect.fBottom r).

(** The canvas the bench draws to, as far as the bench reads it: the bounds
    [getClipDeviceBounds] writes and the matrix [getTotalMatrix] returns. *)
Record SkCanvas := { clipDeviceBounds : SkIRect.t; totalMatrix : SkMatrix }.

(** The calls made on the canvas of a tile's surface. *)
Inductive CanvasCall :=
| clipRect (r : SkRect.t)
| setMatrix (m : SkMatrix)
| scale (sx sy : Q).

(** A surface made by [canvas->newSurface(ii)], which is taken to succeed:
    its size and the calls made on its canvas, oldest first. *)
Record SkSurface := { surfaceWidth : Z; surfaceHeight : Z; canvasCalls : list CanvasCall }.

(** The fields of [SKPBench] the per-canvas hooks use; [reserved] is the
    [int] last passed to [setReserve] of both arrays. *)
Record t := {
  fScale : Q;
  fUseMultiPictureDraw : bool;
  fSurfaces : list SkSurface;
  fTileRects : list SkIRect.t;
  reserved : Z }.

(** [SkScalarCeilToInt(bounds.width() / SkIntToScalar(FLAGS_benchTile))]:
    both integers are converted to [float], the quotient is a [float], and
    its ceiling is taken.  (A tile size of zero, for which the code divides
    by zero, is outside the model.) *)
Definition xTiles (benchTile : Z) (bounds : SkIRect.t) : Z :=
  Qceiling (float32 (float32 (inject_Z (SkIRect_width32 bounds))
                     / float32 (SkIntToScalar benchTile))).

Definition yTiles (benchTile : Z) (bounds : SkIRect.t) : Z :=
  Qceiling (float32 (float32 (inject_Z (SkIRect_height32 bounds))
                     / float32 (SkIntToScalar benchTile))).

(** The body of the inner loop of [onPerCanvasPreDraw]. *)
Definition addTile (benchTile : Z) (canvas : SkCanvas) (bounds : SkIRect.t)
           (x y : Z) (b : t) : t :=
  let tileRect := MakeXYWH x y benchTile benchTile in
  let clip := SkRect.offset (SkRect.Make bounds)
                            (- SkIntToScalar (SkIRect.fLeft tileRect))
                            (- SkIntToScalar (SkIRect.fTop tileRect)) in
  {| fScale := fScale b;
     fUseMultiPictureDraw := fUseMultiPictureDraw b;
     fSurfaces := fSurfaces b ++
                  [{| surfaceWidth := benchTile; surfaceHeight := benchTile;
                      canvasCalls := [clipRect clip; setMatrix (totalMatrix canvas);
                                      scale (fScale b) (fScale b)] |}];
     fTileRects := fTileRects b ++ [tileRect];
     reserved := reserved b |}.

(** The inner loop, [for (int x = ...; x < bounds.fRight; x += FLAGS_benchTile)];
    [None] when the fuel runs out before the loop ends. *)
Fixpoint tileRow (fuel : nat) (benchTile : Z) (canvas : SkCanvas) (bounds : SkIRect.t)
         (y x : Z) (b : t) : option t :=
  match fuel with
  | O => None
  | S fuel' =>
      if x <? SkIRect.fRight bounds
      then tileRow fuel' benchTile canvas bounds y (x + benchTile)
                   (addTile benchTile canvas bounds x y b)
      else Some b
  end.

(** The outer loop, [for (int y = ...; y < bounds.fBottom; y += FLAGS_benchTile)]. *)
Fixpoint tileRows (fuel : nat) (benchTile : Z) (canvas : SkCanvas) (bounds : SkIRect.t)
         (y : Z) (b : t) : option t :=
  match fuel with
  | O => None
  | S fuel' =>
      if y <? SkIRect.fBottom bounds
      then match tileRow fuel benchTile canvas bounds y (SkIRect.fLeft bounds) b with
           | None => None
           | Some b' => tileRows fuel' benchTile canvas bounds (y + benchTile) b'
           end
      else Some b
  end.

(** [SKPBench::onPerCanvasPreDraw]; [int] coordinates are integers, the
    theorems bound them so that no addition overflows. *)
Definition onPerCanvasPreDraw (fuel : nat) (benchTile : Z) (canvas : SkCanvas) (b : t)
  : option t :=
  if negb (fUseMultiPictureDraw b) then Some b
  else
    let bounds := clipDeviceBounds canvas in
    let b1 := {| fScale := fScale b;
                 fUseMultiPictureDraw := fUseMultiPictureDraw b;
                 fSurfaces := fSurfaces b;
                 fTileRects := fTileRects b;
                 reserved := to_i32 (xTiles benchTile bounds * yTiles benchTile bounds) |} in
    tileRows fuel benchTile canvas bounds (SkIRect.fTop bounds) b1.

(** A [canvas->drawImage(image, left, top)] of the snapshot of a surface. *)
Record DrawImage := { image : SkSurface; imageLeft : Q; imageTop : Q }.

(** The loop of [onPerCanvasPostDraw]: [fSurfaces[i]] for every index of
    [fTileRects]; [None] when an index is out of range. *)
Fixpoint drawTiles (rects : list SkIRect.t) (i : nat) (surfaces : list SkSurface)
  : option (list DrawImage) :=
  match rects with
  | [] => Some []
  | r :: rest =>
      match nth_error surfaces i with
      | None => None
      | Some s =>
          match drawTiles rest (S i) surfaces with
          | None => None
          | Some draws =>
              Some ({| image := s;
                       imageLeft := SkIntToScalar (SkIRect.fLeft r);
                       imageTop := SkIntToScalar (SkIRect.fTop r) |} :: draws)
          end
      end
  end.

(** [SKPBench::onPerCanvasPostDraw]: the bench afterwards and the images
    drawn into the master canvas. *)
Definition onPerCanvasPostDraw (b : t) : option (t * list DrawImage) :=
  if negb (fUseMultiPictureDraw b) then Some (b, [])
  else
    match drawTiles (fTileRects b) 0 (fSurfaces b) with
    | None => None
    | Some draws =>
        Some ({| fScale := fScale b;
                 fUseMultiPictureDraw := fUseMultiPictureDraw b;
                 fSurfaces := [];
                 fTileRects := [];
                 reserved := reserved b |}, draws)
    end.

(** The number of tiles of the set that contain a pixel. *)
Definition tilesAt (tiles : list SkIRect.t) (x y : Z) : nat :=
  length (filter (fun r => containsXY r x y) tiles).

Definition INT_MAX : Z := 2147483647.

End SKPBench.

Module GrPaint.

(** What the paint asks of its collaborators: [SkMatrix::invert] ([None]
    when the matrix has no inverse) and [GrFragmentStage::localCoordChange]. *)
Record Ops (Stage : Type) := {
  invert : SkMatrix -> option SkMatrix;
  stage_localCoordChange : SkMatrix -> Stage -> Stage }.
Arguments invert {Stage}.
Arguments stage_localCoordChange {Stage}.

Record t (Stage : Type) := {
  fColorStages : list Stage;
  fCoverageStages : list Stage;
  fSrcBlendCoeff : GrBlendCoeff;
  fDstBlendCoeff : GrBlendCoeff;
  fAntiAlias : bool;
  fDither : bool;
  fColor : Z }.
Arguments fColorStages {Stage}.
Arguments fCoverageStages {Stage}.
Arguments fSrcBlendCoeff {Stage}.
Arguments fDstBlendCoeff {Stage}.
Arguments fAntiAlias {Stage}.
Arguments fDither {Stage}.
Arguments fColor {Stage}.

Definition numTotalStages {Stage} (p : t Stage) : nat :=
  (length (fColorStages p) + length (fCoverageStages p))%nat.

Definition setStages {Stage} (color coverage : list Stage) (p : t Stage) : t Stage :=
  {| fColorStages := color; fCoverageStages := coverage;
     fSrcBlendCoeff := fSrcBlendCoeff p; fDstBlendCoeff := fDstBlendCoeff p;
     fAntiAlias := fAntiAlias p; fDither := fDither p; fColor := fColor p |}.

(** [GrPaint::localCoordChange] *)
Definition localCoordChange {Stage} (ops : Ops Stage) (oldToNew : SkMatrix) (p : t Stage)
  : t Stage :=
  setStages (map (stage_localCoordChange ops oldToNew) (fColorStages p))
            (map (stage_localCoordChange ops oldToNew) (fCoverageStages p)) p.

(** The state of one loop of [localCoordChangeInverse]: whether the loop
    returned [false], the stages as they are now, [oldToNew] ([None] while
    [computed] is false) and the number of calls of [invert] so far. *)
Record LoopState (Stage : Type) := {
  failed : bool;
  stages : list Stage;
  oldToNew : option SkMatrix;
  inversions : nat }.
Arguments failed {Stage}.
Arguments stages {Stage}.
Arguments oldToNew {Stage}.
Arguments inversions {Stage}.

(** One of the two loops of [localCoordChangeInverse], over the stages
    [todo] that follow the stages [done] already visited. *)
Fixpoint inverseLoop {Stage} (ops : Ops Stage) (newToOld : SkMatrix)
         (done todo : list Stage) (m : option SkMatrix) (n : nat) : LoopState Stage :=
  match todo with
  | [] => {| failed := false; stages := done; oldToNew := m; inversions := n |}
  | s :: rest =>
      match m with
      | Some oldToNew =>
          inverseLoop ops newToOld (done ++ [stage_localCoordChange ops oldToNew s]) rest
                      (Some oldToNew) n
      | None =>
          match invert ops newToOld with
          | None => {| failed := true; stages := done ++ todo; oldToNew := None;
                       inversions := S n |}
          | Some oldToNew =>
              inverseLoop ops newToOld (done ++ [stage_localCoordChange ops oldToNew s])
                          rest (Some oldToNew) (S n)
          end
      end
  end.

(** [GrPaint::localCoordChangeInverse]: the result, the paint afterwards and
    the number of times the matrix was inverted. *)
Definition localCoordChangeInverse {Stage} (ops : Ops Stage) (newToOld : SkMatrix)
           (p : t Stage) : bool * t Stage * nat :=
  let color := inverseLoop ops newToOld [] (fColorStages p) None 0 in
  if failed color
  then (false, setStages (stages color) (fCoverageStages p) p, inversions color)
  else
    let coverage := inverseLoop ops newToOld [] (fCoverageStages p)
                                (oldToNew color) (inversions color) in
    (negb (failed coverage), setStages (stages color) (stages coverage) p,
     inversions coverage).

End GrPaint.

(* ================================================================== *)
(** ** Sample inputs for the picture filter, the bench and the paint *)

Module PictureSamples.

Definition picture : PictureFilter.SkPicture :=
  {| PictureFilter.pictureKey := 1; PictureFilter.cullRect := Samples.rect50 |}.

(** A filter over [picture], cropped to the picture's cull rectangle. *)
Definition filter : PictureFilter.SkPictureImageFilter :=
  PictureFilter.new_from_picture (Some picture) 7.

(** A buffer from another process that claims to hold a picture. *)
Definition crossProcessBuffer : PictureFilter.SkReadBuffer :=
  {| PictureFilter.rCrossProcess := true;
     PictureFilter.versionLT_PictureImageFilterResolution := false;
     PictureFilter.toRead := [PictureFilter.TBool true;
                              PictureFilter.TRect Samples.rect50;
                              PictureFilter.TInt 1];
     PictureFilter.isValid := true |}.

(** A buffer written before the picture resolution was. *)
Definition oldBuffer : PictureFilter.SkReadBuffer :=
  {| PictureFilter.rCrossProcess := false;
     PictureFilter.versionLT_PictureImageFilterResolution := true;
     PictureFilter.toRead := [PictureFilter.TBool true;
                              PictureFilter.TPicture picture;
                              PictureFilter.TRect Samples.rect50];
     PictureFilter.isValid := true |}.

(** A proxy that makes every device asked for, with a matrix that maps
    every rectangle to itself. *)
Definition proxy : PictureFilter.Proxy :=
  {| PictureFilter.createDevice := fun w h =>
       Some {| PictureFilter.deviceKey := 1; PictureFilter.deviceWidth := w;
               PictureFilter.deviceHeight := h |};
     PictureFilter.mapRect := fun _ r => r;
     PictureFilter.moreThanTranslate := fun _ => false |}.

Definition ctx : PictureFilter.Context :=
  {| PictureFilter.ctm := MatrixI;
     PictureFilter.clipBounds := SkIRect.MakeLTRB 0 0 40 40 |}.

End PictureSamples.

Module BenchSamples.

(** A canvas clipped to 5 by 3 pixels. *)
Definition canvas : SKPBench.SkCanvas :=
  {| SKPBench.clipDeviceBounds := SkIRect.MakeLTRB 0 0 5 3;
     SKPBench.totalMatrix := MatrixI |}.

(** A bench that draws through tiles and has laid out none yet. *)
Definition bench : SKPBench.t :=
  {| SKPBench.fScale := 1; SKPBench.fUseMultiPictureDraw := true;
     SKPBench.fSurfaces := []; SKPBench.fTileRects := []; SKPBench.reserved := 0 |}.

End BenchSamples.

Module PaintSamples.

(** Stages that count the coordinate changes they have seen; every matrix
    inverts to the identity. *)
Definition ops : GrPaint.Ops nat :=
  {| GrPaint.invert := fun _ => Some MatrixI;
     GrPaint.stage_localCoordChange := fun _ s => S s |}.

Definition paint : GrPaint.t nat :=
  {| GrPaint.fColorStages := [0%nat; 5%nat]; GrPaint.fCoverageStages := [2%nat];
     GrPaint.fSrcBlendCoeff := kOne_GrBlendCoeff;
     GrPaint.fDstBlendCoeff := kZero_GrBlendCoeff;
     GrPaint.fAntiAlias := false; GrPaint.fDither := false; GrPaint.fColor := 4294967295 |}.

End PaintSamples.

(* ================================================================== *)
(** ** Basic facts *)

Lemma skipn_length_app : forall (A : Type) (l x : list A),
  skipn (length l) (l ++ x) = x.
Proof. induction l as [|a l IH]; simpl; intros; auto. Qed.

Lemma SkIRect_eqb_refl : forall r, SkIRect.eqb r r = true.
Proof. intros r. unfold SkIRect.eqb. now rewrite !Z.eqb_refl. Qed.

Lemma SkIRect_eqb_eq : forall a b, SkIRect.eqb a b = true -> a = b.
Proof.
  intros [l t r b] [l' t' r' b']. unfold SkIRect.eqb. simpl.
  rewrite !andb_true_iff, !Z.eqb_eq. intros [[[-> ->] ->] ->]. reflexivity.
Qed.

(* ================================================================== *)
(** ** The stencil-settings resolver *)

Lemma clipBit_pow2 : forall stencilBitCnt,
  1 <= stencilBitCnt <= 16 ->
  to_u32 (Z.shiftl 1 (stencilBitCnt - 1)) = 2 ^ (stencilBitCnt - 1).
Proof.
  intros n Hn. unfold to_u32. rewrite Z.shiftl_1_l.
  apply Z.mod_small. split; [apply Z.pow_nonneg; lia|].
  apply Z.pow_lt_mono_r; lia.
Qed.

Lemma userBits_ones : forall stencilBitCnt,
  1 <= stencilBitCnt <= 16 ->
  to_u32 (to_u32 (Z.shiftl 1 (stencilBitCnt - 1)) - 1) = Z.ones (stencilBitCnt - 1).
Proof.
  intros n Hn. rewrite clipBit_pow2 by assumption.
  rewrite Z.ones_equiv. unfold to_u32, Z.pred.
  apply Z.mod_small.
  assert (0 < 2 ^ (n - 1)) by (apply Z.pow_pos_nonneg; lia).
  assert (2 ^ (n - 1) < 2 ^ 32) by (apply Z.pow_lt_mono_r; lia).
  lia.
Qed.

Lemma land_ones_u16 : forall x n,
  0 <= n <= 15 -> to_u16 (Z.land x (Z.ones n)) = Z.land x (Z.ones n).
Proof.
  intros x n Hn. unfold to_u16. rewrite Z.land_ones by lia.
  apply Z.mod_small.
  assert (0 <= x mod 2 ^ n < 2 ^ n) by (apply Z.mod_pos_bound, Z.pow_pos_nonneg; lia).
  assert (2 ^ n < 2 ^ 16) by (apply Z.pow_lt_mono_r; lia).
  lia.
Qed.

(** What Ignore mode does to the front face for every input: the
    clip-relative functions become their basic counterparts and the write
    mask, the function mask and the function reference are each cut down to
    the user bits.  Nothing more happens to the reference. *)
Lemma adjustStencilParams_ignore_front :
  forall twoSided settings stencilBitCnt,
    1 <= stencilBitCnt <= 16 ->
    let userBits := Z.ones (stencilBitCnt - 1) in
    let s := front settings in
    let s' := front (adjustStencilParams twoSided settings
                                         kIgnoreClip_StencilClipMode stencilBitCnt) in
    func s' = match func s with
              | kAlwaysIfInClip_StencilFunc => kAlways_StencilFunc
              | kEqualIfInClip_StencilFunc => kEqual_StencilFunc
              | kLessIfInClip_StencilFunc => kLess_StencilFunc
              | kLEqualIfInClip_StencilFunc => kLEqual_StencilFunc
              | kNonZeroIfInClip_StencilFunc => kNotEqual_StencilFunc
              | basic => basic
              end /\
    writeMask s' = Z.land (writeMask s) userBits /\
    funcMask s' = Z.land (funcMask s) userBits /\
    funcRef s' = Z.land (funcRef s) userBits /\
    passOp s' = passOp s /\ failOp s' = failOp s.
Proof.
  intros twoSided settings n Hn userBits s s'.
  assert (Hs' : s' = adjustFace kIgnoreClip_StencilClipMode
                       (to_u32 (Z.shiftl 1 (n - 1)))
                       (to_u32 (to_u32 (Z.shiftl 1 (n - 1)) - 1)) s).
  { subst s' s. unfold adjustStencilParams. destruct twoSided; reflexivity. }
  rewrite userBits_ones in Hs' by assumption.
  fold userBits in Hs'. rewrite Hs'. unfold adjustFace.
  assert (Hw : forall x, to_u16 (Z.land x userBits) = Z.land x userBits)
    by (intros x; apply land_ones_u16; lia).
  destruct (func s) eqn:Hf; simpl; rewrite !Hw; repeat split; reflexivity.
Qed.

(** In Ignore mode on a backend without two-sided stencil the back face is
    the adjusted front face. *)
Lemma adjustStencilParams_ignore_back_one_sided :
  forall settings stencilBitCnt,
    back (adjustStencilParams false settings kIgnoreClip_StencilClipMode stencilBitCnt)
    = front (adjustStencilParams false settings kIgnoreClip_StencilClipMode stencilBitCnt).
Proof. reflexivity. Qed.

(** C6 (the code at the failing input).  In Ignore mode, with eight stencil
    bits, settings that test [kNonZeroIfInClip] against the reference 1 come
    out as [kNotEqual] against the reference 1: the function is mapped and the
    masks are cut to the seven user bits, but the reference is not forced to
    zero. *)
Theorem adjustStencilParams_ignore_nonzero_keeps_ref :
  let s := adjustStencilParams true Samples.nonZeroRefOne
                               kIgnoreClip_StencilClipMode 8 in
  func (front s) = kNotEqual_StencilFunc /\
  funcRef (front s) = 1 /\ funcRef (front s) <> 0 /\
  funcMask (front s) = 127 /\ writeMask (front s) = 127 /\
  funcRef (front (adjustStencilParams true Samples.nonZeroRefOne
                                      kRespectClip_StencilClipMode 8)) = 128.
Proof. vm_compute. repeat split; congruence. Qed.

(** C9.  In Modify mode [adjustStencilParams] returns the settings it was
    given: no field of the front or of the back face is changed, whatever the
    settings, the bit count and the backend's two-sided support. *)
Theorem adjustStencilParams_modify_unchanged :
  forall twoSided settings stencilBitCnt,
    adjustStencilParams twoSided settings kModifyClip_StencilClipMode stencilBitCnt
    = settings.
Proof. intros. reflexivity. Qed.

(* ================================================================== *)
(** ** Blend coefficients of the alpha mask *)

Lemma blendFunc_setup_boolean_blendcoeffs : forall op ds ds',
  blendFunc (setup_boolean_blendcoeffs op ds)
  = blendFunc (setup_boolean_blendcoeffs op ds').
Proof. intros op ds ds'. destruct op; reflexivity. Qed.

(** C3 (the claim as worded fails).  For intersect the code installs the
    destination-colour coefficient [kDC], not the destination-alpha
    coefficient [kDA] of the table as the specification words it; likewise
    union installs [kISC], not [kISA]. *)
Lemma setup_boolean_blendcoeffs_not_alpha_coeffs :
  blendFunc (setup_boolean_blendcoeffs kIntersect_Op (GrDrawState_new MatrixI))
    <> spec_blendcoeffs kIntersect_Op /\
  blendFunc (setup_boolean_blendcoeffs kUnion_Op (GrDrawState_new MatrixI))
    <> spec_blendcoeffs kUnion_Op.
Proof. split; vm_compute; discriminate. Qed.

(* ================================================================== *)
(** ** Mask construction *)

Lemma drawElement_facts : forall context m ds target element pr ok m',
  drawElement context m ds target element pr = (ok, m') ->
  fRan m' = fRan m /\ fAACache m' = fAACache m /\
  exists l, fCommands m' = fCommands m ++ l /\
            Forall (fun c => commandDrawState c
                             = Some (setRenderTarget (asRenderTarget target) ds)) l.
Proof.
  intros context m ds target element pr ok m' H.
  unfold drawElement in H.
  destruct (getType element);
    repeat match type of H with
           | context [if ?b then _ else _] => destruct b
           | context [match ?x with Some _ => _ | None => _ end] => destruct x
           end;
    inversion H; subst; simpl; repeat split;
    solve [ exists []; rewrite app_nil_r; auto
          | eexists; split; [reflexivity | repeat constructor] ].
Qed.

Lemma canStencilAndDrawElement_drawState : forall context ds target element,
  snd (fst (canStencilAndDrawElement context ds target element))
  = setRenderTarget (asRenderTarget target) ds.
Proof.
  intros. unfold canStencilAndDrawElement.
  destruct (isRect (getType element)); [reflexivity|].
  destruct (getPathRenderer _ _ _ _) as [[p s]|]; reflexivity.
Qed.

Lemma Forall_accumulatorBlend_direct :
  forall element temp' (ds : GrDrawState) l,
    blendFunc ds = blendFunc (setup_boolean_blendcoeffs (getOp element) ds) ->
    Forall (fun c => commandDrawState c = Some ds) l ->
    Forall (accumulatorBlend element temp') l.
Proof.
  intros element temp' ds l Hb Hall.
  eapply Forall_impl; [|exact Hall]. intros c Hc.
  unfold accumulatorBlend. rewrite Hc. left. exact Hb.
Qed.

Lemma createAlphaClipMask_element_facts :
  forall context result cb mb off m temp element ok m' temp',
    createAlphaClipMask_element context result cb mb off m temp element = (ok, m', temp') ->
    fRan m' = fRan m /\
    fAACache m' = (if ok then fAACache m else None) /\
    exists l, fCommands m' = fCommands m ++ l /\
              Forall (accumulatorBlend element temp') l.
Proof.
  intros context result cb mb off m temp element ok m' temp' H.
  unfold createAlphaClipMask_element in H.
  destruct (modifiesOutside element).
  - pose proof (canStencilAndDrawElement_drawState context
                  (enableCoverageDrawingAndClip
                     (GrDrawState_new (MatrixTranslate (vX off) (vY off))))
                  result element) as Hds.
    destruct (canStencilAndDrawElement _ _ _ _) as [[canStencil ds1] pr].
    simpl in Hds. subst ds1.
    destruct canStencil; simpl in H.
    + (* drawn into the accumulator through the stencil *)
      destruct (drawElement _ _ _ _ _ _) as [ok1 m3] eqn:Hd.
      apply drawElement_facts in Hd. destruct Hd as (Hr & Hc & l & Hl & Hall).
      assert (Hl' : Forall (accumulatorBlend element temp') l).
      { eapply Forall_accumulatorBlend_direct; [|exact Hall].
        destruct (getOp element); reflexivity. }
      destruct ok1; inversion H; subst; simpl; rewrite ?Hr, ?Hc, ?Hl;
        repeat split; auto.
      * eexists. split; [symmetry; apply app_assoc|].
        apply Forall_app. split; [exact Hl'|].
        constructor; [|constructor]. blend_of_op element.
      * exists l. split; auto.
    + (* drawn into the scratch texture, then merged *)
      destruct (match temp with
                | Some t => (Some t, m)
                | None => createTempMask context m (SkIRect.fRight mb) (SkIRect.fBottom mb)
                end) as [temp1 m1] eqn:Ht.
      assert (Hm1 : fRan m1 = fRan m /\ fAACache m1 = fAACache m /\
                    exists l1, fCommands m1 = fCommands m ++ l1 /\
                               Forall (fun c => commandDrawState c = None) l1).
      { destruct temp; inversion Ht; subst; simpl; repeat split;
          [exists []; now rewrite app_nil_r | eexists; split; [reflexivity|repeat constructor]]. }
      destruct Hm1 as (Hr1 & Hc1 & l1 & Hl1 & Hall1).
      assert (Hl1' : forall e t, Forall (accumulatorBlend e t) l1).
      { intros e t. eapply Forall_impl; [|exact Hall1]. intros c Hc'.
        unfold accumulatorBlend. now rewrite Hc'. }
      destruct temp1 as [dst|].
      * destruct (drawElement _ _ _ _ _ _) as [ok1 m3] eqn:Hd.
        apply drawElement_facts in Hd. destruct Hd as (Hr & Hc & l & Hl & Hall).
        simpl in Hr, Hc, Hl.
        assert (Hl' : Forall (accumulatorBlend element (Some dst)) l).
        { eapply Forall_impl; [|exact Hall]. intros c Hc'.
          unfold accumulatorBlend. rewrite Hc'. right. exists dst.
          repeat split; reflexivity. }
        destruct ok1; inversion H; subst; simpl; rewrite ?Hr, ?Hc, ?Hl, ?Hr1, ?Hc1, ?Hl1;
          repeat split; auto.
        -- eexists. split; [rewrite <- !app_assoc; reflexivity|].
           apply Forall_app. split; [apply Hl1'|].
           constructor; [exact I|].
           apply Forall_app. split; [exact Hl'|].
           constructor; [|constructor]. blend_of_op element.
        -- eexists. split; [rewrite <- !app_assoc; reflexivity|].
           apply Forall_app. split; [apply Hl1'|].
           constructor; [exact I|]. exact Hl'.
      * inversion H; subst; simpl. rewrite Hr1, Hl1. repeat split; auto.
        exists l1. split; auto.
  - destruct (drawElement _ _ _ _ _ _) as [ok1 m1] eqn:Hd.
    apply drawElement_facts in Hd. destruct Hd as (Hr & Hc & l & Hl & Hall).
    inversion H; subst. repeat split; auto.
    exists l. split; auto.
    eapply Forall_accumulatorBlend_direct; [|exact Hall].
    destruct (getOp element); reflexivity.
Qed.

Lemma createAlphaClipMask_loop_facts :
  forall context result cb mb off els m temp ok m',
    createAlphaClipMask_loop context result cb mb off m temp els = (ok, m') ->
    fRan m' = fRan m /\
    fAACache m' = (if ok then fAACache m else None) /\
    exists l, fCommands m' = fCommands m ++ l.
Proof.
  induction els as [|element rest IH]; intros m temp ok m' H; simpl in H.
  - inversion H; subst. repeat split; auto. exists []. now rewrite app_nil_r.
  - destruct (createAlphaClipMask_element _ _ _ _ _ _ _ _) as [[ok1 m1] temp1] eqn:He.
    apply createAlphaClipMask_element_facts in He.
    destruct He as (Hr & Hc & l & Hl & _).
    destruct ok1.
    + apply IH in H. destruct H as (Hr' & Hc' & l' & Hl').
      rewrite Hr', Hc', Hl', Hr, Hc, Hl. repeat split; auto.
      exists (l ++ l'). now rewrite app_assoc.
    + inversion H; subst. repeat split; auto. now exists l.
Qed.

Lemma getCachedMaskTexture_hit : forall m g b t,
  getCachedMaskTexture m g b = Some t -> fAACache m = cached g b t.
Proof.
  intros m g b t. unfold getCachedMaskTexture, canReuse, getLastMask, cached.
  destruct (fAACache m) as [[g' b' t']|]; simpl; [|discriminate].
  destruct (g' =? g) eqn:Hg; simpl; [|discriminate].
  destruct (SkIRect.eqb b' b) eqn:Hb; [|discriminate].
  apply Z.eqb_eq in Hg. apply SkIRect_eqb_eq in Hb. now intros [= ->]; subst.
Qed.

Lemma getCachedMaskTexture_cached : forall m g b t,
  fAACache m = cached g b t -> getCachedMaskTexture m g b = Some t.
Proof.
  intros m g b t H. unfold getCachedMaskTexture, canReuse, getLastMask.
  rewrite H. simpl. now rewrite Z.eqb_refl, SkIRect_eqb_refl.
Qed.

Lemma getCachedMaskTexture_other : forall m g b t g' b',
  fAACache m = cached g b t -> g' <> g \/ b' <> b ->
  getCachedMaskTexture m g' b' = None.
Proof.
  intros m g b t g' b' H Hne. unfold getCachedMaskTexture, canReuse.
  rewrite H. simpl.
  destruct (g =? g') eqn:Hg; simpl; [|reflexivity].
  destruct (SkIRect.eqb b b') eqn:Hb; [|reflexivity].
  apply Z.eqb_eq in Hg. apply SkIRect_eqb_eq in Hb. subst. now destruct Hne.
Qed.

Lemma getCachedMaskTexture_empty : forall m g b,
  fAACache m = None -> getCachedMaskTexture m g b = None.
Proof. intros m g b H. unfold getCachedMaskTexture, canReuse. now rewrite H. Qed.

Lemma allocMaskTexture_facts : forall context m g b willUpload r m',
  allocMaskTexture context m g b willUpload = (r, m') ->
  fRan m' = fRan m /\
  fAACache m' = match r with Some t => cached g b t | None => None end /\
  exists desc, fCommands m' = fCommands m ++ [acquireMask g desc b].
Proof.
  intros context m g b willUpload r m' H. unfold allocMaskTexture in H.
  inversion H; subst; clear H. simpl.
  destruct (refScratchTexture _ _ _); simpl; repeat split; eexists; reflexivity.
Qed.

Lemma createAlphaClipMask_facts : forall context m g st els b r m',
  createAlphaClipMask context m g st els b = (r, m') ->
  fRan m' = fRan m /\
  fAACache m' = match r with Some t => cached g b t | None => None end /\
  match getCachedMaskTexture m g b with
  | Some t => r = Some t /\ fCommands m' = fCommands m /\
              fScratchRequests m' = fScratchRequests m
  | None => exists desc l, fCommands m' = fCommands m ++ acquireMask g desc b :: l
  end.
Proof.
  intros context m g st els b r m' H. unfold createAlphaClipMask in H.
  destruct (getCachedMaskTexture m g b) as [t|] eqn:Hhit.
  - inversion H; subst; simpl. apply getCachedMaskTexture_hit in Hhit. auto.
  - destruct (allocMaskTexture _ _ _ _ _) as [alloc m1] eqn:Ha.
    apply allocMaskTexture_facts in Ha. destruct Ha as (Hr & Hc & desc & Hl).
    destruct alloc as [result|].
    + destruct (createAlphaClipMask_loop _ _ _ _ _ _ _ _) as [ok m3] eqn:Hloop.
      apply createAlphaClipMask_loop_facts in Hloop.
      destruct Hloop as (Hr' & Hc' & l & Hl'). simpl in Hr', Hc', Hl'.
      destruct ok; inversion H; subst; simpl; rewrite ?Hr', ?Hc', ?Hl', ?Hr, ?Hc, ?Hl;
        repeat split; auto;
        exists desc; eexists; rewrite <- !app_assoc; reflexivity.
    + inversion H; subst; simpl. rewrite Hr, Hl. repeat split; auto.
      exists desc, []. reflexivity.
Qed.

Lemma createSoftwareClipMask_element_facts : forall b element m,
  fRan (createSoftwareClipMask_element b m element) = fRan m /\
  fAACache (createSoftwareClipMask_element b m element) = fAACache m /\
  exists l, fCommands (createSoftwareClipMask_element b m element) = fCommands m ++ l.
Proof.
  intros b element m. unfold createSoftwareClipMask_element.
  repeat match goal with
         | |- context [if ?c then _ else _] => destruct c
         end; simpl; repeat split; eexists; rewrite <- ?app_assoc; reflexivity.
Qed.

Lemma createSoftwareClipMask_fold_facts : forall b els m,
  fRan (fold_left (createSoftwareClipMask_element b) els m) = fRan m /\
  fAACache (fold_left (createSoftwareClipMask_element b) els m) = fAACache m /\
  exists l, fCommands (fold_left (createSoftwareClipMask_element b) els m)
            = fCommands m ++ l.
Proof.
  intros b. induction els as [|element rest IH]; intros m; simpl.
  - repeat split. exists []. now rewrite app_nil_r.
  - destruct (IH (createSoftwareClipMask_element b m element)) as (Hr & Hc & l & Hl).
    destruct (createSoftwareClipMask_element_facts b element m) as (Hr' & Hc' & l' & Hl').
    rewrite Hr, Hc, Hl, Hr', Hc', Hl'. repeat split.
    exists (l' ++ l). now rewrite app_assoc.
Qed.

Lemma createSoftwareClipMask_facts : forall context m g st els b r m',
  createSoftwareClipMask context m g st els b = (r, m') ->
  fRan m' = fRan m /\
  fAACache m' = match r with Some t => cached g b t | None => None end /\
  match getCachedMaskTexture m g b with
  | Some t => r = Some t /\ fCommands m' = fCommands m /\
              fScratchRequests m' = fScratchRequests m
  | None => exists desc, In (acquireMask g desc b) (skipn (length (fCommands m)) (fCommands m'))
  end.
Proof.
  intros context m g st els b r m' H. unfold createSoftwareClipMask in H.
  destruct (getCachedMaskTexture m g b) as [t|] eqn:Hhit.
  - inversion H; subst; simpl. apply getCachedMaskTexture_hit in Hhit. auto.
  - match type of H with
    | context [fold_left ?f ?els ?m0] =>
        destruct (createSoftwareClipMask_fold_facts b els m0) as (Hr' & Hc' & l & Hl');
        remember (fold_left f els m0) as m3 eqn:Hm3; clear Hm3
    end.
    simpl in Hr', Hc', Hl'.
    destruct (allocMaskTexture _ _ _ _ _) as [alloc m4] eqn:Ha.
    apply allocMaskTexture_facts in Ha. destruct Ha as (Hr & Hc & desc & Hl).
    destruct alloc as [result|]; inversion H; subst; simpl;
      rewrite ?Hr, ?Hc, ?Hl, ?Hr', ?Hc', ?Hl'; repeat split; auto;
      exists desc; rewrite <- !app_assoc; rewrite skipn_length_app;
      repeat (rewrite in_app_iff; simpl); intuition.
Qed.

(* ================================================================== *)
(** ** installClipEffects *)

Lemma popStagesTo_id : forall ds,
  popStagesTo (length (fColorStages ds)) (length (fCoverageStages ds)) ds = ds.
Proof. intros ds. destruct ds. unfold popStagesTo. simpl. now rewrite !firstn_all. Qed.

Lemma popStagesTo_addCoverageProcessor : forall nColor nCoverage fp ds,
  (nCoverage <= length (fCoverageStages ds))%nat ->
  popStagesTo nColor nCoverage (addCoverageProcessor fp ds)
  = popStagesTo nColor nCoverage ds.
Proof.
  intros nColor nCoverage fp ds H. unfold popStagesTo. simpl.
  rewrite firstn_app.
  replace (nCoverage - length (fCoverageStages ds))%nat with 0%nat by lia.
  simpl. now rewrite app_nil_r.
Qed.

Lemma installClipEffects_loop_failed :
  forall context bounds off els ds,
    fst (installClipEffects_loop context bounds off els ds)
    = existsb (yieldsNoProcessor context off (targetIsMultisampled ds) bounds) els.
Proof.
  intros context bounds off. induction els as [|element rest IH]; intros ds; simpl.
  - reflexivity.
  - unfold yieldsNoProcessor at 1, classifyOp, skipped, clipEffectEdgeType.
    destruct (getOp element); simpl; try reflexivity;
      try (destruct bounds as [b|]; simpl; [destruct (contains element b); simpl|]);
      try apply IH;
      (destruct (isAA element && targetIsMultisampled ds); simpl; [reflexivity|]);
      destruct (createClipProcessor _ _ _ _); simpl; try reflexivity;
      rewrite IH; reflexivity.
Qed.

Lemma installClipEffects_loop_pop :
  forall context bounds off nColor nCoverage els ds,
    (nCoverage <= length (fCoverageStages ds))%nat ->
    popStagesTo nColor nCoverage (snd (installClipEffects_loop context bounds off els ds))
    = popStagesTo nColor nCoverage ds.
Proof.
  intros context bounds off nColor nCoverage.
  induction els as [|element rest IH]; intros ds Hn; simpl.
  - reflexivity.
  - destruct (classifyOp bounds element) as [[invert skip]|]; [|reflexivity].
    destruct skip; [now apply IH|].
    destruct (isAA element && targetIsMultisampled ds); [reflexivity|].
    destruct (createClipProcessor _ _ _ _) as [fp|]; [|reflexivity].
    rewrite IH.
    + now apply popStagesTo_addCoverageProcessor.
    + simpl. rewrite length_app. lia.
Qed.

Lemma targetIsMultisampled_restore : forall are ds,
  targetIsMultisampled (AutoRestoreEffects_restore are ds) = targetIsMultisampled ds.
Proof. intros [[nColor nCoverage]|] ds; reflexivity. Qed.

(** Whatever the state of the guard: the call fails exactly when some
    element yields no processor, and then the draw state is the one the
    guard restores and the guard is idle. *)
Lemma installClipEffects_facts :
  forall context drawState are els off drawBounds,
    let r := installClipEffects context drawState are els off drawBounds in
    fst (fst r)
    = negb (existsb (yieldsNoProcessor context off (targetIsMultisampled drawState)
                                       (boundsInClipSpace off drawBounds)) els) /\
    (fst (fst r) = false ->
     snd (fst r) = AutoRestoreEffects_restore are drawState /\ snd r = None).
Proof.
  intros context drawState are els off drawBounds r. subst r.
  unfold installClipEffects, AutoRestoreEffects_set, AutoRestoreEffects_setNULL.
  fold (boundsInClipSpace off drawBounds).
  pose proof (installClipEffects_loop_failed context (boundsInClipSpace off drawBounds)
                off els (AutoRestoreEffects_restore are drawState)) as Hf.
  pose proof (installClipEffects_loop_pop context (boundsInClipSpace off drawBounds) off
                (length (fColorStages (AutoRestoreEffects_restore are drawState)))
                (length (fCoverageStages (AutoRestoreEffects_restore are drawState)))
                els (AutoRestoreEffects_restore are drawState) (le_n _)) as Hp.
  rewrite targetIsMultisampled_restore in Hf.
  destruct (installClipEffects_loop _ _ _ _ _) as [failed ds2].
  simpl in Hf, Hp. rewrite <- Hf.
  destruct failed; simpl.
  - split; [reflexivity|]. intros _. split; [|reflexivity].
    rewrite Hp. apply popStagesTo_id.
  - split; [reflexivity|]. discriminate.
Qed.

(** C8.  [installClipEffects] is all-or-nothing.  When some element yields no
    coverage processor (its operator has none, it asks for coverage
    antialiasing on a multisampled target, or no processor can be made for
    its shape), the call returns [false], the draw state is exactly the one
    it was given, so every processor added before the failure is gone, and
    the guard is idle again.  The guard is the one the caller constructs for
    the draw, idle on entry; [installClipEffects_facts] covers a guard that
    is already armed. *)
Theorem installClipEffects_all_or_nothing :
  forall context drawState els off drawBounds,
    existsb (yieldsNoProcessor context off (targetIsMultisampled drawState)
                               (boundsInClipSpace off drawBounds)) els = true ->
    installClipEffects context drawState None els off drawBounds
    = (false, drawState, None).
Proof.
  intros context drawState els off drawBounds H.
  destruct (installClipEffects_facts context drawState None els off drawBounds)
    as [Hok Hfail].
  rewrite H in Hok. simpl in Hok. specialize (Hfail Hok).
  destruct (installClipEffects _ _ _ _ _ _) as [[ok ds'] are'].
  simpl in *. destruct Hfail. now subst.
Qed.

(* ================================================================== *)
(** ** setupClipping *)

Lemma setDrawStateStencil_stages : forall context m ds ars,
  let ds' := fst (setDrawStateStencil context m ds ars) in
  fColorStages ds' = fColorStages ds /\
  fCoverageStages ds' = fCoverageStages ds /\
  fRenderTarget ds' = fRenderTarget ds.
Proof.
  intros context m ds ars. unfold setDrawStateStencil, AutoRestoreStencil_set.
  destruct (isDisabled _); [destruct (isRespectClip _)|];
    destruct ars; simpl; auto.
Qed.

Lemma returnTrue_facts : forall context m ds are ars sc,
  let o := returnTrue context m ds are ars sc in
  result o = true /\ manager o = m /\ outAre o = are /\ outScissorState o = sc /\
  fColorStages (outDrawState o) = fColorStages ds /\
  fCoverageStages (outDrawState o) = fCoverageStages ds.
Proof.
  intros context m ds are ars sc. unfold returnTrue.
  pose proof (setDrawStateStencil_stages context m ds ars) as H.
  destruct (setDrawStateStencil _ _ _ _) as [ds1 ars1]. simpl in *. tauto.
Qed.

Lemma fold_left_fRan : forall (A : Type) (f : GrClipMaskManager -> A -> GrClipMaskManager),
  (forall m a, fRan (f m a) = fRan m) ->
  forall l m, fRan (fold_left f l m) = fRan m.
Proof.
  intros A f Hf. induction l as [|a l IH]; intros m; simpl; [reflexivity|].
  now rewrite IH, Hf.
Qed.

Lemma createStencilClipMask_element_fRan : forall context rt clipBit matrix b m element,
  fRan (snd (createStencilClipMask_element context rt clipBit matrix b m element))
  = fRan m.
Proof.
  intros. unfold createStencilClipMask_element.
  destruct (isRect (getType element)).
  - destruct (GetClipPasses _ _ _ _ _) as [direct passes]. simpl.
    rewrite fold_left_fRan; [destruct direct; reflexivity|].
    intros mm s. destruct direct; reflexivity.
  - destruct (getPathRenderer _ _ _ _) as [[pr support]|]; [|reflexivity].
    destruct (GetClipPasses _ _ _ _ _) as [direct passes]. simpl.
    rewrite fold_left_fRan.
    + destruct direct; [reflexivity|]. simpl.
      destruct (pathIsEmpty _); [reflexivity|].
      destruct support; reflexivity.
    + intros mm s. destruct direct; reflexivity.
Qed.

Lemma createStencilClipMask_loop_fRan : forall context rt clipBit matrix b els m,
  fRan (snd (createStencilClipMask_loop context rt clipBit matrix b m els)) = fRan m.
Proof.
  intros context rt clipBit matrix b. induction els as [|element rest IH]; intros m; simpl.
  - reflexivity.
  - pose proof (createStencilClipMask_element_fRan context rt clipBit matrix b m element)
      as He.
    destruct (createStencilClipMask_element _ _ _ _ _ _ _) as [ok m1]. simpl in He.
    destruct ok; [now rewrite IH|exact He].
Qed.

Lemma createStencilClipMask_fRan : forall context m rt g st els b off,
  fRan (snd (createStencilClipMask context m rt g st els b off)) = fRan m.
Proof.
  intros. unfold createStencilClipMask.
  destruct (getStencilBuffer rt) as [sb|]; [|reflexivity].
  destruct (mustRenderClip _ _ _).
  - match goal with
    | |- context [createStencilClipMask_loop ?c ?r ?cb ?mx ?bb ?mm ?ee] =>
        pose proof (createStencilClipMask_loop_fRan c r cb mx bb ee mm) as Hl;
        destruct (createStencilClipMask_loop c r cb mx bb mm ee) as [ok m3]
    end.
    simpl in Hl. destruct ok; simpl; exact Hl.
  - reflexivity.
Qed.

Lemma setupClipping_stencil_facts : forall context m rt ds are ars clipDataIn red,
  let o := setupClipping_stencil context m rt ds are ars clipDataIn red in
  result o = true /\
  exists ok, fRan (manager o) = fRan m ++ [(R_createStencilClipMask, ok)].
Proof.
  intros. subst o. unfold setupClipping_stencil.
  match goal with
  | |- context [createStencilClipMask ?c ?mm ?r ?g ?s ?e ?b ?off] =>
      pose proof (createStencilClipMask_fRan c mm r g s e b off) as Hs;
      destruct (createStencilClipMask c mm r g s e b off) as [ok m2]
  end.
  simpl in Hs.
  match goal with
  | |- context [returnTrue ?c ?mm ?d ?a ?r ?s] =>
      destruct (returnTrue_facts c mm d a r s) as (Hres & Hm & _)
  end.
  rewrite Hres, Hm. split; [reflexivity|]. exists ok. simpl. now rewrite Hs.
Qed.

Lemma createClipMask_fRan : forall software context m g st els b,
  fRan (snd (createClipMask software context m g st els b)) = fRan m.
Proof.
  intros [|] context m g st els b; unfold createClipMask.
  - destruct (createSoftwareClipMask _ _ _ _ _ _) as [r m'] eqn:H.
    apply createSoftwareClipMask_facts in H. simpl. tauto.
  - destruct (createAlphaClipMask _ _ _ _ _ _) as [r m'] eqn:H.
    apply createAlphaClipMask_facts in H. simpl. tauto.
Qed.

Lemma setupClipping_alpha_facts : forall context m rt ds are ars sc clipDataIn red,
  let o := setupClipping_alpha context m rt ds are ars sc clipDataIn red in
  result o = true /\
  exists tr, fRan (manager o) = fRan m ++ tr /\
             alphaTrace ((numSamples rt =? 0) && requiresAA red) tr.
Proof.
  intros. subst o. unfold setupClipping_alpha.
  destruct ((numSamples rt =? 0) && requiresAA red) eqn:Hen.
  - destruct (useSWOnlyPath _ _ _).
    + pose proof (createClipMask_fRan true context m (genID red) (initialState red)
                    (elements red) (clipSpaceIBounds red)) as Hr.
      unfold createClipMask in Hr.
      destruct (createSoftwareClipMask _ _ _ _ _ _) as [r m']. simpl in Hr.
      destruct r as [tex|].
      * match goal with
        | |- context [returnTrue ?c ?mm ?d ?a ?r ?s] =>
            destruct (returnTrue_facts c mm d a r s) as (Hres & Hm & _)
        end.
        rewrite Hres, Hm. split; [reflexivity|]. eexists. simpl. rewrite Hr.
        split; [reflexivity|]. right. split; [reflexivity|].
        exists R_createSoftwareClipMask. auto.
      * match goal with
        | |- context [setupClipping_stencil ?c ?mm ?r ?d ?a ?s ?cl ?rd] =>
            destruct (setupClipping_stencil_facts c mm r d a s cl rd) as (Hres & ok & Hm)
        end.
        split; [exact Hres|]. eexists. rewrite Hm. simpl. rewrite Hr, <- app_assoc.
        split; [reflexivity|]. right. split; [reflexivity|].
        exists R_createSoftwareClipMask. split; [auto|]. right. now exists ok.
    + pose proof (createClipMask_fRan false context m (genID red) (initialState red)
                    (elements red) (clipSpaceIBounds red)) as Hr.
      unfold createClipMask in Hr.
      destruct (createAlphaClipMask _ _ _ _ _ _) as [r m']. simpl in Hr.
      destruct r as [tex|].
      * match goal with
        | |- context [returnTrue ?c ?mm ?d ?a ?r ?s] =>
            destruct (returnTrue_facts c mm d a r s) as (Hres & Hm & _)
        end.
        rewrite Hres, Hm. split; [reflexivity|]. eexists. simpl. rewrite Hr.
        split; [reflexivity|]. right. split; [reflexivity|].
        exists R_createAlphaClipMask. auto.
      * match goal with
        | |- context [setupClipping_stencil ?c ?mm ?r ?d ?a ?s ?cl ?rd] =>
            destruct (setupClipping_stencil_facts c mm r d a s cl rd) as (Hres & ok & Hm)
        end.
        split; [exact Hres|]. eexists. rewrite Hm. simpl. rewrite Hr, <- app_assoc.
        split; [reflexivity|]. right. split; [reflexivity|].
        exists R_createAlphaClipMask. split; [auto|]. right. now exists ok.
  - destruct (setupClipping_stencil_facts context m rt ds are ars clipDataIn red)
      as (Hres & ok & Hm).
    split; [exact Hres|]. eexists. split; [exact Hm|]. left. split; [reflexivity|].
    now exists ok.
Qed.

Lemma setupClipping_clip_facts :
  forall context m rt ds are ars sc clipDataIn devBounds red,
    let o := setupClipping_clip context m rt ds are ars sc clipDataIn devBounds red in
    let ok := fst (fst (installClipEffects context ds are (elements red)
                                           (clipToRTOffset clipDataIn) devBounds)) in
    result o = true /\
    exists tr,
      fRan (manager o)
      = fRan m ++ (if attemptsClipEffects red then [(R_installClipEffects, ok)] else [])
              ++ tr /\
      (tr = [] \/ alphaTrace ((numSamples rt =? 0) && requiresAA red) tr).
Proof.
  intros. subst o ok. unfold setupClipping_clip, attemptsClipEffects.
  fold (clipToRTOffset clipDataIn).
  destruct (Z.of_nat (length (elements red)) <=? 4); simpl.
  - destruct (elements red) as [|e els] eqn:Hels; simpl.
    + match goal with
      | |- context [returnTrue ?c ?mm ?d ?a ?r ?s] =>
          destruct (returnTrue_facts c mm d a r s) as (Hres & Hm & _)
      end.
      rewrite Hres, Hm. split; [reflexivity|]. exists []. rewrite app_nil_r. auto.
    + destruct (requiresAA red) eqn:Haa; simpl.
      * destruct (installClipEffects _ _ _ _ _ _) as [[ok ds'] are']. simpl.
        destruct ok.
        -- match goal with
           | |- context [returnTrue ?c ?mm ?d ?a ?r ?s] =>
               destruct (returnTrue_facts c mm d a r s) as (Hres & Hm & _)
           end.
           rewrite Hres, Hm. split; [reflexivity|]. exists []. simpl. auto.
        -- match goal with
           | |- context [setupClipping_alpha ?c ?mm ?r ?d ?a ?s ?ss ?cl ?rd] =>
               destruct (setupClipping_alpha_facts c mm r d a s ss cl rd)
                 as (Hres & tr & Hm & Htr)
           end.
           split; [exact Hres|]. exists tr. rewrite Hm. simpl.
           rewrite <- app_assoc. rewrite Haa in Htr. auto.
      * destruct (setupClipping_alpha_facts context m rt ds are ars sc clipDataIn red)
          as (Hres & tr & Hm & Htr).
        split; [exact Hres|]. exists tr. rewrite Hm. rewrite Haa in Htr. auto.
  - destruct (setupClipping_alpha_facts context m rt ds are ars sc clipDataIn red)
      as (Hres & tr & Hm & Htr).
    split; [exact Hres|]. exists tr. rewrite Hm. auto.
Qed.

Lemma fRan_setupClipping_enter : forall m, fRan (setupClipping_enter m) = fRan m.
Proof. intros m. unfold setupClipping_enter. destruct (isRespectClip _); reflexivity. Qed.

(** The trace of a whole call. *)
Lemma setupClipping_trace :
  forall context m ds are ars sc clipDataIn devBounds rt,
    fRenderTarget ds = Some rt ->
    let o := setupClipping context m ds are ars sc clipDataIn devBounds in
    exists pre tr,
      ranSince m (manager o) = pre ++ tr /\
      (pre = [] \/ exists ok, pre = [(R_installClipEffects, ok)]) /\
      (tr = [] \/
       (result o = true /\
        alphaTrace ((numSamples rt =? 0) && requiresAA (reducedClip rt clipDataIn)) tr)).
Proof.
  intros context m ds are ars sc clipDataIn devBounds rt Hrt o. subst o.
  unfold setupClipping, ranSince. rewrite Hrt.
  fold (reducedClip rt clipDataIn).
  assert (Hnone : forall o', fRan (manager o') = fRan m ->
            exists pre tr : list (Routine * bool),
              skipn (length (fRan m)) (fRan (manager o')) = pre ++ tr /\
              (pre = [] \/ exists ok, pre = [(R_installClipEffects, ok)]) /\
              (tr = [] \/
               (result o' = true /\
                alphaTrace ((numSamples rt =? 0) &&
                            requiresAA (reducedClip rt clipDataIn)) tr))).
  { intros o' H. exists [], []. rewrite H.
    rewrite <- (app_nil_r (fRan m)) at 2. rewrite skipn_length_app. auto. }
  assert (Hclip : forall o', o' = setupClipping_clip context (setupClipping_enter m) rt ds
                                     are ars sc clipDataIn devBounds
                                     (reducedClip rt clipDataIn) ->
            exists pre tr : list (Routine * bool),
              skipn (length (fRan m)) (fRan (manager o')) = pre ++ tr /\
              (pre = [] \/ exists ok, pre = [(R_installClipEffects, ok)]) /\
              (tr = [] \/
               (result o' = true /\
                alphaTrace ((numSamples rt =? 0) &&
                            requiresAA (reducedClip rt clipDataIn)) tr))).
  { intros o' ->.
    destruct (setupClipping_clip_facts context (setupClipping_enter m) rt ds are ars sc
                clipDataIn devBounds (reducedClip rt clipDataIn))
      as (Hres & tr & Hm & Htr).
    rewrite Hm, fRan_setupClipping_enter, skipn_length_app.
    eexists. exists tr. split; [reflexivity|]. split.
    - destruct (attemptsClipEffects _); eauto.
    - destruct Htr; auto. }
  destruct (negb (kClip_StateBit ds) || isWideOpen (fClipStack clipDataIn)).
  - apply Hnone.
    destruct (returnTrue_facts context (setupClipping_enter m) ds are ars sc)
      as (_ & Hm & _).
    rewrite Hm. apply fRan_setupClipping_enter.
  - destruct (elements (reducedClip rt clipDataIn)) eqn:Hels.
    + destruct (isAllIn _).
      * destruct (SkIRect.eqb _ _).
        -- apply Hnone.
           destruct (returnTrue_facts context (setupClipping_enter m) ds are ars sc)
             as (_ & Hm & _).
           rewrite Hm. apply fRan_setupClipping_enter.
        -- apply Hclip. reflexivity.
      * apply Hnone. simpl. apply fRan_setupClipping_enter.
    + apply Hclip. reflexivity.
Qed.


(* ================================================================== *)
(** ** The claims about setupClipping *)

(** C1 (the code at the failing input).  The clip reduces to one
    non-antialiased path element and the context has no path renderer.
    [createStencilClipMask] returns [false] at its path-renderer lookup, but
    [setupClipping] does not look at that result: it returns [true], with no
    clip mask of any type, the stencil clip ignored, and no coverage
    processor added; only the scissor restricts the draw. *)
Theorem setupClipping_drops_stencil_failure :
  let clip := Samples.stack [Samples.pathElement kIntersect_Op false]
                            kAllOut_InitialState Samples.bounds50 false in
  let o := setupClipping Samples.noRenderer Samples.manager0 Samples.drawState
                         None None Samples.scissor0 clip None in
  (* createStencilClipMask itself reports the failure ... *)
  fst (createStencilClipMask Samples.noRenderer
         (fAACache_reset (setupClipping_enter Samples.manager0)) Samples.rt 5
         kAllOut_InitialState [Samples.pathElement kIntersect_Op false] Samples.bounds50
         (SkIPoint.neg (fOrigin clip))) = false /\
  ranSince Samples.manager0 (manager o) = [(R_createStencilClipMask, false)] /\
  (* ... and setupClipping answers success, with no mask of any type *)
  result o = true /\
  fCurrClipMaskType (manager o) = kNone_ClipMaskType /\
  fClipMode (manager o) = kIgnoreClip_StencilClipMode /\
  fCoverageStages (outDrawState o) = fCoverageStages Samples.drawState.
Proof. vm_compute. repeat split. Qed.

(** C5.  If a call of [setupClipping] runs one of the two alpha-mask
    builders ([createAlphaClipMask] or [createSoftwareClipMask]), then the
    render target is not multisampled and the reduced clip requires AA; and
    if that builder returned NULL, the call went on to
    [createStencilClipMask] and returned [true]: the failure of the alpha
    mask is not reported. *)
Theorem alpha_mask_entry_and_fall_through :
  forall context m ds are ars sc clipDataIn devBounds rt R ok,
    fRenderTarget ds = Some rt ->
    R = R_createAlphaClipMask \/ R = R_createSoftwareClipMask ->
    In (R, ok) (ranSince m (manager (setupClipping context m ds are ars sc
                                                   clipDataIn devBounds))) ->
    (isMultisampled rt = false /\ numSamples rt = 0 /\
     requiresAA (reducedClip rt clipDataIn) = true) /\
    (ok = true \/
     (result (setupClipping context m ds are ars sc clipDataIn devBounds) = true /\
      exists ok', In (R_createStencilClipMask, ok')
                     (ranSince m (manager (setupClipping context m ds are ars sc
                                                         clipDataIn devBounds))))).
Proof.
  intros context m ds are ars sc clipDataIn devBounds rt R ok Hrt HR Hin.
  destruct (setupClipping_trace context m ds are ars sc clipDataIn devBounds rt Hrt)
    as (pre & tr & Htrace & Hpre & Htr).
  rewrite Htrace in *. clear Htrace.
  assert (Hin' : In (R, ok) tr).
  { apply in_app_or in Hin. destruct Hin as [Hin|Hin]; [|exact Hin].
    destruct Hpre as [->|[ok0 ->]]; simpl in Hin; [contradiction|].
    destruct Hin as [Heq|[]]. inversion Heq; subst. destruct HR; discriminate. }
  destruct Htr as [->|[Hres Htr]]; [contradiction|].
  unfold alphaTrace in Htr.
  destruct Htr as [[_ [ok0 ->]]|[Hen [R' [HR' Hshape]]]].
  - simpl in Hin'. destruct Hin' as [Heq|[]]. inversion Heq; subst.
    destruct HR; discriminate.
  - apply andb_true_iff in Hen. destruct Hen as [Hs Haa]. apply Z.eqb_eq in Hs.
    split.
    + unfold isMultisampled. rewrite Hs. auto.
    + destruct Hshape as [->|[ok' ->]]; simpl in Hin'.
      * destruct Hin' as [Heq|[]]. inversion Heq. auto.
      * destruct Hin' as [Heq|[Heq|[]]].
        -- right. split; [exact Hres|]. exists ok'.
           apply in_or_app. right. simpl. auto.
        -- inversion Heq; subst. destruct HR; discriminate.
Qed.

(** C5 at a sample input: no texture can be allocated, so
    [createAlphaClipMask] returns NULL. *)
Lemma alpha_mask_entry_and_fall_through_witness :
  let o := setupClipping Samples.noTextures Samples.manager0 Samples.drawState None None
             Samples.scissor0
             (Samples.stack [Samples.rectElement kUnion_Op true] kAllOut_InitialState
                            Samples.bounds50 true) None in
  In (R_createAlphaClipMask, false) (ranSince Samples.manager0 (manager o)) /\
  (isMultisampled Samples.rt = false /\ numSamples Samples.rt = 0 /\
   requiresAA (reducedClip Samples.rt
                 (Samples.stack [Samples.rectElement kUnion_Op true] kAllOut_InitialState
                                Samples.bounds50 true)) = true) /\
  (false = true \/
   (result o = true /\
    exists ok', In (R_createStencilClipMask, ok') (ranSince Samples.manager0 (manager o)))).
Proof.
  intros o.
  assert (Hin : In (R_createAlphaClipMask, false) (ranSince Samples.manager0 (manager o))).
  { vm_compute. auto. }
  split; [exact Hin|].
  exact (alpha_mask_entry_and_fall_through Samples.noTextures Samples.manager0
           Samples.drawState None None Samples.scissor0
           (Samples.stack [Samples.rectElement kUnion_Op true] kAllOut_InitialState
                          Samples.bounds50 true)
           None Samples.rt R_createAlphaClipMask false
           eq_refl (or_introl eq_refl) Hin).
Defined.

Lemma existsb_yieldsNoProcessor_cause :
  forall context off multisampled bounds els,
    existsb (yieldsNoProcessor context off multisampled bounds) els = true ->
    exists element,
      In element els /\
      (opHasClipEffect (getOp element) = false \/
       (isAA element = true /\ multisampled = true) \/
       createClipProcessor context (clipEffectEdgeType element) off element = None).
Proof.
  intros context off multisampled bounds els H.
  apply existsb_exists in H. destruct H as (element & Hin & Hy).
  exists element. split; [exact Hin|].
  unfold yieldsNoProcessor in Hy.
  destruct (opHasClipEffect (getOp element)); [|auto].
  simpl in Hy. apply andb_true_iff in Hy. destruct Hy as [_ Hy].
  apply orb_true_iff in Hy. destruct Hy as [Hy|Hy].
  - apply andb_true_iff in Hy. auto.
  - destruct (createClipProcessor _ _ _ _); [discriminate|auto].
Qed.

(** C4, as amended.  When the reduction yields a non-empty list of at most
    four elements and requires AA, the first routine [setupClipping] runs is
    [installClipEffects] on those elements; and that call fails only when
    some element has an operator other than replace, intersect and
    difference, or asks for coverage antialiasing on a multisampled target, or
    has a shape for which no rect, rounded-rect or convex-polygon processor
    can be made. *)
Theorem fast_path_attempt_and_failure :
  forall context m ds are ars sc clipDataIn devBounds rt,
    fRenderTarget ds = Some rt ->
    kClip_StateBit ds = true ->
    isWideOpen (fClipStack clipDataIn) = false ->
    elements (reducedClip rt clipDataIn) <> [] ->
    (length (elements (reducedClip rt clipDataIn)) <= 4)%nat ->
    requiresAA (reducedClip rt clipDataIn) = true ->
    let ok := fst (fst (installClipEffects context ds are
                          (elements (reducedClip rt clipDataIn))
                          (clipToRTOffset clipDataIn) devBounds)) in
    (exists tr,
       ranSince m (manager (setupClipping context m ds are ars sc clipDataIn devBounds))
       = (R_installClipEffects, ok) :: tr) /\
    (ok = true \/
     exists element,
       In element (elements (reducedClip rt clipDataIn)) /\
       (opHasClipEffect (getOp element) = false \/
        (isAA element = true /\ isMultisampled rt = true) \/
        createClipProcessor context (clipEffectEdgeType element)
                            (clipToRTOffset clipDataIn) element = None)).
Proof.
  intros context m ds are ars sc clipDataIn devBounds rt Hrt Hclip Hopen Hne Hlen Haa ok.
  split.
  - unfold setupClipping, ranSince. rewrite Hrt, Hclip, Hopen. simpl.
    fold (reducedClip rt clipDataIn).
    destruct (setupClipping_clip_facts context (setupClipping_enter m) rt ds are ars sc
                clipDataIn devBounds (reducedClip rt clipDataIn))
      as (_ & tr & Hm & _).
    assert (Hatt : attemptsClipEffects (reducedClip rt clipDataIn) = true).
    { unfold attemptsClipEffects. rewrite Haa.
      destruct (elements (reducedClip rt clipDataIn)); [congruence|].
      rewrite andb_true_r. simpl negb. rewrite andb_true_r.
      apply Z.leb_le. lia. }
    rewrite Hatt, fRan_setupClipping_enter in Hm. fold ok in Hm.
    exists tr.
    destruct (elements (reducedClip rt clipDataIn)) eqn:Hels; [congruence|].
    rewrite Hm, skipn_length_app. reflexivity.
  - destruct (installClipEffects_facts context ds are
                (elements (reducedClip rt clipDataIn)) (clipToRTOffset clipDataIn)
                devBounds) as [Hok _].
    fold ok in Hok.
    destruct ok; [auto|right].
    symmetry in Hok. apply negb_false_iff in Hok.
    apply existsb_yieldsNoProcessor_cause in Hok.
    unfold targetIsMultisampled in Hok. rewrite Hrt in Hok. exact Hok.
Qed.

(** C4 as amended, at a sample input: one antialiased rectangle with the
    union operator. *)
Lemma fast_path_attempt_and_failure_witness :
  let clip := Samples.stack [Samples.rectElement kUnion_Op true] kAllOut_InitialState
                            Samples.bounds50 true in
  (exists tr,
     ranSince Samples.manager0
              (manager (setupClipping Samples.allRenderers Samples.manager0
                          Samples.drawState None None Samples.scissor0 clip None))
     = (R_installClipEffects,
        fst (fst (installClipEffects Samples.allRenderers Samples.drawState None
                    (elements (reducedClip Samples.rt clip))
                    (clipToRTOffset clip) None))) :: tr) /\
  (fst (fst (installClipEffects Samples.allRenderers Samples.drawState None
               (elements (reducedClip Samples.rt clip))
               (clipToRTOffset clip) None)) = true \/
   exists element,
     In element (elements (reducedClip Samples.rt clip)) /\
     (opHasClipEffect (getOp element) = false \/
      (isAA element = true /\ isMultisampled Samples.rt = true) \/
      createClipProcessor Samples.allRenderers (clipEffectEdgeType element)
                          (clipToRTOffset clip) element = None)).
Proof.
  intros clip.
  apply (fast_path_attempt_and_failure Samples.allRenderers Samples.manager0
           Samples.drawState None None Samples.scissor0 clip None Samples.rt).
  - reflexivity.
  - reflexivity.
  - reflexivity.
  - simpl. discriminate.
  - simpl. lia.
  - reflexivity.
Defined.

(** C4 (the claim as worded fails).  First, a reduced clip of one
    non-antialiased path element, which does not require AA: the only routine
    run is [createStencilClipMask]; the fast path is not attempted.  Second, a
    reduced clip of one antialiased rectangle with the union operator on a
    target that is not multisampled: the attempt fails although the
    rectangle has a processor and no antialiasing conflict exists. *)
Lemma fast_path_counterexample :
  (* a non-empty list of at most four elements, and no attempt *)
  (let clip := Samples.stack [Samples.pathElement kIntersect_Op false]
                             kAllOut_InitialState Samples.bounds50 false in
   elements (reducedClip Samples.rt clip) <> [] /\
   (length (elements (reducedClip Samples.rt clip)) <= 4)%nat /\
   ranSince Samples.manager0
            (manager (setupClipping Samples.allRenderers Samples.manager0
                        Samples.drawState None None Samples.scissor0 clip None))
   = [(R_createStencilClipMask, true)]) /\
  (* an attempt that fails for neither of the two stated reasons *)
  (let element := Samples.rectElement kUnion_Op true in
   let clip := Samples.stack [element] kAllOut_InitialState Samples.bounds50 true in
   ranSince Samples.manager0
            (manager (setupClipping Samples.allRenderers Samples.manager0
                        Samples.drawState None None Samples.scissor0 clip None))
   = [(R_installClipEffects, false); (R_createAlphaClipMask, true)] /\
   isMultisampled Samples.rt = false /\
   createClipProcessor Samples.allRenderers (clipEffectEdgeType element)
                       (clipToRTOffset clip) element <> None).
Proof.
  split.
  - vm_compute. repeat split; [discriminate|].
    repeat constructor.
  - vm_compute. repeat split. discriminate.
Qed.

(** C2.  With clipping enabled and a clip stack that is not wide open, when
    the reduction yields no element: if the initial state is AllOut,
    [setupClipping] returns [false]; if it is AllIn and the reduced bounds
    equal the render-target bounds, it returns [true] and the clip is a
    no-op: the scissor state is untouched, there is no clip mask, nothing is
    issued and no mask routine runs, the mask cache is untouched, and the
    draw state has the processors it had. *)
Theorem empty_reduced_clip :
  forall context m ds are ars sc clipDataIn devBounds rt,
    fRenderTarget ds = Some rt ->
    kClip_StateBit ds = true ->
    isWideOpen (fClipStack clipDataIn) = false ->
    elements (reducedClip rt clipDataIn) = [] ->
    let o := setupClipping context m ds are ars sc clipDataIn devBounds in
    match initialState (reducedClip rt clipDataIn) with
    | kAllOut_InitialState => result o = false
    | kAllIn_InitialState =>
        if SkIRect.eqb (clipSpaceIBounds (reducedClip rt clipDataIn))
                       (clipSpaceRTIBounds rt clipDataIn)
        then result o = true /\
             outScissorState o = sc /\
             fCurrClipMaskType (manager o) = kNone_ClipMaskType /\
             fAACache (manager o) = fAACache m /\
             issuedSince m (manager o) = [] /\
             ranSince m (manager o) = [] /\
             fCoverageStages (outDrawState o) = fCoverageStages ds /\
             fColorStages (outDrawState o) = fColorStages ds /\
             outAre o = are
        else result o = true
    end.
Proof.
  intros context m ds are ars sc clipDataIn devBounds rt Hrt Hclip Hopen Hels o.
  subst o. unfold setupClipping. rewrite Hrt, Hclip, Hopen. simpl.
  fold (reducedClip rt clipDataIn). fold (clipSpaceRTIBounds rt clipDataIn).
  rewrite Hels.
  destruct (initialState (reducedClip rt clipDataIn)); simpl; [|reflexivity].
  destruct (SkIRect.eqb _ _).
  - destruct (returnTrue_facts context (setupClipping_enter m) ds are ars sc)
      as (Hres & Hm & Hare & Hsc & Hcolor & Hcov).
    rewrite Hres, Hm, Hare, Hsc, Hcolor, Hcov.
    unfold issuedSince, ranSince, setupClipping_enter.
    destruct (isRespectClip _); simpl; rewrite !skipn_all; repeat split.
  - destruct (setupClipping_clip_facts context (setupClipping_enter m) rt ds are ars sc
                clipDataIn devBounds (reducedClip rt clipDataIn)) as (Hres & _).
    exact Hres.
Qed.

(** C2 at two sample inputs, one for each initial state. *)
Lemma empty_reduced_clip_witness :
  (let o := setupClipping Samples.allRenderers Samples.manager0 Samples.drawState
              None None Samples.scissor0
              (Samples.stack [] kAllOut_InitialState Samples.bounds50 false) None in
   result o = false) /\
  (let o := setupClipping Samples.allRenderers Samples.manager0 Samples.drawState
              None None Samples.scissor0
              (Samples.stack [] kAllIn_InitialState (SkIRect.MakeWH 200 200) false)
              None in
   result o = true /\
   outScissorState o = Samples.scissor0 /\
   fCurrClipMaskType (manager o) = kNone_ClipMaskType /\
   fAACache (manager o) = fAACache Samples.manager0 /\
   issuedSince Samples.manager0 (manager o) = [] /\
   ranSince Samples.manager0 (manager o) = [] /\
   fCoverageStages (outDrawState o) = fCoverageStages Samples.drawState /\
   fColorStages (outDrawState o) = fColorStages Samples.drawState /\
   outAre o = None).
Proof.
  split.
  - exact (empty_reduced_clip Samples.allRenderers Samples.manager0 Samples.drawState
             None None Samples.scissor0
             (Samples.stack [] kAllOut_InitialState Samples.bounds50 false) None
             Samples.rt eq_refl eq_refl eq_refl eq_refl).
  - exact (empty_reduced_clip Samples.allRenderers Samples.manager0 Samples.drawState
             None None Samples.scissor0
             (Samples.stack [] kAllIn_InitialState (SkIRect.MakeWH 200 200) false) None
             Samples.rt eq_refl eq_refl eq_refl eq_refl).
Defined.

(* ================================================================== *)
(** ** The claims about the mask builders *)

Lemma createClipMask_facts : forall software context m g st els b,
  let r := createClipMask software context m g st els b in
  fAACache (snd r) = match fst r with Some t => cached g b t | None => None end /\
  match getCachedMaskTexture m g b with
  | Some t => fst r = Some t /\ fCommands (snd r) = fCommands m /\
              fScratchRequests (snd r) = fScratchRequests m
  | None => exists desc, In (acquireMask g desc b) (issuedSince m (snd r))
  end.
Proof.
  intros [|] context m g st els b; unfold createClipMask; simpl.
  - destruct (createSoftwareClipMask _ _ _ _ _ _) as [r m'] eqn:H.
    apply createSoftwareClipMask_facts in H. simpl. tauto.
  - destruct (createAlphaClipMask _ _ _ _ _ _) as [r m'] eqn:H.
    apply createAlphaClipMask_facts in H. destruct H as (_ & Hc & Hhit).
    simpl. split; [exact Hc|].
    destruct (getCachedMaskTexture m g b); [exact Hhit|].
    destruct Hhit as (desc & l & Hl). exists desc.
    unfold issuedSince. rewrite Hl, skipn_length_app. simpl. auto.
Qed.

Lemma drawElement_regenerated : forall context m ds target element pr ok m',
  drawElement context m ds target element pr = (ok, m') ->
  exists l, fCommands m' = fCommands m ++ l /\
    (ok = true ->
     (exists c, In c l /\ rendersElement false element c) \/
     getType element = kEmpty_Type) /\
    (ok = false ->
     isRect (getType element) = false /\
     (pr = None ->
      getPathRenderer context (setRenderTarget (asRenderTarget target) ds)
                      (nonInverse (asPath element)) (colorDrawType (isAA element))
      = None)).
Proof.
  intros context m ds target element pr ok m' H. unfold drawElement in H.
  destruct (getType element) eqn:Ht.
  - inversion H; subst. exists []. rewrite app_nil_r.
    split; [reflexivity|]. split; [auto|discriminate].
  - destruct (isAA element) eqn:Haa; inversion H; subst; simpl;
      (eexists; split; [reflexivity|]); (split; [|discriminate]); intros _; left;
      eexists; (split; [left; reflexivity|]); simpl; rewrite Ht; auto.
  - destruct pr as [p|]; simpl in H.
    + inversion H; subst. simpl. eexists. split; [reflexivity|].
      split; [|discriminate]. intros _. left. eexists. split; [left; reflexivity|].
      simpl. rewrite Ht. auto.
    + destruct (getPathRenderer _ _ _ _) as [[p s]|] eqn:Hp; simpl in H;
        inversion H; subst; simpl.
      * eexists. split; [reflexivity|]. split; [|discriminate]. intros _. left.
        eexists. split; [left; reflexivity|]. simpl. rewrite Ht. auto.
      * exists []. rewrite app_nil_r. split; [reflexivity|].
        split; [discriminate|]. intros _. split; [reflexivity|]. intros _. reflexivity.
  - destruct pr as [p|]; simpl in H.
    + inversion H; subst. simpl. eexists. split; [reflexivity|].
      split; [|discriminate]. intros _. left. eexists. split; [left; reflexivity|].
      simpl. rewrite Ht. auto.
    + destruct (getPathRenderer _ _ _ _) as [[p s]|] eqn:Hp; simpl in H;
        inversion H; subst; simpl.
      * eexists. split; [reflexivity|]. split; [|discriminate]. intros _. left.
        eexists. split; [left; reflexivity|]. simpl. rewrite Ht. auto.
      * exists []. rewrite app_nil_r. split; [reflexivity|].
        split; [discriminate|]. intros _. split; [reflexivity|]. intros _. reflexivity.
Qed.

Lemma In_app_mid : forall (A : Type) (x : A) (a b c : list A),
  In x b -> In x (a ++ b ++ c).
Proof. intros. apply in_or_app. right. apply in_or_app. now left. Qed.

Lemma regenerated_incl : forall software context l l' element,
  (forall c, In c l -> In c l') ->
  regenerated software context l element ->
  regenerated software context l' element.
Proof.
  intros software context l l' element Hincl [(c & Hin & Hc)|H]; [left|right; exact H].
  exists c. split; [apply Hincl; exact Hin|exact Hc].
Qed.

Lemma regenerated_weaken : forall software context l l1 l2 element,
  regenerated software context l element ->
  regenerated software context (l1 ++ l ++ l2) element.
Proof.
  intros software context l l1 l2 element [(c & Hin & Hc)|H]; [left|right; exact H].
  exists c. split; [now apply In_app_mid|exact Hc].
Qed.

Lemma createAlphaClipMask_element_regenerated :
  forall context mask cb mb off m temp element m' temp',
    createAlphaClipMask_element context mask cb mb off m temp element = (true, m', temp') ->
    exists l, fCommands m' = fCommands m ++ l /\
              regenerated false context l element.
Proof.
  intros context mask cb mb off m temp element m' temp' H.
  unfold createAlphaClipMask_element in H.
  destruct (modifiesOutside element) eqn:Hmod.
  - unfold canStencilAndDrawElement in H.
    destruct (isRect (getType element)) eqn:Hrect.
    + simpl in H.
      match type of H with
      | context [drawElement ?c ?mm ?d ?t ?e ?p] =>
          destruct (drawElement c mm d t e p) as [ok m3] eqn:Hd
      end.
      destruct ok; [|discriminate]. inversion H; subst; clear H.
      apply drawElement_regenerated in Hd. destruct Hd as (l & Hl & Hok & _).
      simpl. rewrite Hl, <- app_assoc. eexists. split; [reflexivity|].
      destruct (Hok eq_refl) as [(c & Hin & Hc)|He].
      * left. exists c. split; [apply in_or_app; now left|exact Hc].
      * rewrite He in Hrect. discriminate.
    + destruct (getPathRenderer _ _ _ _) as [[p s]|] eqn:Hp; simpl in H.
      * match type of H with
        | context [drawElement ?c ?mm ?d ?t ?e ?p] =>
            destruct (drawElement c mm d t e p) as [ok m3] eqn:Hd
        end.
        destruct ok; [|discriminate]. inversion H; subst; clear H.
        apply drawElement_regenerated in Hd. destruct Hd as (l & Hl & Hok & _).
        simpl. rewrite Hl, <- app_assoc. eexists. split; [reflexivity|].
        destruct (Hok eq_refl) as [(c & Hin & Hc)|He].
        -- left. exists c. split; [apply in_or_app; now left|exact Hc].
        -- right. split; [reflexivity|]. now left.
      * destruct temp as [t|].
        -- match type of H with
           | context [drawElement ?c ?mm ?d ?t ?e ?p] =>
               destruct (drawElement c mm d t e p) as [ok m3] eqn:Hd
           end.
           destruct ok; [|discriminate]. inversion H; subst; clear H.
           apply drawElement_regenerated in Hd. destruct Hd as (l & Hl & Hok & _).
           unfold mergeMask. simpl in *. rewrite Hl, <- !app_assoc. simpl.
           eexists. split; [reflexivity|].
           destruct (Hok eq_refl) as [(c & Hin & Hc)|He].
           ++ left. exists c. split; [|exact Hc].
              right. apply in_or_app. now left.
           ++ right. split; [reflexivity|]. now left.
        -- unfold createTempMask in H.
           destruct (refScratchTexture _ _ _) as [t|]; [|discriminate].
           match type of H with
           | context [drawElement ?c ?mm ?d ?t ?e ?p] =>
               destruct (drawElement c mm d t e p) as [ok m3] eqn:Hd
           end.
           destruct ok; [|discriminate]. inversion H; subst; clear H.
           apply drawElement_regenerated in Hd. destruct Hd as (l & Hl & Hok & _).
           unfold mergeMask. simpl in *. rewrite Hl, <- !app_assoc. simpl.
           eexists. split; [reflexivity|].
           destruct (Hok eq_refl) as [(c & Hin & Hc)|He].
           ++ left. exists c. split; [|exact Hc].
              right. right. apply in_or_app. now left.
           ++ right. split; [reflexivity|]. now left.
  - match type of H with
    | context [drawElement ?c ?mm ?d ?t ?e ?p] =>
        destruct (drawElement c mm d t e p) as [ok m3] eqn:Hd
    end.
    inversion H; subst; clear H.
    apply drawElement_regenerated in Hd. destruct Hd as (l & Hl & Hok & Hfail).
    exists l. split; [exact Hl|].
    destruct ok.
    + destruct (Hok eq_refl) as [(c & Hin & Hc)|He].
      * left. exists c. auto.
      * right. split; [reflexivity|]. now left.
    + destruct (Hfail eq_refl) as [Hrect Hnone].
      right. split; [reflexivity|]. right. split; [exact Hrect|]. split; [exact Hmod|].
      eexists. exact (Hnone eq_refl).
Qed.

Lemma createAlphaClipMask_loop_regenerated :
  forall context mask cb mb off els m temp m',
    createAlphaClipMask_loop context mask cb mb off m temp els = (true, m') ->
    exists l, fCommands m' = fCommands m ++ l /\
              Forall (regenerated false context l) els.
Proof.
  induction els as [|element rest IH]; intros m temp m' H; simpl in H.
  - inversion H; subst. exists []. rewrite app_nil_r. split; [reflexivity|constructor].
  - destruct (createAlphaClipMask_element _ _ _ _ _ _ _ _) as [[ok m1] temp1] eqn:He.
    destruct ok; [|discriminate].
    apply createAlphaClipMask_element_regenerated in He.
    destruct He as (l1 & Hl1 & Hr1).
    apply IH in H. destruct H as (l2 & Hl2 & Hr2).
    exists (l1 ++ l2). rewrite Hl2, Hl1, <- app_assoc. split; [reflexivity|].
    constructor.
    + pose proof (regenerated_weaken false context l1 [] l2 element Hr1) as Hw.
      exact Hw.
    + eapply Forall_impl; [|exact Hr2]. intros e Hre.
      pose proof (regenerated_weaken false context l2 l1 [] e Hre) as Hw.
      rewrite app_nil_r in Hw. exact Hw.
Qed.

Lemma createSoftwareClipMask_element_regenerated : forall context b element m,
  fScratchRequests (createSoftwareClipMask_element b m element) = fScratchRequests m /\
  exists l, fCommands (createSoftwareClipMask_element b m element) = fCommands m ++ l /\
            regenerated true context l element.
Proof.
  intros context b element m. unfold createSoftwareClipMask_element.
  destruct (Op_eqb kIntersect_Op (getOp element) ||
            Op_eqb kReverseDifference_Op (getOp element)).
  - destruct (Op_eqb kReverseDifference_Op (getOp element)); simpl;
      (split; [reflexivity|]); rewrite <- ?app_assoc;
      (eexists; split; [reflexivity|]); left; eexists;
      (split; [|right; right; reflexivity]); simpl; auto.
  - destruct (isRect (getType element)); simpl; (split; [reflexivity|]);
      (eexists; split; [reflexivity|]); left; eexists;
      (split; [left; reflexivity|]); simpl; auto.
Qed.

Lemma createSoftwareClipMask_fold_regenerated : forall context b els m,
  fScratchRequests (fold_left (createSoftwareClipMask_element b) els m)
  = fScratchRequests m /\
  exists l, fCommands (fold_left (createSoftwareClipMask_element b) els m)
            = fCommands m ++ l /\
            Forall (regenerated true context l) els.
Proof.
  induction els as [|element rest IH]; intros m; simpl.
  - split; [reflexivity|]. exists []. rewrite app_nil_r. split; [reflexivity|constructor].
  - destruct (createSoftwareClipMask_element_regenerated context b element m)
      as (Hn1 & l1 & Hl1 & Hr1).
    destruct (IH (createSoftwareClipMask_element b m element)) as (Hn2 & l2 & Hl2 & Hr2).
    split; [congruence|].
    exists (l1 ++ l2). rewrite Hl2, Hl1, <- app_assoc. split; [reflexivity|].
    constructor.
    + exact (regenerated_weaken true context l1 [] l2 element Hr1).
    + eapply Forall_impl; [|exact Hr2]. intros e Hre.
      pose proof (regenerated_weaken true context l2 l1 [] e Hre) as Hw.
      rewrite app_nil_r in Hw. exact Hw.
Qed.

Lemma drawElement_direct : forall context m ds target element,
  exists l, fCommands (snd (drawElement context m ds target element None))
            = fCommands m ++ l /\
            fAACache (snd (drawElement context m ds target element None)) = fAACache m /\
            Forall (fun c => drawnShape context c /\
                             (isRect (getType element) = false ->
                              exists p d, c = drawPath p d (nonInverse (asPath element))
                                                       (isAA element))) l.
Proof.
  intros context m ds target element. unfold drawElement.
  destruct (getType element) eqn:Ht.
  - exists []. simpl. rewrite app_nil_r. repeat split. constructor.
  - destruct (isAA element); simpl; (eexists; split; [reflexivity|]);
      (split; [reflexivity|]); (constructor; [|constructor]);
      (split; [exact I|discriminate]).
  - destruct (getPathRenderer _ _ _ _) as [[p s]|] eqn:Hp; simpl.
    + eexists. split; [reflexivity|]. split; [reflexivity|].
      constructor; [|constructor]. split; [simpl; rewrite Hp; discriminate|].
      intros _. eauto.
    + exists []. rewrite app_nil_r. repeat split. constructor.
  - destruct (getPathRenderer _ _ _ _) as [[p s]|] eqn:Hp; simpl.
    + eexists. split; [reflexivity|]. split; [reflexivity|].
      constructor; [|constructor]. split; [simpl; rewrite Hp; discriminate|].
      intros _. eauto.
    + exists []. rewrite app_nil_r. repeat split. constructor.
Qed.

Lemma createAlphaClipMask_loop_direct :
  forall context mask cb mb off els m temp,
    forallb (fun e => negb (modifiesOutside e)) els = true ->
    exists m' l,
      createAlphaClipMask_loop context mask cb mb off m temp els = (true, m') /\
      fCommands m' = fCommands m ++ l /\
      fAACache m' = fAACache m /\
      Forall (drawnShape context) l.
Proof.
  induction els as [|element rest IH]; intros m temp Hall; simpl.
  - exists m, []. rewrite app_nil_r. repeat split. constructor.
  - simpl in Hall. apply andb_true_iff in Hall. destruct Hall as [He Hrest].
    apply negb_true_iff in He.
    unfold createAlphaClipMask_element. rewrite He.
    match goal with
    | |- context [drawElement ?c ?mm ?d ?t ?e None] =>
        destruct (drawElement_direct c mm d t e) as (l1 & Hl1 & Hc1 & Hd1);
        destruct (drawElement c mm d t e None) as [ok m1]
    end.
    simpl in Hl1, Hc1.
    destruct (IH m1 temp Hrest) as (m' & l2 & Hloop & Hl2 & Hc2 & Hd2).
    exists m', (l1 ++ l2). rewrite Hloop, Hl2, Hl1, <- app_assoc.
    split; [reflexivity|]. split; [reflexivity|]. split; [congruence|].
    apply Forall_app. split; [|exact Hd2].
    eapply Forall_impl; [|exact Hd1]. intros c [H _]. exact H.
Qed.

(** What a builder does when the lookup misses: it acquires a new mask
    texture for the key and, when it returns the mask, has brought it to the
    initial state, gone through every element and left it in the cache
    under the key.  It returns NULL, with the cache empty, only when the
    texture cannot be allocated or, on the GPU path, when not every element
    is drawn directly. *)
Lemma createClipMask_regenerates : forall software context m g st els b,
  getCachedMaskTexture m g b = None ->
  let r := createClipMask software context m g st els b in
  exists desc,
    In (acquireMask g desc b) (issuedSince m (snd r)) /\
    match fst r with
    | None =>
        fAACache (snd r) = None /\
        (refScratchTexture context (fScratchRequests m) desc = None \/
         (software = false /\
          forallb (fun e => negb (modifiesOutside e)) els = false))
    | Some mask =>
        refScratchTexture context (fScratchRequests m) desc = Some mask /\
        fAACache (snd r) = cached g b mask /\
        In (initialClear software st b mask) (issuedSince m (snd r)) /\
        Forall (regenerated software context (issuedSince m (snd r))) els
    end.
Proof.
  intros software context m g st els b Hmiss r. subst r.
  unfold createClipMask, issuedSince.
  destruct software.
  - unfold createSoftwareClipMask. rewrite Hmiss.
    destruct (createSoftwareClipMask_fold_regenerated context b els
                (issue (helper_clear (if isAllIn st then 255 else 0))
                   (issue (helper_init
                             (SkIRect.MakeWH (SkIRect.width b) (SkIRect.height b))
                             (MatrixTranslate (SkIntToScalar (- SkIRect.fLeft b))
                                              (SkIntToScalar (- SkIRect.fTop b)))) m)))
      as (Hn & l & Hl & Hr).
    unfold allocMaskTexture, fAACache_acquireMask. simpl in *.
    rewrite Hn.
    match goal with
    | |- context [refScratchTexture context (fScratchRequests m) ?d] =>
        exists d; destruct (refScratchTexture context (fScratchRequests m) d)
          as [mask|] eqn:Halloc
    end; simpl; rewrite Hl, <- !app_assoc, skipn_length_app; simpl.
    + split; [right; right; apply in_or_app; right; simpl; auto|].
      split; [reflexivity|]. split; [reflexivity|]. split; [auto|].
      eapply Forall_impl; [|exact Hr]. intros e Hre.
      eapply regenerated_incl; [|exact Hre].
      intros c Hc. right. right. apply in_or_app. now left.
    + split; [right; right; apply in_or_app; right; simpl; auto|].
      split; [reflexivity|]. now left.
  - unfold createAlphaClipMask. rewrite Hmiss.
    unfold allocMaskTexture, fAACache_acquireMask. simpl.
    match goal with
    | |- context [refScratchTexture context (fScratchRequests m) ?d] =>
        exists d; destruct (refScratchTexture context (fScratchRequests m) d)
          as [mask|] eqn:Halloc
    end; simpl.
    + match goal with
      | |- context [createAlphaClipMask_loop ?c ?r ?cb ?mb ?o ?mm ?t ?e] =>
          destruct (createAlphaClipMask_loop c r cb mb o mm t e) as [ok m3] eqn:Hloop
      end.
      pose proof Hloop as Hfacts.
      apply createAlphaClipMask_loop_facts in Hfacts.
      destruct Hfacts as (_ & Hcache & l0 & Hl0).
      destruct ok; simpl.
      * apply createAlphaClipMask_loop_regenerated in Hloop.
        destruct Hloop as (l & Hl & Hr). simpl in Hl, Hcache.
        rewrite Hl, <- !app_assoc, skipn_length_app. simpl.
        split; [auto|]. split; [reflexivity|]. split; [exact Hcache|].
        split; [auto|].
        eapply Forall_impl; [|exact Hr]. intros e Hre.
        eapply regenerated_incl; [|exact Hre].
        intros c Hc. right. right. exact Hc.
      * simpl in Hl0. rewrite Hl0, <- !app_assoc, skipn_length_app. simpl.
        split; [auto|]. split; [exact Hcache|]. right. split; [reflexivity|].
        destruct (forallb (fun e => negb (modifiesOutside e)) els) eqn:Hall;
          [|reflexivity].
        match type of Hloop with
        | createAlphaClipMask_loop ?c ?r ?cb ?mb ?o ?mm ?t ?e = _ =>
            destruct (createAlphaClipMask_loop_direct c r cb mb o e mm t Hall)
              as (m' & l' & Hd & _)
        end.
        rewrite Hd in Hloop. discriminate.
    + rewrite skipn_length_app. simpl. split; [auto|]. split; [reflexivity|]. now left.
Qed.

(** C7.  After a mask construction that returned a mask for generation id
    [g] and bounds [b], consider the next construction, by either builder, on
    a manager whose cache is as the first one left it.  If it asks for the
    same generation id and the same bounds, it returns that very mask, issues
    no command and requests no texture.  If the generation id or the bounds
    differ, the lookup misses and the mask is built anew: a texture is
    acquired for the new key, and when the construction returns a mask, it is
    that new texture, brought to the clip's initial state, with every
    element gone through (drawn, unless it is empty or a directly drawn path
    without a path renderer), and kept in the cache under the new key.  It
    returns NULL, with the cache empty, only when the texture cannot be
    allocated or, on the GPU path, when not every element is drawn
    directly.  Either way the mask of the old key is no longer found. *)
Theorem mask_cache_reuse :
  forall context software1 software2 m g st els b t m2 g' b' st2 els2,
    fst (createClipMask software1 context m g st els b) = Some t ->
    fAACache m2 = fAACache (snd (createClipMask software1 context m g st els b)) ->
    let second := createClipMask software2 context m2 g' st2 els2 b' in
    if (g' =? g) && SkIRect.eqb b' b
    then fst second = Some t /\
         issuedSince m2 (snd second) = [] /\
         fScratchRequests (snd second) = fScratchRequests m2 /\
         fAACache (snd second) = fAACache m2
    else getCachedMaskTexture m2 g' b' = None /\
         getCachedMaskTexture (snd second) g b = None /\
         exists desc,
           In (acquireMask g' desc b') (issuedSince m2 (snd second)) /\
           match fst second with
           | None =>
               fAACache (snd second) = None /\
               (refScratchTexture context (fScratchRequests m2) desc = None \/
                (software2 = false /\
                 forallb (fun e => negb (modifiesOutside e)) els2 = false))
           | Some mask =>
               refScratchTexture context (fScratchRequests m2) desc = Some mask /\
               fAACache (snd second) = cached g' b' mask /\
               In (initialClear software2 st2 b' mask) (issuedSince m2 (snd second)) /\
               Forall (regenerated software2 context (issuedSince m2 (snd second))) els2
           end.
Proof.
  intros context software1 software2 m g st els b t m2 g' b' st2 els2 Hfirst Hcache second.
  destruct (createClipMask_facts software1 context m g st els b) as [Hc _].
  rewrite Hfirst in Hc. rewrite Hc in Hcache.
  destruct (createClipMask_facts software2 context m2 g' st2 els2 b') as [Hc2 Hhit].
  fold second in Hc2, Hhit.
  destruct ((g' =? g) && SkIRect.eqb b' b) eqn:Hkey.
  - apply andb_true_iff in Hkey. destruct Hkey as [Hg Hb].
    apply Z.eqb_eq in Hg. apply SkIRect_eqb_eq in Hb. subst g' b'.
    rewrite (getCachedMaskTexture_cached m2 g b t Hcache) in Hhit.
    destruct Hhit as (Hr & Hl & Hn).
    rewrite Hr in Hc2. unfold issuedSince. rewrite Hl, skipn_all, Hc2, Hcache. auto.
  - assert (Hne : g' <> g \/ b' <> b).
    { apply andb_false_iff in Hkey. destruct Hkey as [Hg|Hb].
      - left. now apply Z.eqb_neq.
      - right. intros ->. now rewrite SkIRect_eqb_refl in Hb. }
    pose proof (getCachedMaskTexture_other m2 g b t g' b' Hcache Hne) as Hmiss.
    split; [exact Hmiss|].
    split.
    + destruct (fst second) as [mask|].
      * apply (getCachedMaskTexture_other _ g' b' mask g b Hc2).
        destruct Hne as [Hg|Hb]; [left|right]; congruence.
      * now apply getCachedMaskTexture_empty.
    + exact (createClipMask_regenerates software2 context m2 g' st2 els2 b' Hmiss).
Qed.

(** C7 at sample inputs: a hit by the software builder after the GPU
    builder, and a miss on another generation id. *)
Lemma mask_cache_reuse_witness :
  let first := createClipMask false Samples.allRenderers Samples.manager0 5
                 kAllIn_InitialState [Samples.rectElement kUnion_Op true]
                 Samples.bounds50 in
  exists t,
    fst first = Some t /\
    (let second := createClipMask true Samples.allRenderers (snd first) 5
                     kAllOut_InitialState [] Samples.bounds50 in
     fst second = Some t /\
     issuedSince (snd first) (snd second) = [] /\
     fScratchRequests (snd second) = fScratchRequests (snd first) /\
     fAACache (snd second) = fAACache (snd first)) /\
    (let second := createClipMask false Samples.allRenderers (snd first) 6
                     kAllIn_InitialState [Samples.rectElement kUnion_Op true]
                     Samples.bounds50 in
     getCachedMaskTexture (snd first) 6 Samples.bounds50 = None /\
     getCachedMaskTexture (snd second) 5 Samples.bounds50 = None /\
     exists desc,
       In (acquireMask 6 desc Samples.bounds50) (issuedSince (snd first) (snd second)) /\
       match fst second with
       | None =>
           fAACache (snd second) = None /\
           (refScratchTexture Samples.allRenderers (fScratchRequests (snd first)) desc
            = None \/
            (false = false /\
             forallb (fun e => negb (modifiesOutside e))
                     [Samples.rectElement kUnion_Op true] = false))
       | Some mask =>
           refScratchTexture Samples.allRenderers (fScratchRequests (snd first)) desc
           = Some mask /\
           fAACache (snd second) = cached 6 Samples.bounds50 mask /\
           In (initialClear false kAllIn_InitialState Samples.bounds50 mask)
              (issuedSince (snd first) (snd second)) /\
           Forall (regenerated false Samples.allRenderers
                               (issuedSince (snd first) (snd second)))
                  [Samples.rectElement kUnion_Op true]
       end).
Proof.
  intros first.
  assert (Hfirst : fst first
                   = Some (Samples.maskTexture 0
                             {| fFlags_RenderTarget := true; fFlags_NoStencil := false;
                                fWidth := 50; fHeight := 50;
                                fConfig := kAlpha_8_GrPixelConfig |}))
    by reflexivity.
  eexists. split; [exact Hfirst|]. split.
  - exact (mask_cache_reuse Samples.allRenderers false true Samples.manager0 5
             kAllIn_InitialState [Samples.rectElement kUnion_Op true] Samples.bounds50
             _ (snd first) 5 Samples.bounds50 kAllOut_InitialState []
             Hfirst eq_refl).
  - exact (mask_cache_reuse Samples.allRenderers false false Samples.manager0 5
             kAllIn_InitialState [Samples.rectElement kUnion_Op true] Samples.bounds50
             _ (snd first) 6 Samples.bounds50 kAllIn_InitialState
             [Samples.rectElement kUnion_Op true]
             Hfirst eq_refl).
Defined.

(** Whenever [createAlphaClipMask] or [createSoftwareClipMask] returns
    NULL, the mask cache is empty on return, so that no later lookup, for
    any generation id and bounds, finds a mask. *)
Lemma failed_mask_resets_cache :
  forall software context m g st els b,
    fst (createClipMask software context m g st els b) = None ->
    fAACache (snd (createClipMask software context m g st els b)) = None /\
    forall g' b',
      getCachedMaskTexture (snd (createClipMask software context m g st els b)) g' b'
      = None.
Proof.
  intros software context m g st els b H.
  destruct (createClipMask_facts software context m g st els b) as [Hc _].
  rewrite H in Hc. split; [exact Hc|].
  intros g' b'. now apply getCachedMaskTexture_empty.
Qed.




(** C3, as amended.  The coefficients [setup_boolean_blendcoeffs] installs
    are: replace (one, zero); intersect (dst-colour, zero); union (one,
    inverse-src-colour); xor (inverse-dst-colour, inverse-src-colour);
    difference (zero, inverse-src-colour); reverse-difference
    (inverse-dst-colour, zero).  And while an element is composed into the
    alpha mask, every draw blends with the coefficients of the element's
    operator, except the draw of the shape into the scratch texture, which
    replaces. *)
Theorem setup_boolean_blendcoeffs_table :
  (forall ds,
     blendFunc (setup_boolean_blendcoeffs kReplace_Op ds)
       = (kOne_GrBlendCoeff, kZero_GrBlendCoeff) /\
     blendFunc (setup_boolean_blendcoeffs kIntersect_Op ds)
       = (kDC_GrBlendCoeff, kZero_GrBlendCoeff) /\
     blendFunc (setup_boolean_blendcoeffs kUnion_Op ds)
       = (kOne_GrBlendCoeff, kISC_GrBlendCoeff) /\
     blendFunc (setup_boolean_blendcoeffs kXOR_Op ds)
       = (kIDC_GrBlendCoeff, kISC_GrBlendCoeff) /\
     blendFunc (setup_boolean_blendcoeffs kDifference_Op ds)
       = (kZero_GrBlendCoeff, kISC_GrBlendCoeff) /\
     blendFunc (setup_boolean_blendcoeffs kReverseDifference_Op ds)
       = (kIDC_GrBlendCoeff, kZero_GrBlendCoeff)) /\
  (forall context result cb mb off m temp element,
     let r := createAlphaClipMask_element context result cb mb off m temp element in
     Forall (accumulatorBlend element (snd r)) (issuedSince m (snd (fst r)))).
Proof.
  split.
  - intros ds. repeat split.
  - intros context result cb mb off m temp element r.
    destruct r as [[ok m'] temp'] eqn:Hr. subst r.
    apply createAlphaClipMask_element_facts in Hr.
    destruct Hr as (_ & _ & l & Hl & Hall).
    simpl. unfold issuedSince. now rewrite Hl, skipn_length_app.
Qed.

(** C8 at a sample input: the first element gets its processor, the second
    has the union operator. *)
Lemma installClipEffects_all_or_nothing_witness :
  let clip := Samples.stack [Samples.rectElement kUnion_Op true] kAllOut_InitialState
                            Samples.bounds50 true in
  existsb (yieldsNoProcessor Samples.allRenderers (clipToRTOffset clip)
             (targetIsMultisampled Samples.drawState)
             (boundsInClipSpace (clipToRTOffset clip) None))
          [Samples.rectElement kIntersect_Op true; Samples.rectElement kUnion_Op true]
  = true /\
  installClipEffects Samples.allRenderers Samples.drawState None
    [Samples.rectElement kIntersect_Op true; Samples.rectElement kUnion_Op true]
    (clipToRTOffset clip) None
  = (false, Samples.drawState, None).
Proof.
  intros clip. split; [reflexivity|].
  apply installClipEffects_all_or_nothing. reflexivity.
Defined.

(** The result of the [drawElement] call in the direct-draw branch of
    [createAlphaClipMask] is not looked at: with no path renderer for a
    union path element the builder still returns the mask and keeps it in
    the cache, with only the allocation and the clear issued. *)
Remark createAlphaClipMask_unchecked_direct_draw :
  let r := createAlphaClipMask Samples.noRenderer Samples.manager0 5 kAllOut_InitialState
             [Samples.pathElement kUnion_Op true] Samples.bounds50 in
  fst (drawElement Samples.noRenderer Samples.manager0 (GrDrawState_new MatrixI)
         (Samples.maskTexture 0
            {| fFlags_RenderTarget := true; fFlags_NoStencil := false;
               fWidth := 50; fHeight := 50; fConfig := kAlpha_8_GrPixelConfig |})
         (Samples.pathElement kUnion_Op true) None) = false /\
  fst r <> None /\
  fAACache (snd r) <> None /\
  length (issuedSince Samples.manager0 (snd r)) = 2%nat.
Proof. vm_compute. repeat split; discriminate. Qed.

(* ================================================================== *)
(** ** Further properties of the clip mask manager *)


(* ---------- stencil resolver ---------- *)

Lemma land_mod_pow2_pow2 : forall x k, 0 <= k -> Z.land (x mod 2 ^ k) (2 ^ k) = 0.
Proof.
  intros x k Hk. apply Z.bits_inj'. intros i Hi.
  rewrite Z.land_spec, Z.bits_0, Z.pow2_bits_eqb by lia.
  destruct (Z.eqb_spec k i) as [->|Hne].
  - rewrite Z.mod_pow2_bits_high by lia. reflexivity.
  - apply andb_false_r.
Qed.

Lemma lor_userBits_clipBit : forall x n,
  1 <= n <= 16 ->
  to_u16 (Z.lor (Z.land x (Z.ones (n - 1))) (2 ^ (n - 1)))
  = Z.land x (Z.ones (n - 1)) + 2 ^ (n - 1).
Proof.
  intros x n Hn.
  rewrite Z.land_ones by lia.
  pose proof (Z.add_lor_land (x mod 2 ^ (n - 1)) (2 ^ (n - 1))) as Hadd.
  rewrite land_mod_pow2_pow2 in Hadd by lia.
  rewrite Z.add_0_r in Hadd. rewrite Hadd.
  unfold to_u16. apply Z.mod_small.
  assert (0 <= x mod 2 ^ (n - 1) < 2 ^ (n - 1))
    by (apply Z.mod_pos_bound, Z.pow_pos_nonneg; lia).
  assert (2 ^ (n - 1) + 2 ^ (n - 1) = 2 ^ n).
  { replace n with (Z.succ (n - 1)) at 3 by lia. rewrite Z.pow_succ_r by lia. lia. }
  assert (2 ^ n <= 2 ^ 16) by (apply Z.pow_le_mono_r; lia).
  lia.
Qed.

Lemma clipBit_u16 : forall n, 1 <= n <= 16 -> to_u16 (2 ^ (n - 1)) = 2 ^ (n - 1).
Proof.
  intros n Hn. unfold to_u16. apply Z.mod_small.
  split; [apply Z.pow_nonneg; lia|apply Z.pow_lt_mono_r; lia].
Qed.



Lemma adjustFace_respect : forall n s,
  1 <= n <= 16 ->
  adjustFace kRespectClip_StencilClipMode (2 ^ (n - 1)) (Z.ones (n - 1)) s
  = respectFace (2 ^ (n - 1)) (Z.ones (n - 1)) s.
Proof.
  intros n s Hn. unfold adjustFace, respectFace.
  assert (Hw : forall x, to_u16 (Z.land x (Z.ones (n - 1))) = Z.land x (Z.ones (n - 1)))
    by (intros x; apply land_ones_u16; lia).
  destruct (func s) eqn:Hf; simpl;
    rewrite ?Hw, ?lor_userBits_clipBit, ?clipBit_u16 by assumption; reflexivity.
Qed.

Lemma adjustFace_ignore : forall n s,
  1 <= n <= 16 ->
  adjustFace kIgnoreClip_StencilClipMode (2 ^ (n - 1)) (Z.ones (n - 1)) s
  = ignoreFace (Z.ones (n - 1)) s.
Proof.
  intros n s Hn. unfold adjustFace, ignoreFace.
  assert (Hw : forall x, to_u16 (Z.land x (Z.ones (n - 1))) = Z.land x (Z.ones (n - 1)))
    by (intros x; apply land_ones_u16; lia).
  destruct (func s) eqn:Hf; simpl; rewrite ?Hw; reflexivity.
Qed.

(** The shape of the result in the two modes that adjust. *)
Lemma adjustStencilParams_faces : forall twoSided settings mode n,
  1 <= n <= 16 ->
  mode <> kModifyClip_StencilClipMode ->
  let face := adjustFace mode (2 ^ (n - 1)) (Z.ones (n - 1)) in
  adjustStencilParams twoSided settings mode n
  = {| front := face (front settings);
       back := if twoSided then face (back settings) else face (front settings) |}.
Proof.
  intros twoSided settings mode n Hn Hmode face. subst face.
  unfold adjustStencilParams.
  rewrite userBits_ones, clipBit_pow2 by assumption.
  destruct mode; [congruence| |]; destruct twoSided; reflexivity.
Qed.

Lemma adjustStencilParams_respect :
  forall twoSided settings n,
    1 <= n <= 16 ->
    let face := respectFace (2 ^ (n - 1)) (Z.ones (n - 1)) in
    adjustStencilParams twoSided settings kRespectClip_StencilClipMode n
    = {| front := face (front settings);
         back := if twoSided then face (back settings) else face (front settings) |}.
Proof.
  intros twoSided settings n Hn face. subst face.
  rewrite adjustStencilParams_faces by (assumption || discriminate).
  rewrite !adjustFace_respect by assumption. reflexivity.
Qed.

Lemma adjustStencilParams_ignore :
  forall twoSided settings n,
    1 <= n <= 16 ->
    let face := ignoreFace (Z.ones (n - 1)) in
    adjustStencilParams twoSided settings kIgnoreClip_StencilClipMode n
    = {| front := face (front settings);
         back := if twoSided then face (back settings) else face (front settings) |}.
Proof.
  intros twoSided settings n Hn face. subst face.
  rewrite adjustStencilParams_faces by (assumption || discriminate).
  rewrite !adjustFace_ignore by assumption. reflexivity.
Qed.

Lemma land_ones_clipBit : forall x n, 1 <= n -> Z.land (Z.land x (Z.ones (n - 1))) (2 ^ (n - 1)) = 0.
Proof. intros x n Hn. rewrite Z.land_ones by lia. apply land_mod_pow2_pow2. lia. Qed.

(** X13. Outside Modify mode, adjusted settings never write the clip bit and
    hold no clip-relative function, on either face. *)
Theorem adjustStencilParams_keeps_clip_bit :
  forall twoSided settings mode n,
    1 <= n <= 16 ->
    mode <> kModifyClip_StencilClipMode ->
    let s := adjustStencilParams twoSided settings mode n in
    Z.land (writeMask (front s)) (2 ^ (n - 1)) = 0 /\
    Z.land (writeMask (back s)) (2 ^ (n - 1)) = 0 /\
    isBasicFunc (func (front s)) = true /\
    isBasicFunc (func (back s)) = true.
Proof.
  intros twoSided settings mode n Hn Hmode s. subst s.
  destruct mode; [congruence| |].
  - rewrite adjustStencilParams_respect by assumption.
    destruct twoSided; simpl; rewrite !land_ones_clipBit by lia;
      repeat split; try (destruct (func (front settings)); reflexivity);
      destruct (func (back settings)); reflexivity.
  - rewrite adjustStencilParams_ignore by assumption.
    destruct twoSided; simpl; rewrite !land_ones_clipBit by lia;
      repeat split; try (destruct (func (front settings)); reflexivity);
      destruct (func (back settings)); reflexivity.
Qed.

(** X13 at a sample input. *)
Lemma adjustStencilParams_keeps_clip_bit_witness :
  let s := adjustStencilParams true Samples.nonZeroRefOne kRespectClip_StencilClipMode 8 in
  (1 <= 8 <= 16 /\ kRespectClip_StencilClipMode <> kModifyClip_StencilClipMode) /\
  Z.land (writeMask (front s)) (2 ^ (8 - 1)) = 0 /\
  Z.land (writeMask (back s)) (2 ^ (8 - 1)) = 0 /\
  isBasicFunc (func (front s)) = true /\
  isBasicFunc (func (back s)) = true.
Proof.
  intros s.
  assert (Hn : 1 <= 8 <= 16) by lia.
  assert (Hmode : kRespectClip_StencilClipMode <> kModifyClip_StencilClipMode)
    by discriminate.
  exact (conj (conj Hn Hmode)
              (adjustStencilParams_keeps_clip_bit true Samples.nonZeroRefOne
                 kRespectClip_StencilClipMode 8 Hn Hmode)).
Defined.

Lemma ignoreFace_idempotent : forall u s, ignoreFace u (ignoreFace u s) = ignoreFace u s.
Proof.
  intros u s. unfold ignoreFace. simpl.
  rewrite <- !Z.land_assoc, Z.land_diag.
  destruct (func s); reflexivity.
Qed.

(** X15. Adjusting for Ignore mode twice is adjusting once. *)
Theorem adjustStencilParams_ignore_idempotent :
  forall twoSided settings n,
    1 <= n <= 16 ->
    adjustStencilParams twoSided
      (adjustStencilParams twoSided settings kIgnoreClip_StencilClipMode n)
      kIgnoreClip_StencilClipMode n
    = adjustStencilParams twoSided settings kIgnoreClip_StencilClipMode n.
Proof.
  intros twoSided settings n Hn.
  rewrite !adjustStencilParams_ignore by assumption.
  destruct twoSided; simpl; rewrite !ignoreFace_idempotent; reflexivity.
Qed.

(** X15 at a sample input. *)
Lemma adjustStencilParams_ignore_idempotent_witness :
  1 <= 8 <= 16 /\
  adjustStencilParams true
    (adjustStencilParams true Samples.nonZeroRefOne kIgnoreClip_StencilClipMode 8)
    kIgnoreClip_StencilClipMode 8
  = adjustStencilParams true Samples.nonZeroRefOne kIgnoreClip_StencilClipMode 8.
Proof.
  assert (Hn : 1 <= 8 <= 16) by lia.
  exact (conj Hn (adjustStencilParams_ignore_idempotent true Samples.nonZeroRefOne 8 Hn)).
Defined.

Lemma respect_clip_bit_absorb : forall x n,
  1 <= n -> Z.land (Z.land x (Z.ones (n - 1)) + 2 ^ (n - 1)) (2 ^ (n - 1)) = 2 ^ (n - 1).
Proof.
  intros x n Hn. rewrite Z.land_ones by lia.
  pose proof (Z.add_lor_land (x mod 2 ^ (n - 1)) (2 ^ (n - 1))) as Hadd.
  rewrite land_mod_pow2_pow2 in Hadd by lia. rewrite Z.add_0_r in Hadd.
  rewrite <- Hadd. apply Z.bits_inj'. intros i Hi.
  rewrite Z.land_spec, Z.lor_spec.
  destruct (Z.testbit (2 ^ (n - 1)) i); [now rewrite orb_true_r|apply andb_false_r].
Qed.

(** X14. In Respect mode every clip-relative function tests the clip bit:
    it is set in the function mask and in the reference. *)
Theorem adjustStencilParams_respect_tests_clip_bit :
  forall twoSided settings n,
    1 <= n <= 16 ->
    isBasicFunc (func (front settings)) = false ->
    let s := adjustStencilParams twoSided settings kRespectClip_StencilClipMode n in
    Z.land (funcMask (front s)) (2 ^ (n - 1)) = 2 ^ (n - 1) /\
    Z.land (funcRef (front s)) (2 ^ (n - 1)) = 2 ^ (n - 1).
Proof.
  intros twoSided settings n Hn Hclip s. subst s.
  rewrite adjustStencilParams_respect by assumption. simpl.
  destruct (func (front settings)); try discriminate Hclip;
    rewrite ?respect_clip_bit_absorb, ?Z.land_diag by lia; auto.
Qed.

(** X14 at a sample input. *)
Lemma adjustStencilParams_respect_tests_clip_bit_witness :
  let s := adjustStencilParams true Samples.nonZeroRefOne kRespectClip_StencilClipMode 8 in
  (1 <= 8 <= 16 /\ isBasicFunc (func (front Samples.nonZeroRefOne)) = false) /\
  Z.land (funcMask (front s)) (2 ^ (8 - 1)) = 2 ^ (8 - 1) /\
  Z.land (funcRef (front s)) (2 ^ (8 - 1)) = 2 ^ (8 - 1).
Proof.
  intros s.
  assert (Hn : 1 <= 8 <= 16) by lia.
  exact (conj (conj Hn eq_refl)
              (adjustStencilParams_respect_tests_clip_bit true Samples.nonZeroRefOne 8
                 Hn eq_refl)).
Defined.

(* ---------- setupClipping ---------- *)

(** X2. On a draw state with a render target, [setupClipping] answers false
    in one case only: clipping is enabled, the stack is not wide open and
    reduces to no element with nothing let through. *)
Theorem setupClipping_false_iff :
  forall context m ds are ars sc clipDataIn devBounds rt,
    fRenderTarget ds = Some rt ->
    result (setupClipping context m ds are ars sc clipDataIn devBounds) = false <->
    (kClip_StateBit ds = true /\
     isWideOpen (fClipStack clipDataIn) = false /\
     elements (reducedClip rt clipDataIn) = [] /\
     initialState (reducedClip rt clipDataIn) = kAllOut_InitialState).
Proof.
  intros context m ds are ars sc clipDataIn devBounds rt Hrt.
  unfold setupClipping. rewrite Hrt. fold (reducedClip rt clipDataIn).
  pose proof (returnTrue_facts context (setupClipping_enter m) ds are ars sc) as Ht.
  simpl in Ht. destruct Ht as (Ht & _).
  pose proof (setupClipping_clip_facts context (setupClipping_enter m) rt ds are ars sc
                clipDataIn devBounds (reducedClip rt clipDataIn)) as Hc.
  simpl in Hc. destruct Hc as (Hc & _).
  destruct (kClip_StateBit ds); simpl.
  - destruct (isWideOpen (fClipStack clipDataIn)); simpl.
    + rewrite Ht. split; [discriminate|]. intros (_ & H & _). discriminate.
    + destruct (elements (reducedClip rt clipDataIn)) as [|e els].
      * destruct (initialState (reducedClip rt clipDataIn)); simpl.
        -- destruct (SkIRect.eqb _ _); rewrite ?Ht, ?Hc;
             (split; [discriminate|]); intros (_ & _ & _ & H); discriminate.
        -- tauto.
      * rewrite Hc. split; [discriminate|]. intros (_ & _ & H & _). discriminate.
  - rewrite Ht. split; [discriminate|]. intros (H & _). discriminate.
Qed.

(** X2 at a sample input: an empty reduced clip that lets nothing through. *)
Lemma setupClipping_false_iff_witness :
  let clip := Samples.stack [] kAllOut_InitialState Samples.bounds50 false in
  fRenderTarget Samples.drawState = Some Samples.rt /\
  (result (setupClipping Samples.allRenderers Samples.manager0 Samples.drawState None None
                         Samples.scissor0 clip None) = false <->
   (kClip_StateBit Samples.drawState = true /\
    isWideOpen (fClipStack clip) = false /\
    elements (reducedClip Samples.rt clip) = [] /\
    initialState (reducedClip Samples.rt clip) = kAllOut_InitialState)).
Proof.
  intros clip.
  exact (conj eq_refl
              (setupClipping_false_iff Samples.allRenderers Samples.manager0
                 Samples.drawState None None Samples.scissor0 clip None Samples.rt eq_refl)).
Defined.

(** X1. With clipping disabled in the draw state, or a clip stack that is
    wide open, [setupClipping] succeeds and does nothing: the scissor, the
    mask cache, the processor chains and the effects guard are as they were,
    the mask type is None, nothing is issued and no builder runs. *)
Theorem setupClipping_without_clip :
  forall context m ds are ars sc clipDataIn devBounds rt,
    fRenderTarget ds = Some rt ->
    kClip_StateBit ds = false \/ isWideOpen (fClipStack clipDataIn) = true ->
    let o := setupClipping context m ds are ars sc clipDataIn devBounds in
    result o = true /\
    outScissorState o = sc /\
    fCurrClipMaskType (manager o) = kNone_ClipMaskType /\
    fAACache (manager o) = fAACache m /\
    issuedSince m (manager o) = [] /\
    ranSince m (manager o) = [] /\
    fCoverageStages (outDrawState o) = fCoverageStages ds /\
    fColorStages (outDrawState o) = fColorStages ds /\
    outAre o = are.
Proof.
  intros context m ds are ars sc clipDataIn devBounds rt Hrt Hno o. subst o.
  unfold setupClipping. rewrite Hrt.
  assert (Hcond : negb (kClip_StateBit ds) || isWideOpen (fClipStack clipDataIn) = true).
  { destruct Hno as [-> | ->]; [reflexivity|apply orb_true_r]. }
  rewrite Hcond.
  destruct (returnTrue_facts context (setupClipping_enter m) ds are ars sc)
    as (Hres & Hm & Hare & Hsc & Hcolor & Hcov).
  rewrite Hres, Hm, Hare, Hsc, Hcolor, Hcov.
  unfold issuedSince, ranSince, setupClipping_enter.
  destruct (isRespectClip _); simpl; rewrite !skipn_all; repeat split.
Qed.

(** X1 at a sample input: a draw state whose clip bit is off. *)
Lemma setupClipping_without_clip_witness :
  let ds := setRenderTarget Samples.rt (GrDrawState_new MatrixI) in
  let clip := Samples.stack [Samples.rectElement kIntersect_Op true] kAllOut_InitialState
                            Samples.bounds50 true in
  let o := setupClipping Samples.allRenderers Samples.manager0 ds None None
                         Samples.scissor0 clip None in
  (fRenderTarget ds = Some Samples.rt /\
   (kClip_StateBit ds = false \/ isWideOpen (fClipStack clip) = true)) /\
  result o = true /\
  outScissorState o = Samples.scissor0 /\
  fCurrClipMaskType (manager o) = kNone_ClipMaskType /\
  fAACache (manager o) = fAACache Samples.manager0 /\
  issuedSince Samples.manager0 (manager o) = [] /\
  ranSince Samples.manager0 (manager o) = [] /\
  fCoverageStages (outDrawState o) = fCoverageStages ds /\
  fColorStages (outDrawState o) = fColorStages ds /\
  outAre o = None.
Proof.
  intros ds clip o.
  exact (conj (conj eq_refl (or_introl eq_refl))
              (setupClipping_without_clip Samples.allRenderers Samples.manager0 ds None None
                 Samples.scissor0 clip None Samples.rt eq_refl (or_introl eq_refl))).
Defined.

(* ---------- frames ---------- *)



Lemma sameClipState_refl : forall m, sameClipState m m.
Proof. intros m. repeat split. Qed.

Lemma sameClipState_trans : forall m1 m2 m3,
  sameClipState m1 m2 -> sameClipState m2 m3 -> sameClipState m1 m3.
Proof.
  intros m1 m2 m3 (A & B & C) (A' & B' & C').
  repeat split; congruence.
Qed.

Lemma drawElement_sameClipState : forall context m ds target element pr,
  sameClipState m (snd (drawElement context m ds target element pr)).
Proof.
  intros. unfold drawElement, sameClipState. break_match; simpl; auto.
Qed.

Lemma createAlphaClipMask_element_sameClipState :
  forall context mask cb mb off m temp element,
    sameClipState m (snd (fst (createAlphaClipMask_element context mask cb mb off
                                                           m temp element))).
Proof.
  intros. unfold createAlphaClipMask_element, createTempMask, mergeMask.
  destruct (modifiesOutside element).
  - destruct (canStencilAndDrawElement _ _ _ _) as [[canStencil ds1] pr].
    destruct canStencil; simpl.
    + match goal with
      | |- context [drawElement ?c ?mm ?d ?t ?e ?p] =>
          pose proof (drawElement_sameClipState c mm d t e p) as Hd;
          destruct (drawElement c mm d t e p) as [ok m3]
      end.
      destruct ok; simpl in *; exact Hd.
    + destruct temp as [t|]; simpl.
      * match goal with
        | |- context [drawElement ?c ?mm ?d ?t ?e ?p] =>
            pose proof (drawElement_sameClipState c mm d t e p) as Hd;
            destruct (drawElement c mm d t e p) as [ok m3]
        end.
        destruct ok; simpl in *; exact Hd.
      * destruct (refScratchTexture _ _ _) as [t|]; simpl;
          [|unfold sameClipState; simpl; auto].
        match goal with
        | |- context [drawElement ?c ?mm ?d ?t ?e ?p] =>
            pose proof (drawElement_sameClipState c mm d t e p) as Hd;
            destruct (drawElement c mm d t e p) as [ok m3]
        end.
        destruct ok; simpl in *; exact Hd.
  - match goal with
    | |- context [drawElement ?c ?mm ?d ?t ?e ?p] =>
        pose proof (drawElement_sameClipState c mm d t e p) as Hd;
        destruct (drawElement c mm d t e p) as [ok m3]
    end.
    simpl in *. exact Hd.
Qed.

Lemma createAlphaClipMask_loop_sameClipState :
  forall context mask cb mb off els m temp,
    sameClipState m (snd (createAlphaClipMask_loop context mask cb mb off m temp els)).
Proof.
  induction els as [|element rest IH]; intros m temp; simpl.
  - apply sameClipState_refl.
  - pose proof (createAlphaClipMask_element_sameClipState context mask cb mb off
                  m temp element) as He.
    destruct (createAlphaClipMask_element _ _ _ _ _ _ _ _) as [[ok m1] temp1].
    simpl in He. destruct ok; [|exact He].
    eapply sameClipState_trans; [exact He|apply IH].
Qed.

(** A mask builder assigns nothing but the mask type, and that only when
    it returns a mask. *)
Lemma createAlphaClipMask_clipState : forall context m g st els b,
  let r := createAlphaClipMask context m g st els b in
  fClipMode (snd r) = fClipMode m /\ fLastClip (snd r) = fLastClip m /\
  fCurrClipMaskType (snd r)
  = match fst r with Some _ => kAlpha_ClipMaskType | None => fCurrClipMaskType m end.
Proof.
  intros. subst r. unfold createAlphaClipMask.
  destruct (getCachedMaskTexture m g b); [simpl; auto|].
  unfold allocMaskTexture, fAACache_acquireMask.
  destruct (refScratchTexture _ _ _) as [t|]; simpl; [|auto].
  match goal with
  | |- context [createAlphaClipMask_loop ?c ?r ?cb ?mb ?o ?mm ?t ?e] =>
      pose proof (createAlphaClipMask_loop_sameClipState c r cb mb o e mm t) as Hl;
      destruct (createAlphaClipMask_loop c r cb mb o mm t e) as [ok m3]
  end.
  destruct Hl as (A & B & C). simpl in *.
  destruct ok; simpl; auto.
Qed.

Lemma createSoftwareClipMask_element_sameClipState : forall b m element,
  sameClipState m (createSoftwareClipMask_element b m element).
Proof.
  intros. unfold createSoftwareClipMask_element, sameClipState.
  break_match; simpl; auto.
Qed.

Lemma createSoftwareClipMask_fold_sameClipState : forall b els m,
  sameClipState m (fold_left (createSoftwareClipMask_element b) els m).
Proof.
  intros b. induction els as [|element rest IH]; intros m; simpl.
  - apply sameClipState_refl.
  - eapply sameClipState_trans; [apply createSoftwareClipMask_element_sameClipState|].
    apply IH.
Qed.

Lemma createSoftwareClipMask_clipState : forall context m g st els b,
  let r := createSoftwareClipMask context m g st els b in
  fClipMode (snd r) = fClipMode m /\ fLastClip (snd r) = fLastClip m /\
  (fst r = None -> fCurrClipMaskType (snd r) = fCurrClipMaskType m).
Proof.
  intros. subst r. unfold createSoftwareClipMask.
  destruct (getCachedMaskTexture m g b); [simpl; auto|].
  unfold allocMaskTexture, fAACache_acquireMask.
  match goal with
  | |- context [fold_left ?f ?els ?m0] =>
      destruct (createSoftwareClipMask_fold_sameClipState b els m0) as (A & B & C);
      remember (fold_left f els m0) as m3 eqn:Hm3; clear Hm3
  end.
  simpl in A, B, C.
  destruct (refScratchTexture _ _ _) as [t|]; simpl; repeat split; auto; discriminate.
Qed.

(* ---------- createStencilClipMask ---------- *)

Lemma fold_left_invariant :
  forall (A : Type) (P : GrClipMaskManager -> Prop)
         (f : GrClipMaskManager -> A -> GrClipMaskManager),
    (forall m a, P m -> P (f m a)) ->
    forall l m, P m -> P (fold_left f l m).
Proof.
  intros A P f Hf. induction l as [|a l IH]; intros m Hm; simpl; auto.
Qed.

(** What an element of the stencil loop leaves: the cache, the trace of
    routines, the mask type and the last-clip records as they were, and the
    clip mode Modify after a success, Ignore after a failure. *)
Lemma createStencilClipMask_element_state :
  forall context rt clipBit matrix b m element,
    let r := createStencilClipMask_element context rt clipBit matrix b m element in
    fAACache (snd r) = fAACache m /\
    fCurrClipMaskType (snd r) = fCurrClipMaskType m /\
    fLastClip (snd r) = fLastClip m /\
    fScratchRequests (snd r) = fScratchRequests m /\
    fClipMode (snd r) = (if fst r then kModifyClip_StencilClipMode
                         else kIgnoreClip_StencilClipMode).
Proof.
  intros. subst r. unfold createStencilClipMask_element.
  match goal with
  | |- context [match ?lookup with Some _ => _ | None => _ end] =>
      destruct lookup as [[[support inverted] shape]|]
  end; [|simpl; auto].
  destruct (GetClipPasses _ _ _ _ _) as [direct passes]. simpl.
  match goal with
  | |- context [fold_left ?f passes ?m0] =>
      pose proof (fold_left_invariant _
                    (fun mm => fAACache mm = fAACache m /\
                               fCurrClipMaskType mm = fCurrClipMaskType m /\
                               fLastClip mm = fLastClip m /\
                               fScratchRequests mm = fScratchRequests m /\
                               fClipMode mm = kModifyClip_StencilClipMode)
                    f) as Hinv;
      apply Hinv
  end.
  - intros mm s H. destruct direct; [destruct shape|]; simpl; exact H.
  - destruct direct; [simpl; auto|].
    destruct shape as [rect|pr clipPath]; [simpl; auto|].
    destruct (pathIsEmpty clipPath); [simpl; auto|].
    destruct support; simpl; auto.
Qed.


Lemma fold_left_issues :
  forall (A : Type) (P : Command -> Prop)
         (f : GrClipMaskManager -> A -> GrClipMaskManager),
    (forall m a, exists c, f m a = issue c m /\ P c) ->
    forall l m, exists cs, fCommands (fold_left f l m) = fCommands m ++ cs /\ Forall P cs.
Proof.
  intros A P f Hf. induction l as [|a l IH]; intros m; simpl.
  - exists []. rewrite app_nil_r. auto.
  - destruct (Hf m a) as (c & Hc & HP). rewrite Hc.
    destruct (IH (issue c m)) as (cs & Hcs & Hall).
    exists (c :: cs). rewrite Hcs. simpl. rewrite <- app_assoc. auto.
Qed.

Lemma createStencilClipMask_element_draws :
  forall context rt clipBit matrix b m element,
    exists cs,
      fCommands (snd (createStencilClipMask_element context rt clipBit matrix b m element))
      = fCommands m ++ cs /\
      Forall (stencilOnlyDraw rt) cs.
Proof.
  intros. unfold createStencilClipMask_element.
  match goal with
  | |- context [match ?lookup with Some _ => _ | None => _ end] =>
      destruct lookup as [[[support inverted] shape]|]
  end; [|exists []; simpl; rewrite app_nil_r; auto].
  destruct (GetClipPasses _ _ _ _ _) as [direct passes]. simpl.
  match goal with
  | |- context [fold_left ?f passes ?m0] =>
      destruct (fold_left_issues _ (stencilOnlyDraw rt) f) with (l := passes) (m := m0)
        as (cs & Hcs & Hall)
  end.
  - intros mm s. destruct direct; [destruct shape|]; eexists; (split; [reflexivity|]);
      unfold stencilOnlyDraw; simpl; destruct (isMultisampled rt); simpl; auto.
  - rewrite Hcs.
    destruct direct; [exists cs; simpl; auto|].
    destruct shape as [rect|pr clipPath].
    + simpl. eexists. rewrite <- app_assoc. split; [reflexivity|].
      constructor; [|exact Hall].
      unfold stencilOnlyDraw; simpl; destruct (isMultisampled rt); simpl; auto.
    + destruct (pathIsEmpty clipPath); [exists cs; simpl; auto|].
      destruct support; simpl; eexists; rewrite <- app_assoc;
        (split; [reflexivity|]); (constructor; [|exact Hall]);
        unfold stencilOnlyDraw; simpl; destruct (isMultisampled rt); simpl; auto.
Qed.

Lemma createStencilClipMask_loop_facts :
  forall context rt clipBit matrix b els m,
    let r := createStencilClipMask_loop context rt clipBit matrix b m els in
    fAACache (snd r) = fAACache m /\
    fCurrClipMaskType (snd r) = fCurrClipMaskType m /\
    fLastClip (snd r) = fLastClip m /\
    fScratchRequests (snd r) = fScratchRequests m /\
    (fst r = false -> fClipMode (snd r) = kIgnoreClip_StencilClipMode) /\
    exists cs, fCommands (snd r) = fCommands m ++ cs /\ Forall (stencilOnlyDraw rt) cs.
Proof.
  intros context rt clipBit matrix b. induction els as [|element rest IH]; intros m; simpl.
  - repeat split; try discriminate. exists []. rewrite app_nil_r. auto.
  - destruct (createStencilClipMask_element_state context rt clipBit matrix b m element)
      as (A & B & C & D & E).
    destruct (createStencilClipMask_element_draws context rt clipBit matrix b m element)
      as (cs & Hcs & Hall).
    destruct (createStencilClipMask_element _ _ _ _ _ _ _) as [ok m1].
    simpl in A, B, C, D, E, Hcs.
    destruct ok.
    + destruct (IH m1) as (A' & B' & C' & D' & E' & cs' & Hcs' & Hall').
      rewrite A', B', C', D', Hcs', A, B, C, D, Hcs. repeat split; auto.
      exists (cs ++ cs'). rewrite app_assoc. split; [reflexivity|].
      apply Forall_app. auto.
    + simpl. repeat split; auto. exists cs. auto.
Qed.


Lemma createStencilClipMask_element_ok :
  forall context rt clipBit matrix b m element,
    fst (createStencilClipMask_element context rt clipBit matrix b m element)
    = negb (lacksStencilRenderer context rt matrix element).
Proof.
  intros. unfold createStencilClipMask_element, lacksStencilRenderer.
  destruct (isRect (getType element)); simpl.
  - destruct (GetClipPasses _ _ _ _ _); reflexivity.
  - destruct (getPathRenderer _ _ _ _) as [[pr support]|]; simpl; [|reflexivity].
    destruct (GetClipPasses _ _ _ _ _); reflexivity.
Qed.

Lemma createStencilClipMask_loop_ok :
  forall context rt clipBit matrix b els m,
    fst (createStencilClipMask_loop context rt clipBit matrix b m els)
    = negb (existsb (lacksStencilRenderer context rt matrix) els).
Proof.
  intros context rt clipBit matrix b. induction els as [|element rest IH]; intros m; simpl.
  - reflexivity.
  - pose proof (createStencilClipMask_element_ok context rt clipBit matrix b m element)
      as He.
    destruct (createStencilClipMask_element _ _ _ _ _ _ _) as [ok m1]. simpl in He.
    rewrite He. destruct (lacksStencilRenderer context rt matrix element); simpl.
    + reflexivity.
    + apply IH.
Qed.


Lemma createStencilClipMask_facts :
  forall context m rt g st els b off,
    let r := createStencilClipMask context m rt g st els b off in
    fAACache (snd r) = fAACache m /\
    fScratchRequests (snd r) = fScratchRequests m /\
    Forall (stencilOnlyDraw rt) (issuedSince m (snd r)) /\
    (if fst r
     then fCurrClipMaskType (snd r) = kStencil_ClipMaskType /\
          fClipMode (snd r) = kRespectClip_StencilClipMode
     else fCurrClipMaskType (snd r) = fCurrClipMaskType m /\
          match getStencilBuffer rt with
          | None => snd r = m
          | Some _ =>
              fClipMode (snd r) = kIgnoreClip_StencilClipMode /\
              existsb (lacksStencilRenderer context rt (stencilMatrix off)) els = true
          end).
Proof.
  intros. subst r. unfold createStencilClipMask, issuedSince.
  destruct (getStencilBuffer rt) as [sb|]; simpl.
  - destruct (mustRenderClip m sb _).
    + match goal with
      | |- context [createStencilClipMask_loop ?c ?r ?cb ?mx ?bb ?mm ?ee] =>
          destruct (createStencilClipMask_loop_facts c r cb mx bb ee mm)
            as (A & B & C & D & E & cs & Hcs & Hall);
          pose proof (createStencilClipMask_loop_ok c r cb mx bb ee mm) as Hok;
          destruct (createStencilClipMask_loop c r cb mx bb mm ee) as [ok m3]
      end.
      simpl in A, B, C, D, E, Hcs, Hok. fold (stencilMatrix off) in Hok.
      destruct ok; simpl; rewrite ?A, ?B, ?D, Hcs, <- app_assoc, skipn_length_app;
        repeat split; auto;
        try (constructor; [exact I|exact Hall]).
      symmetry in Hok. now apply negb_false_iff in Hok.
    + simpl. rewrite skipn_all. repeat split. constructor.
  - rewrite skipn_all. repeat split. constructor.
Qed.

(** X10. [createStencilClipMask] never touches the alpha cache or asks for a
    scratch texture, and every draw it issues has colour writes off, clipping
    on and the given render target.  When it succeeds the mask type is
    Stencil and the clip mode Respect; when it fails the mask type is
    unchanged, and either the target has no stencil buffer and nothing
    changed, or the mode was left at Ignore because some path element has
    no stencil-only renderer. *)
Theorem createStencilClipMask_outcome :
  forall context m rt g st els b off,
    let r := createStencilClipMask context m rt g st els b off in
    fAACache (snd r) = fAACache m /\
    fScratchRequests (snd r) = fScratchRequests m /\
    Forall (stencilOnlyDraw rt) (issuedSince m (snd r)) /\
    (if fst r
     then fCurrClipMaskType (snd r) = kStencil_ClipMaskType /\
          fClipMode (snd r) = kRespectClip_StencilClipMode
     else fCurrClipMaskType (snd r) = fCurrClipMaskType m /\
          match getStencilBuffer rt with
          | None => snd r = m
          | Some _ =>
              fClipMode (snd r) = kIgnoreClip_StencilClipMode /\
              existsb (lacksStencilRenderer context rt (stencilMatrix off)) els = true
          end).
Proof. intros. apply createStencilClipMask_facts. Qed.

(** X11. On a target with a stencil buffer, a clip of rectangles only is
    always written to the stencil buffer: the builder cannot fail. *)
Theorem createStencilClipMask_rects_succeed :
  forall context m rt sb g st els b off,
    getStencilBuffer rt = Some sb ->
    forallb (fun element => isRect (getType element)) els = true ->
    fst (createStencilClipMask context m rt g st els b off) = true.
Proof.
  intros context m rt sb g st els b off Hsb Hrects.
  pose proof (createStencilClipMask_facts context m rt g st els b off) as H.
  simpl in H. destruct H as (_ & _ & _ & H).
  destruct (fst (createStencilClipMask _ _ _ _ _ _ _ _)); [reflexivity|].
  rewrite Hsb in H. destruct H as (_ & _ & H).
  apply existsb_exists in H. destruct H as (element & Hin & Hl).
  rewrite forallb_forall in Hrects. specialize (Hrects element Hin).
  unfold lacksStencilRenderer in Hl. rewrite Hrects in Hl. discriminate.
Qed.

(** X11 at a sample input: one rectangle, no path renderer anywhere. *)
Lemma createStencilClipMask_rects_succeed_witness :
  (getStencilBuffer Samples.rt = Some Samples.stencilBuffer8 /\
   forallb (fun element => isRect (getType element))
           [Samples.rectElement kIntersect_Op false] = true) /\
  fst (createStencilClipMask Samples.noRenderer Samples.manager0 Samples.rt 5
         kAllOut_InitialState [Samples.rectElement kIntersect_Op false] Samples.bounds50
         (SkIPoint.Make 0 0)) = true.
Proof.
  exact (conj (conj eq_refl eq_refl)
              (createStencilClipMask_rects_succeed Samples.noRenderer Samples.manager0
                 Samples.rt Samples.stencilBuffer8 5 kAllOut_InitialState
                 [Samples.rectElement kIntersect_Op false] Samples.bounds50
                 (SkIPoint.Make 0 0) eq_refl eq_refl)).
Defined.

(* ---------- the exits of setupClipping ---------- *)





Lemma SkIRect_width_offset : forall r p,
  SkIRect.width (SkIRect.offset r p) = SkIRect.width r.
Proof. intros r p. unfold SkIRect.width, SkIRect.offset. simpl. lia. Qed.

Lemma SkIRect_height_offset : forall r p,
  SkIRect.height (SkIRect.offset r p) = SkIRect.height r.
Proof. intros r p. unfold SkIRect.height, SkIRect.offset. simpl. lia. Qed.

Lemma setupClipping_stencil_exit : forall context m rt ds are ars clipDataIn red,
  fCurrClipMaskType m = kNone_ClipMaskType ->
  let o := setupClipping_stencil context m rt ds are ars clipDataIn red in
  exists ok, fRan (manager o) = fRan m ++ [(R_createStencilClipMask, ok)] /\
             stencilExit ds clipDataIn red ok o.
Proof.
  intros context m rt ds are ars clipDataIn red Hnone o. subst o.
  unfold setupClipping_stencil.
  match goal with
  | |- context [createStencilClipMask ?c ?mm ?r ?g ?s ?e ?b ?off] =>
      pose proof (createStencilClipMask_facts c mm r g s e b off) as Ho;
      pose proof (createStencilClipMask_fRan c mm r g s e b off) as Hr;
      destruct (createStencilClipMask c mm r g s e b off) as [ok m2]
  end.
  simpl in Ho, Hr. destruct Ho as (Hc & _ & _ & Hst).
  match goal with
  | |- context [returnTrue ?c ?mm ?d ?a ?r ?s] =>
      destruct (returnTrue_facts c mm d a r s) as (Hres & Hm & _ & Hsc & Hcolor & Hcov)
  end.
  exists ok. unfold stencilExit. rewrite Hres, Hm, Hsc, Hcolor, Hcov. simpl.
  rewrite Hr, Hc. repeat split.
  - destruct ok; [tauto|]. destruct Hst as [Hst _]. rewrite Hst. exact Hnone.
  - destruct ok; [tauto|exact I].
Qed.

Lemma createClipMask_clipState : forall software context m g st els b,
  fst (createClipMask software context m g st els b) = None ->
  fCurrClipMaskType (snd (createClipMask software context m g st els b))
  = fCurrClipMaskType m.
Proof.
  intros [|] context m g st els b H; unfold createClipMask in *.
  - now apply createSoftwareClipMask_clipState.
  - destruct (createAlphaClipMask_clipState context m g st els b) as (_ & _ & Ht).
    rewrite H in Ht. exact Ht.
Qed.

Lemma setupClipping_alpha_exit : forall context m rt ds are ars sc clipDataIn red,
  fCurrClipMaskType m = kNone_ClipMaskType ->
  let o := setupClipping_alpha context m rt ds are ars sc clipDataIn red in
  (exists R tex,
     (R = R_createAlphaClipMask \/ R = R_createSoftwareClipMask) /\
     fRan (manager o) = fRan m ++ [(R, true)] /\
     alphaExit ds sc red tex o) \/
  (exists pre ok,
     fRan (manager o) = fRan m ++ pre ++ [(R_createStencilClipMask, ok)] /\
     (pre = [] \/ pre = [(R_createAlphaClipMask, false)] \/
      pre = [(R_createSoftwareClipMask, false)]) /\
     stencilExit ds clipDataIn red ok o).
Proof.
  intros context m rt ds are ars sc clipDataIn red Hnone o. subst o.
  unfold setupClipping_alpha.
  destruct ((numSamples rt =? 0) && requiresAA red).
  - set (software := useSWOnlyPath context ds (elements red)).
    pose proof (createClipMask_fRan software context m (genID red) (initialState red)
                  (elements red) (clipSpaceIBounds red)) as Hr.
    pose proof (createClipMask_facts software context m (genID red) (initialState red)
                  (elements red) (clipSpaceIBounds red)) as Hf.
    pose proof (createClipMask_clipState software context m (genID red)
                  (initialState red) (elements red) (clipSpaceIBounds red)) as Ht.
    simpl in Hf. destruct Hf as [Hc _].
    assert (HR : (if software then R_createSoftwareClipMask else R_createAlphaClipMask)
                 = R_createAlphaClipMask \/
                 (if software then R_createSoftwareClipMask else R_createAlphaClipMask)
                 = R_createSoftwareClipMask) by (destruct software; auto).
    unfold createClipMask in Hr, Hc, Ht.
    assert (Hgoal :
      forall r m',
        fRan m' = fRan m ->
        fAACache m' = match r with
                      | Some t => cached (genID red) (clipSpaceIBounds red) t
                      | None => None
                      end ->
        (r = None -> fCurrClipMaskType m' = fCurrClipMaskType m) ->
        forall R, (R = R_createAlphaClipMask \/ R = R_createSoftwareClipMask) ->
        let o := match r with
                 | Some tex =>
                     returnTrue context (ran R (notNull r) m')
                       (setup_drawstate_aaclip
                          (SkIRect.offset (clipSpaceIBounds red)
                                          (SkIPoint.neg (fOrigin clipDataIn))) ds tex)
                       are ars sc
                 | None =>
                     setupClipping_stencil context (ran R (notNull r) m') rt ds are ars
                                           clipDataIn red
                 end in
        (exists R0 tex,
           (R0 = R_createAlphaClipMask \/ R0 = R_createSoftwareClipMask) /\
           fRan (manager o) = fRan m ++ [(R0, true)] /\ alphaExit ds sc red tex o) \/
        (exists pre ok,
           fRan (manager o) = fRan m ++ pre ++ [(R_createStencilClipMask, ok)] /\
           (pre = [] \/ pre = [(R_createAlphaClipMask, false)] \/
            pre = [(R_createSoftwareClipMask, false)]) /\
           stencilExit ds clipDataIn red ok o)).
    { intros r m' Hr' Hc' Ht' R HR'. destruct r as [tex|]; simpl.
      - left. exists R, tex. split; [exact HR'|].
        match goal with
        | |- context [returnTrue ?c ?mm ?d ?a ?r ?s] =>
            destruct (returnTrue_facts c mm d a r s)
              as (Hres & Hm & _ & Hsc & Hcolor & Hcov)
        end.
        unfold alphaExit. rewrite Hres, Hm, Hsc, Hcolor, Hcov.
        unfold setup_drawstate_aaclip.
        rewrite SkIRect_width_offset, SkIRect_height_offset. simpl.
        rewrite Hr', Hc'. repeat split. eexists. reflexivity.
      - right.
        destruct (setupClipping_stencil_exit context (ran R false m') rt ds are ars
                    clipDataIn red) as (ok & Hran & Hexit).
        { simpl. rewrite Ht' by reflexivity. exact Hnone. }
        exists [(R, false)], ok. rewrite Hran. simpl. rewrite Hr', <- app_assoc.
        split; [reflexivity|]. split; [|exact Hexit].
        destruct HR' as [-> | ->]; auto. }
    destruct software.
    + destruct (createSoftwareClipMask _ _ _ _ _ _) as [r m'].
      exact (Hgoal r m' Hr Hc Ht R_createSoftwareClipMask (or_intror eq_refl)).
    + destruct (createAlphaClipMask _ _ _ _ _ _) as [r m'].
      exact (Hgoal r m' Hr Hc Ht R_createAlphaClipMask (or_introl eq_refl)).
  - right.
    destruct (setupClipping_stencil_exit context m rt ds are ars clipDataIn red Hnone)
      as (ok & Hran & Hexit).
    exists [], ok. auto.
Qed.

Lemma installClipEffects_idle_failure : forall context ds els off devBounds,
  fst (fst (installClipEffects context ds None els off devBounds)) = false ->
  installClipEffects context ds None els off devBounds = (false, ds, None).
Proof.
  intros context ds els off devBounds H.
  destruct (installClipEffects_facts context ds None els off devBounds) as [_ Hf].
  specialize (Hf H).
  destruct (installClipEffects _ _ _ _ _ _) as [[ok ds'] are'].
  simpl in *. destruct Hf. now subst.
Qed.

(** The three ways out of [setupClipping_clip], for a guard that is idle on
    entry, each with the trace it leaves. *)
Lemma setupClipping_clip_exits :
  forall context m rt ds ars sc clipDataIn devBounds red,
    fCurrClipMaskType m = kNone_ClipMaskType ->
    let o := setupClipping_clip context m rt ds None ars sc clipDataIn devBounds red in
    (exists pre,
       fRan (manager o) = fRan m ++ pre /\
       (pre = [] \/ pre = [(R_installClipEffects, true)]) /\
       fastExit m sc clipDataIn devBounds red o) \/
    (exists pre R tex,
       fRan (manager o) = fRan m ++ pre ++ [(R, true)] /\
       (pre = [] \/ pre = [(R_installClipEffects, false)]) /\
       (R = R_createAlphaClipMask \/ R = R_createSoftwareClipMask) /\
       alphaExit ds sc red tex o) \/
    (exists pre ok,
       fRan (manager o) = fRan m ++ pre ++ [(R_createStencilClipMask, ok)] /\
       Forall (fun p => fst p <> R_createStencilClipMask /\ snd p = false) pre /\
       stencilExit ds clipDataIn red ok o).
Proof.
  intros context m rt ds ars sc clipDataIn devBounds red Hnone o. subst o.
  assert (Halpha : forall pre0 m0,
            fRan m0 = fRan m ++ pre0 ->
            fCurrClipMaskType m0 = kNone_ClipMaskType ->
            (pre0 = [] \/ pre0 = [(R_installClipEffects, false)]) ->
            let o := setupClipping_alpha context m0 rt ds None ars sc clipDataIn red in
            (exists pre,
               fRan (manager o) = fRan m ++ pre /\
               (pre = [] \/ pre = [(R_installClipEffects, true)]) /\
               fastExit m sc clipDataIn devBounds red o) \/
            (exists pre R tex,
               fRan (manager o) = fRan m ++ pre ++ [(R, true)] /\
               (pre = [] \/ pre = [(R_installClipEffects, false)]) /\
               (R = R_createAlphaClipMask \/ R = R_createSoftwareClipMask) /\
               alphaExit ds sc red tex o) \/
            (exists pre ok,
               fRan (manager o) = fRan m ++ pre ++ [(R_createStencilClipMask, ok)] /\
               Forall (fun p => fst p <> R_createStencilClipMask /\ snd p = false) pre /\
               stencilExit ds clipDataIn red ok o)).
  { intros pre0 m0 Hran0 Hnone0 Hpre0 o.
    destruct (setupClipping_alpha_exit context m0 rt ds None ars sc clipDataIn red Hnone0)
      as [(R & tex & HR & Hran & Hexit)|(pre & ok & Hran & Hpre & Hexit)].
    - right. left. exists pre0, R, tex. subst o. rewrite Hran, Hran0, <- app_assoc. auto.
    - right. right. exists (pre0 ++ pre), ok. subst o.
      rewrite Hran, Hran0, <- !app_assoc. split; [reflexivity|]. split; [|exact Hexit].
      apply Forall_app. split.
      + destruct Hpre0 as [-> | ->]; repeat constructor; simpl; discriminate.
      + destruct Hpre as [-> | [-> | ->]]; repeat constructor; simpl; discriminate. }
  unfold setupClipping_clip.
  assert (Hfast : forall pre0 m0 ds0 are0,
            fRan m0 = fRan m ++ pre0 ->
            (pre0 = [] \/ pre0 = [(R_installClipEffects, true)]) ->
            fCommands m0 = fCommands m -> fAACache m0 = fAACache m ->
            fCurrClipMaskType m0 = fCurrClipMaskType m ->
            let o := returnTrue context m0 ds0 are0 ars
                       match devBounds with
                       | Some b =>
                           if negb (SkRect.contains
                                      (SkRect.Make
                                         (SkIRect.offset (clipSpaceIBounds red)
                                            (SkIPoint.neg (fOrigin clipDataIn)))) b)
                           then ScissorState_set
                                  (SkIRect.offset (clipSpaceIBounds red)
                                     (SkIPoint.neg (fOrigin clipDataIn)))
                           else sc
                       | None => ScissorState_set
                                   (SkIRect.offset (clipSpaceIBounds red)
                                      (SkIPoint.neg (fOrigin clipDataIn)))
                       end in
            exists pre,
              fRan (manager o) = fRan m ++ pre /\
              (pre = [] \/ pre = [(R_installClipEffects, true)]) /\
              fastExit m sc clipDataIn devBounds red o).
  { intros pre0 m0 ds0 are0 Hran0 Hpre0 Hcmd Hcache Htype o.
    exists pre0. subst o.
    match goal with
    | |- context [returnTrue ?c ?mm ?d ?a ?r ?s] =>
        destruct (returnTrue_facts c mm d a r s) as (Hres & Hm & _ & Hsc & _)
    end.
    unfold fastExit, scissorSpaceIBounds. rewrite Hres, Hm, Hsc.
    repeat split; auto.
    destruct devBounds as [b|]; [|reflexivity].
    destruct (SkRect.contains _ b); reflexivity. }
  destruct (Z.of_nat (length (elements red)) <=? 4).
  - destruct (elements red) as [|e els] eqn:Hels.
    + left. apply (Hfast [] m ds None); auto. now rewrite app_nil_r.
    + destruct (requiresAA red).
      * destruct (fst (fst (installClipEffects context ds None (e :: els)
                              {| vX := SkIntToScalar (- SkIPoint.fX (fOrigin clipDataIn));
                                 vY := SkIntToScalar (- SkIPoint.fY (fOrigin clipDataIn)) |}
                              devBounds))) eqn:Hok.
        -- destruct (installClipEffects _ _ _ _ _ _) as [[ok ds'] are'].
           simpl in Hok. subst ok. left.
           apply (Hfast [(R_installClipEffects, true)]); auto.
        -- rewrite (installClipEffects_idle_failure _ _ _ _ _ Hok).
           apply (Halpha [(R_installClipEffects, false)]); auto.
      * apply (Halpha []); auto. now rewrite app_nil_r.
  - apply (Halpha []); auto. now rewrite app_nil_r.
Qed.

Lemma fCurrClipMaskType_setupClipping_enter : forall m,
  fCurrClipMaskType (setupClipping_enter m) = kNone_ClipMaskType.
Proof. intros m. unfold setupClipping_enter. destruct (isRespectClip _); reflexivity. Qed.

Lemma setupClipping_enter_frame : forall m,
  fCommands (setupClipping_enter m) = fCommands m /\
  fAACache (setupClipping_enter m) = fAACache m.
Proof. intros m. unfold setupClipping_enter. destruct (isRespectClip _); auto. Qed.

(** A call that ran a routine went through [setupClipping_clip]. *)
Lemma setupClipping_ran_clip :
  forall context m ds are ars sc clipDataIn devBounds rt,
    fRenderTarget ds = Some rt ->
    ranSince m (manager (setupClipping context m ds are ars sc clipDataIn devBounds))
      <> [] ->
    setupClipping context m ds are ars sc clipDataIn devBounds
    = setupClipping_clip context (setupClipping_enter m) rt ds are ars sc clipDataIn
                         devBounds (reducedClip rt clipDataIn).
Proof.
  intros context m ds are ars sc clipDataIn devBounds rt Hrt Hran.
  unfold setupClipping in *. rewrite Hrt in *. fold (reducedClip rt clipDataIn) in *.
  assert (Hempty : forall m0, fRan m0 = fRan m -> ranSince m m0 = []).
  { intros m0 H. unfold ranSince. rewrite H. apply skipn_all. }
  pose proof (returnTrue_facts context (setupClipping_enter m) ds are ars sc) as Ht.
  simpl in Ht. destruct Ht as (_ & Ht & _).
  destruct (negb (kClip_StateBit ds) || isWideOpen (fClipStack clipDataIn)).
  - exfalso. apply Hran, Hempty. rewrite Ht. apply fRan_setupClipping_enter.
  - destruct (elements (reducedClip rt clipDataIn)); [|reflexivity].
    destruct (isAllIn _).
    + destruct (SkIRect.eqb _ _); [|reflexivity].
      exfalso. apply Hran, Hempty. rewrite Ht. apply fRan_setupClipping_enter.
    + exfalso. apply Hran, Hempty. simpl. apply fRan_setupClipping_enter.
Qed.

Lemma setupClipping_exits :
  forall context m ds ars sc clipDataIn devBounds rt,
    fRenderTarget ds = Some rt ->
    let o := setupClipping context m ds None ars sc clipDataIn devBounds in
    let red := reducedClip rt clipDataIn in
    ranSince m (manager o) <> [] ->
    (exists pre,
       ranSince m (manager o) = pre /\
       (pre = [] \/ pre = [(R_installClipEffects, true)]) /\
       fastExit (setupClipping_enter m) sc clipDataIn devBounds red o) \/
    (exists pre R tex,
       ranSince m (manager o) = pre ++ [(R, true)] /\
       (pre = [] \/ pre = [(R_installClipEffects, false)]) /\
       (R = R_createAlphaClipMask \/ R = R_createSoftwareClipMask) /\
       alphaExit ds sc red tex o) \/
    (exists pre ok,
       ranSince m (manager o) = pre ++ [(R_createStencilClipMask, ok)] /\
       Forall (fun p => fst p <> R_createStencilClipMask /\ snd p = false) pre /\
       stencilExit ds clipDataIn red ok o).
Proof.
  intros context m ds ars sc clipDataIn devBounds rt Hrt o red Hran. subst o red.
  rewrite (setupClipping_ran_clip context m ds None ars sc clipDataIn devBounds rt Hrt Hran).
  unfold ranSince.
  destruct (setupClipping_clip_exits context (setupClipping_enter m) rt ds ars sc
              clipDataIn devBounds (reducedClip rt clipDataIn)
              (fCurrClipMaskType_setupClipping_enter m))
    as [(pre & Hr & H)|[(pre & R & tex & Hr & H)|(pre & ok & Hr & H)]];
    rewrite Hr, fRan_setupClipping_enter, skipn_length_app; eauto 10.
Qed.

(** X5. When the stencil builder ran, the call succeeds whatever the
    builder answered, with the scissor set to the reduced bounds in
    render-target space, the alpha cache empty and the processor chains
    untouched; the mask type is Stencil exactly when the builder
    succeeded. *)
Theorem setupClipping_stencil_representation :
  forall context m ds ars sc clipDataIn devBounds rt ok,
    fRenderTarget ds = Some rt ->
    In (R_createStencilClipMask, ok)
       (ranSince m (manager (setupClipping context m ds None ars sc clipDataIn devBounds))) ->
    stencilExit ds clipDataIn (reducedClip rt clipDataIn) ok
                (setupClipping context m ds None ars sc clipDataIn devBounds).
Proof.
  intros context m ds ars sc clipDataIn devBounds rt ok Hrt Hin.
  destruct (setupClipping_exits context m ds ars sc clipDataIn devBounds rt Hrt)
    as [(pre & Hr & Hpre & _)|[(pre & R & tex & Hr & Hpre & HR & _)|(pre & ok' & Hr & Hpre & H)]].
  - intros Hnil. rewrite Hnil in Hin. contradiction.
  - rewrite Hr in Hin. destruct Hpre as [-> | ->]; simpl in Hin;
      intuition congruence.
  - rewrite Hr in Hin. exfalso. apply in_app_or in Hin.
    destruct Hpre as [-> | ->]; destruct HR as [-> | ->]; simpl in Hin;
      intuition congruence.
  - rewrite Hr in Hin. apply in_app_or in Hin. destruct Hin as [Hin|Hin].
    + rewrite Forall_forall in Hpre. apply Hpre in Hin. simpl in Hin. tauto.
    + simpl in Hin. destruct Hin as [Heq|[]]. inversion Heq; subst. exact H.
Qed.

(** X5 at a sample input: one path element that needs no antialiasing. *)
Lemma setupClipping_stencil_representation_witness :
  let clip := Samples.stack [Samples.pathElement kIntersect_Op false] kAllOut_InitialState
                            Samples.bounds50 false in
  let o := setupClipping Samples.allRenderers Samples.manager0 Samples.drawState None None
                         Samples.scissor0 clip None in
  In (R_createStencilClipMask, true) (ranSince Samples.manager0 (manager o)) /\
  stencilExit Samples.drawState clip (reducedClip Samples.rt clip) true o.
Proof.
  intros clip o.
  assert (Hin : In (R_createStencilClipMask, true) (ranSince Samples.manager0 (manager o))).
  { vm_compute. auto. }
  split; [exact Hin|].
  exact (setupClipping_stencil_representation Samples.allRenderers Samples.manager0
           Samples.drawState None Samples.scissor0 clip None Samples.rt true eq_refl Hin).
Defined.

(** X4. When an alpha mask was built, by the GPU or in software, the call
    succeeds with the scissor untouched, the mask kept in the cache under
    the clip's generation id and bounds, and one texture-domain processor
    over the mask appended to the coverage chain, its domain the size of
    the reduced bounds. *)
Theorem setupClipping_alpha_representation :
  forall context m ds ars sc clipDataIn devBounds rt R,
    fRenderTarget ds = Some rt ->
    R = R_createAlphaClipMask \/ R = R_createSoftwareClipMask ->
    In (R, true)
       (ranSince m (manager (setupClipping context m ds None ars sc clipDataIn devBounds))) ->
    exists tex,
      alphaExit ds sc (reducedClip rt clipDataIn) tex
                (setupClipping context m ds None ars sc clipDataIn devBounds).
Proof.
  intros context m ds ars sc clipDataIn devBounds rt R Hrt HR Hin.
  destruct (setupClipping_exits context m ds ars sc clipDataIn devBounds rt Hrt)
    as [(pre & Hr & Hpre & _)|[(pre & R' & tex & Hr & Hpre & HR' & H)|(pre & ok' & Hr & Hpre & H)]].
  - intros Hnil. rewrite Hnil in Hin. contradiction.
  - rewrite Hr in Hin. exfalso.
    destruct Hpre as [-> | ->]; destruct HR as [-> | ->]; simpl in Hin;
      intuition congruence.
  - exists tex. exact H.
  - rewrite Hr in Hin. exfalso. apply in_app_or in Hin. destruct Hin as [Hin|Hin].
    + rewrite Forall_forall in Hpre. apply Hpre in Hin. simpl in Hin.
      destruct Hin. discriminate.
    + simpl in Hin. destruct HR as [-> | ->]; intuition congruence.
Qed.

(** X4 at a sample input: one antialiased rectangle with the union
    operator, which no clip processor expresses. *)
Lemma setupClipping_alpha_representation_witness :
  let clip := Samples.stack [Samples.rectElement kUnion_Op true] kAllOut_InitialState
                            Samples.bounds50 true in
  let o := setupClipping Samples.allRenderers Samples.manager0 Samples.drawState None None
                         Samples.scissor0 clip None in
  In (R_createAlphaClipMask, true) (ranSince Samples.manager0 (manager o)) /\
  exists tex, alphaExit Samples.drawState Samples.scissor0 (reducedClip Samples.rt clip)
                        tex o.
Proof.
  intros clip o.
  assert (Hin : In (R_createAlphaClipMask, true) (ranSince Samples.manager0 (manager o))).
  { vm_compute. auto. }
  split; [exact Hin|].
  exact (setupClipping_alpha_representation Samples.allRenderers Samples.manager0
           Samples.drawState None Samples.scissor0 clip None Samples.rt
           R_createAlphaClipMask eq_refl (or_introl eq_refl) Hin).
Defined.

(** X3. When the clip processors were installed, nothing else ran: no
    command was issued, the mask cache was not touched, the mask type is
    None, and the scissor is set to the reduced bounds in render-target
    space unless the draw's device bounds lie inside them. *)
Theorem setupClipping_fast_representation :
  forall context m ds ars sc clipDataIn devBounds rt,
    fRenderTarget ds = Some rt ->
    In (R_installClipEffects, true)
       (ranSince m (manager (setupClipping context m ds None ars sc clipDataIn devBounds))) ->
    let o := setupClipping context m ds None ars sc clipDataIn devBounds in
    let red := reducedClip rt clipDataIn in
    result o = true /\
    ranSince m (manager o) = [(R_installClipEffects, true)] /\
    issuedSince m (manager o) = [] /\
    fAACache (manager o) = fAACache m /\
    fCurrClipMaskType (manager o) = kNone_ClipMaskType /\
    outScissorState o
    = match devBounds with
      | None => ScissorState_set (scissorSpaceIBounds clipDataIn red)
      | Some b =>
          if SkRect.contains (SkRect.Make (scissorSpaceIBounds clipDataIn red)) b
          then sc
          else ScissorState_set (scissorSpaceIBounds clipDataIn red)
      end.
Proof.
  intros context m ds ars sc clipDataIn devBounds rt Hrt Hin o red. subst o red.
  destruct (setupClipping_exits context m ds ars sc clipDataIn devBounds rt Hrt)
    as [(pre & Hr & Hpre & H)|[(pre & R' & tex & Hr & Hpre & HR' & H)|(pre & ok' & Hr & Hpre & H)]].
  - intros Hnil. rewrite Hnil in Hin. contradiction.
  - rewrite Hr in *. destruct Hpre as [-> | ->]; [contradiction|].
    destruct H as (Hres & Hcmd & Hcache & Htype & Hsc).
    destruct (setupClipping_enter_frame m) as [Hc1 Hc2].
    rewrite Hres, Hsc, Hcache, Hc2, Htype, fCurrClipMaskType_setupClipping_enter.
    unfold issuedSince. rewrite Hcmd, Hc1, skipn_all. repeat split.
  - rewrite Hr in Hin. exfalso.
    destruct Hpre as [-> | ->]; destruct HR' as [-> | ->]; simpl in Hin;
      intuition congruence.
  - rewrite Hr in Hin. exfalso. apply in_app_or in Hin. destruct Hin as [Hin|Hin].
    + rewrite Forall_forall in Hpre. apply Hpre in Hin. simpl in Hin.
      destruct Hin. discriminate.
    + simpl in Hin. intuition congruence.
Qed.

(** X3 at a sample input: one antialiased rectangle with the intersect
    operator. *)
Lemma setupClipping_fast_representation_witness :
  let clip := Samples.stack [Samples.rectElement kIntersect_Op true] kAllOut_InitialState
                            Samples.bounds50 true in
  let o := setupClipping Samples.allRenderers Samples.manager0 Samples.drawState None None
                         Samples.scissor0 clip None in
  In (R_installClipEffects, true) (ranSince Samples.manager0 (manager o)) /\
  ranSince Samples.manager0 (manager o) = [(R_installClipEffects, true)] /\
  issuedSince Samples.manager0 (manager o) = [] /\
  outScissorState o
  = ScissorState_set (scissorSpaceIBounds clip (reducedClip Samples.rt clip)).
Proof.
  intros clip o.
  assert (Hin : In (R_installClipEffects, true) (ranSince Samples.manager0 (manager o))).
  { vm_compute. auto. }
  split; [exact Hin|].
  pose proof (setupClipping_fast_representation Samples.allRenderers Samples.manager0
                Samples.drawState None Samples.scissor0 clip None Samples.rt eq_refl Hin)
    as H.
  cbv zeta in H. destruct H as (_ & Hran & Hissued & _ & _ & Hsc).
  exact (conj Hran (conj Hissued Hsc)).
Defined.

(* ---------- texture requests of the alpha builders ---------- *)

Lemma drawElement_requests : forall context m ds target element pr,
  fScratchRequests (snd (drawElement context m ds target element pr))
  = fScratchRequests m.
Proof. intros. unfold drawElement. break_match; reflexivity. Qed.

Lemma createAlphaClipMask_element_requests :
  forall context mask cb mb off m temp element,
    let r := createAlphaClipMask_element context mask cb mb off m temp element in
    match temp with
    | Some t => snd r = Some t /\
                fScratchRequests (snd (fst r)) = fScratchRequests m
    | None => (fScratchRequests (snd (fst r)) = fScratchRequests m /\ snd r = None) \/
              (fScratchRequests (snd (fst r)) = S (fScratchRequests m) /\
               (snd r <> None \/ fst (fst r) = false))
    end.
Proof.
  intros. subst r. unfold createAlphaClipMask_element, createTempMask, mergeMask.
  destruct (modifiesOutside element).
  - destruct (canStencilAndDrawElement _ _ _ _) as [[canStencil ds1] pr].
    destruct canStencil; simpl.
    + match goal with
      | |- context [drawElement ?c ?mm ?d ?t ?e ?p] =>
          pose proof (drawElement_requests c mm d t e p) as Hd;
          destruct (drawElement c mm d t e p) as [ok m3]
      end.
      simpl in Hd. destruct ok, temp; simpl; auto.
    + destruct temp as [t|]; simpl.
      * match goal with
        | |- context [drawElement ?c ?mm ?d ?t ?e ?p] =>
            pose proof (drawElement_requests c mm d t e p) as Hd;
            destruct (drawElement c mm d t e p) as [ok m3]
        end.
        simpl in Hd. destruct ok; simpl; auto.
      * destruct (refScratchTexture _ _ _) as [t|]; simpl; [|auto].
        match goal with
        | |- context [drawElement ?c ?mm ?d ?t ?e ?p] =>
            pose proof (drawElement_requests c mm d t e p) as Hd;
            destruct (drawElement c mm d t e p) as [ok m3]
        end.
        simpl in Hd. destruct ok; simpl; right; (split; [exact Hd|]); left; discriminate.
  - match goal with
    | |- context [drawElement ?c ?mm ?d ?t ?e ?p] =>
        pose proof (drawElement_requests c mm d t e p) as Hd;
        destruct (drawElement c mm d t e p) as [ok m3]
    end.
    simpl in Hd. destruct temp; simpl; auto.
Qed.

Lemma createAlphaClipMask_loop_requests :
  forall context mask cb mb off els m temp,
    let r := createAlphaClipMask_loop context mask cb mb off m temp els in
    (fScratchRequests m <= fScratchRequests (snd r)
     <= fScratchRequests m + match temp with Some _ => 0 | None => 1 end)%nat.
Proof.
  induction els as [|element rest IH]; intros m temp; simpl.
  - destruct temp; lia.
  - pose proof (createAlphaClipMask_element_requests context mask cb mb off
                  m temp element) as He.
    destruct (createAlphaClipMask_element _ _ _ _ _ _ _ _) as [[ok m1] temp1].
    simpl in He.
    destruct ok.
    + specialize (IH m1 temp1). simpl in IH.
      destruct temp as [t|].
      * destruct He as [-> He]. lia.
      * destruct He as [[He ->]|[He [Ht|Hf]]]; try discriminate.
        -- lia.
        -- destruct temp1; [lia|congruence].
    + simpl. destruct temp as [t|].
      * destruct He as [_ He]. lia.
      * destruct He as [[He _]|[He _]]; lia.
Qed.

(** X8. A mask found in the cache costs no scratch texture; a mask that has
    to be built asks for at least one and at most two textures, and at most
    one in software. *)
Theorem createClipMask_requests :
  forall software context m g st els b,
    let r := createClipMask software context m g st els b in
    match getCachedMaskTexture m g b with
    | Some _ => fScratchRequests (snd r) = fScratchRequests m
    | None =>
        (S (fScratchRequests m) <= fScratchRequests (snd r)
         <= fScratchRequests m + (if software then 1 else 2))%nat
    end.
Proof.
  intros [|] context m g st els b r; subst r; unfold createClipMask.
  - unfold createSoftwareClipMask.
    destruct (getCachedMaskTexture m g b); simpl; [reflexivity|].
    unfold allocMaskTexture, fAACache_acquireMask.
    match goal with
    | |- context [fold_left ?f ?els ?m0] =>
        assert (Hf : fScratchRequests (fold_left f els m0) = fScratchRequests m0)
    end.
    { apply (fold_left_invariant _ (fun mm => fScratchRequests mm = fScratchRequests m)).
      - intros mm a H. unfold createSoftwareClipMask_element. break_match; exact H.
      - reflexivity. }
    simpl in Hf.
    destruct (refScratchTexture _ _ _); simpl; rewrite Hf; lia.
  - unfold createAlphaClipMask.
    destruct (getCachedMaskTexture m g b); simpl; [reflexivity|].
    unfold allocMaskTexture, fAACache_acquireMask.
    destruct (refScratchTexture _ _ _) as [t|]; simpl; [|lia].
    match goal with
    | |- context [createAlphaClipMask_loop ?c ?r ?cb ?mb ?o ?mm ?t ?e] =>
        pose proof (createAlphaClipMask_loop_requests c r cb mb o e mm t) as Hl;
        destruct (createAlphaClipMask_loop c r cb mb o mm t e) as [ok m3]
    end.
    simpl in Hl. destruct ok; simpl; lia.
Qed.

(** X9. The software builder draws nothing through the clip target. *)
Theorem createSoftwareClipMask_no_gpu_draw :
  forall context m g st els b,
    Forall (fun c => commandDrawState c = None)
           (issuedSince m (snd (createSoftwareClipMask context m g st els b))).
Proof.
  intros. unfold createSoftwareClipMask, issuedSince.
  destruct (getCachedMaskTexture m g b); simpl; [rewrite skipn_all; constructor|].
  unfold allocMaskTexture, fAACache_acquireMask.
  match goal with
  | |- context [fold_left ?f ?els ?m0] =>
      destruct (fold_left_invariant _
                  (fun mm => exists cs, fCommands mm = fCommands m ++ cs /\
                                        Forall (fun c => commandDrawState c = None) cs)
                  f) with (l := els) (m := m0) as (cs & Hcs & Hall)
  end.
  - intros mm a (cs & Hcs & Hall). unfold createSoftwareClipMask_element.
    break_match; simpl; rewrite Hcs, <- ?app_assoc; eexists;
      (split; [reflexivity|]); rewrite ?Forall_app; repeat split; auto;
      repeat constructor.
  - simpl. eexists. rewrite <- app_assoc. split; [reflexivity|]. repeat constructor.
  - destruct (refScratchTexture _ _ _); simpl; rewrite Hcs, <- ?app_assoc,
      skipn_length_app; rewrite ?Forall_app; repeat split; auto; repeat constructor.
Qed.

(* ---------- setDrawStateStencil ---------- *)

(** X12. With the draw's own stencil disabled, [setDrawStateStencil] in
    Respect mode installs the test for the clip bit alone (keep, keep,
    equal, mask and reference the top stencil bit, no write); in any other
    mode it changes nothing. *)
Theorem setDrawStateStencil_clip_test :
  forall context m ds ars rt sb,
    fRenderTarget ds = Some rt ->
    getStencilBuffer rt = Some sb ->
    1 <= bits sb <= 16 ->
    isDisabled (fStencilSettings ds) = true ->
    let r := setDrawStateStencil context m ds ars in
    if isRespectClip (fClipMode m)
    then fStencilSettings (fst r)
         = SAME_STENCIL kKeep_StencilOp kKeep_StencilOp kEqual_StencilFunc
                        (2 ^ (bits sb - 1)) (2 ^ (bits sb - 1)) 0
    else r = (ds, ars).
Proof.
  intros context m ds ars rt sb Hrt Hsb Hbits Hdis r. subst r.
  unfold setDrawStateStencil. rewrite Hdis.
  destruct (fClipMode m) eqn:Hmode; try reflexivity.
  unfold isRespectClip, targetStencilBits. rewrite Hrt, Hsb.
  rewrite adjustStencilParams_respect by assumption.
  unfold AutoRestoreStencil_set.
  destruct ars; simpl; destruct (twoSidedStencilSupport context); reflexivity.
Qed.

(** X12 at a sample input: a manager whose clip is in the stencil buffer. *)
Lemma setDrawStateStencil_clip_test_witness :
  let m := set_fClipMode kRespectClip_StencilClipMode Samples.manager0 in
  (fRenderTarget Samples.drawState = Some Samples.rt /\
   getStencilBuffer Samples.rt = Some Samples.stencilBuffer8 /\
   1 <= bits Samples.stencilBuffer8 <= 16 /\
   isDisabled (fStencilSettings Samples.drawState) = true) /\
  fStencilSettings (fst (setDrawStateStencil Samples.allRenderers m Samples.drawState None))
  = SAME_STENCIL kKeep_StencilOp kKeep_StencilOp kEqual_StencilFunc 128 128 0.
Proof.
  intros m.
  assert (Hbits : 1 <= bits Samples.stencilBuffer8 <= 16) by (simpl; lia).
  exact (conj (conj eq_refl (conj eq_refl (conj Hbits eq_refl)))
              (setDrawStateStencil_clip_test Samples.allRenderers m Samples.drawState None
                 Samples.rt Samples.stencilBuffer8 eq_refl eq_refl Hbits eq_refl)).
Defined.

(* ---------- installClipEffects: success ---------- *)

Lemma installClipEffects_loop_added :
  forall context bounds off els ds,
    let r := installClipEffects_loop context bounds off els ds in
    fst r = false ->
    fColorStages (snd r) = fColorStages ds /\
    exists added,
      fCoverageStages (snd r) = fCoverageStages ds ++ added /\
      length added = length (filter (fun e => negb (skipped bounds e)) els).
Proof.
  intros context bounds off. induction els as [|element rest IH]; intros ds r; subst r;
    simpl.
  - intros _. split; [reflexivity|]. exists []. now rewrite app_nil_r.
  - unfold classifyOp, skipped.
    destruct (getOp element); simpl; try discriminate;
      try (destruct bounds as [b|]; simpl; [destruct (contains element b); simpl|]);
      try apply IH;
      (destruct (isAA element && targetIsMultisampled ds); simpl; [discriminate|]);
      (destruct (createClipProcessor _ _ _ _) as [fp|]; simpl; [|discriminate]);
      intros Hok; destruct (IH _ Hok) as (Hcolor & added & Hcov & Hlen);
      (split; [exact Hcolor|]); exists (fp :: added); simpl in *;
      rewrite Hcov, <- app_assoc, Hlen; auto.
Qed.

(** X7. A successful [installClipEffects] leaves the colour chain alone and
    appends to the coverage chain one processor for each element that was
    not skipped; restoring through the guard gives back the draw state of
    before the call. *)
Theorem installClipEffects_success :
  forall context ds els off devBounds,
    let r := installClipEffects context ds None els off devBounds in
    fst (fst r) = true ->
    fColorStages (snd (fst r)) = fColorStages ds /\
    (exists added,
       fCoverageStages (snd (fst r)) = fCoverageStages ds ++ added /\
       length added
       = length (filter (fun e => negb (skipped (boundsInClipSpace off devBounds) e))
                        els)) /\
    AutoRestoreEffects_setNULL (snd r) (snd (fst r)) = (None, ds).
Proof.
  intros context ds els off devBounds r. subst r.
  unfold installClipEffects, AutoRestoreEffects_set, AutoRestoreEffects_setNULL.
  fold (boundsInClipSpace off devBounds). simpl.
  pose proof (installClipEffects_loop_added context (boundsInClipSpace off devBounds)
                off els ds) as Ha.
  pose proof (installClipEffects_loop_pop context (boundsInClipSpace off devBounds) off
                (length (fColorStages ds)) (length (fCoverageStages ds)) els ds (le_n _))
    as Hp.
  destruct (installClipEffects_loop _ _ _ _ _) as [failed ds2].
  simpl in Ha, Hp. destruct failed; simpl; [discriminate|]. intros _.
  destruct (Ha eq_refl) as (Hcolor & Hadded).
  repeat split; auto. f_equal. rewrite Hp. apply popStagesTo_id.
Qed.

(** X7 at a sample input: a rectangle and a path, both expressible. *)
Lemma installClipEffects_success_witness :
  let els := [Samples.rectElement kIntersect_Op true;
              Samples.pathElement kDifference_Op false] in
  let r := installClipEffects Samples.allRenderers Samples.drawState None els
                              {| vX := 0; vY := 0 |} None in
  fst (fst r) = true /\
  fColorStages (snd (fst r)) = fColorStages Samples.drawState /\
  (exists added,
     fCoverageStages (snd (fst r)) = fCoverageStages Samples.drawState ++ added /\
     length added
     = length (filter (fun e => negb (skipped (boundsInClipSpace {| vX := 0; vY := 0 |}
                                                                 None) e)) els)) /\
  AutoRestoreEffects_setNULL (snd r) (snd (fst r)) = (None, Samples.drawState).
Proof.
  intros els r.
  exact (conj eq_refl
              (installClipEffects_success Samples.allRenderers Samples.drawState els
                 {| vX := 0; vY := 0 |} None eq_refl)).
Defined.

(* ---------- useSWOnlyPath ---------- *)

Lemma useSWOnlyPath_rects : forall context ds els,
  forallb (fun element => isRect (getType element)) els = true ->
  useSWOnlyPath context ds els = false.
Proof.
  intros context ds. induction els as [|element rest IH]; simpl; intros H.
  - reflexivity.
  - apply andb_true_iff in H. destruct H as [He Hr]. rewrite He. simpl. now apply IH.
Qed.

Lemma setupClipping_alpha_no_software :
  forall context m rt ds are ars sc clipDataIn red ok,
    useSWOnlyPath context ds (elements red) = false ->
    ~ In (R_createSoftwareClipMask, ok)
         (ranSince m (manager (setupClipping_alpha context m rt ds are ars sc
                                                   clipDataIn red))).
Proof.
  intros context m rt ds are ars sc clipDataIn red ok Hsw.
  unfold setupClipping_alpha, ranSince. rewrite Hsw.
  destruct ((numSamples rt =? 0) && requiresAA red).
  - pose proof (createClipMask_fRan false context m (genID red) (initialState red)
                  (elements red) (clipSpaceIBounds red)) as Hr.
    unfold createClipMask in Hr.
    destruct (createAlphaClipMask _ _ _ _ _ _) as [r m']. simpl in Hr.
    destruct r as [tex|].
    + match goal with
      | |- context [returnTrue ?c ?mm ?d ?a ?r ?s] =>
          destruct (returnTrue_facts c mm d a r s) as (_ & Hm & _)
      end.
      rewrite Hm. simpl. rewrite Hr, skipn_length_app. simpl. intuition congruence.
    + match goal with
      | |- context [setupClipping_stencil ?c ?mm ?r ?d ?a ?s ?cl ?rd] =>
          destruct (setupClipping_stencil_facts c mm r d a s cl rd) as (_ & ok' & Hm)
      end.
      rewrite Hm. simpl. rewrite Hr, <- app_assoc, skipn_length_app. simpl.
      intuition congruence.
  - destruct (setupClipping_stencil_facts context m rt ds are ars clipDataIn red)
      as (_ & ok' & Hm).
    rewrite Hm, skipn_length_app. simpl. intuition congruence.
Qed.

(** X6. A clip that reduces to rectangles only is never rasterised in
    software. *)
Theorem setupClipping_rects_never_software :
  forall context m ds are ars sc clipDataIn devBounds rt ok,
    fRenderTarget ds = Some rt ->
    forallb (fun element => isRect (getType element))
            (elements (reducedClip rt clipDataIn)) = true ->
    ~ In (R_createSoftwareClipMask, ok)
         (ranSince m (manager (setupClipping context m ds are ars sc
                                             clipDataIn devBounds))).
Proof.
  intros context m ds are ars sc clipDataIn devBounds rt ok Hrt Hrects Hin.
  assert (Hne : ranSince m (manager (setupClipping context m ds are ars sc
                                                   clipDataIn devBounds)) <> []).
  { intros H. rewrite H in Hin. contradiction. }
  rewrite (setupClipping_ran_clip context m ds are ars sc clipDataIn devBounds rt Hrt Hne)
    in Hin.
  clear Hne. revert Hin.
  set (red := reducedClip rt clipDataIn) in *.
  unfold setupClipping_clip.
  assert (Halpha : forall pre m0 ds0 are0,
            fRan m0 = fRan m ++ pre ->
            (pre = [] \/ exists b, pre = [(R_installClipEffects, b)]) ->
            ~ In (R_createSoftwareClipMask, ok)
                 (ranSince m (manager (setupClipping_alpha context m0 rt ds0 are0 ars sc
                                                           clipDataIn red)))).
  { intros pre m0 ds0 are0 Hm0 Hpre Hin.
    pose proof (setupClipping_alpha_no_software context m0 rt ds0 are0 ars sc clipDataIn
                  red ok (useSWOnlyPath_rects context ds0 (elements red) Hrects)) as Hno.
    destruct (setupClipping_alpha_facts context m0 rt ds0 are0 ars sc clipDataIn red)
      as (_ & tr & Htr & _).
    unfold ranSince in *. rewrite Htr in *. rewrite skipn_length_app in Hno.
    rewrite Hm0, <- app_assoc, skipn_length_app in Hin.
    apply in_app_or in Hin. destruct Hin as [Hin|Hin]; [|contradiction].
    destruct Hpre as [-> | [b ->]]; simpl in Hin; intuition congruence. }
  assert (Hfast : forall pre m0 ds0 are0 sc0,
            fRan m0 = fRan m ++ pre ->
            (pre = [] \/ exists b, pre = [(R_installClipEffects, b)]) ->
            ~ In (R_createSoftwareClipMask, ok)
                 (ranSince m (manager (returnTrue context m0 ds0 are0 ars sc0)))).
  { intros pre m0 ds0 are0 sc0 Hm0 Hpre Hin.
    destruct (returnTrue_facts context m0 ds0 are0 ars sc0) as (_ & Hm & _).
    unfold ranSince in Hin. rewrite Hm, Hm0, skipn_length_app in Hin.
    destruct Hpre as [-> | [b ->]]; simpl in Hin; intuition congruence. }
  pose proof (fRan_setupClipping_enter m) as Henter.
  destruct (Z.of_nat (length (elements red)) <=? 4).
  - destruct (elements red) as [|e els] eqn:Hels.
    + apply (Hfast []); auto. now rewrite app_nil_r.
    + destruct (requiresAA red).
      * destruct (installClipEffects _ _ _ _ _ _) as [[b ds'] are'].
        destruct b.
        -- apply (Hfast [(R_installClipEffects, true)]); [|eauto].
           simpl. now rewrite Henter.
        -- apply (Halpha [(R_installClipEffects, false)]); [|eauto].
           simpl. now rewrite Henter.
      * apply (Halpha []); auto. now rewrite app_nil_r.
  - apply (Halpha []); auto. now rewrite app_nil_r.
Qed.

(** X6 at a sample input: two rectangles. *)
Lemma setupClipping_rects_never_software_witness :
  let clip := Samples.stack [Samples.rectElement kUnion_Op true;
                             Samples.rectElement kXOR_Op true]
                            kAllOut_InitialState Samples.bounds50 true in
  forallb (fun element => isRect (getType element))
          (elements (reducedClip Samples.rt clip)) = true /\
  ~ In (R_createSoftwareClipMask, true)
       (ranSince Samples.manager0
          (manager (setupClipping Samples.allRenderers Samples.manager0 Samples.drawState
                                  None None Samples.scissor0 clip None))).
Proof.
  intros clip.
  exact (conj eq_refl
              (setupClipping_rects_never_software Samples.allRenderers Samples.manager0
                 Samples.drawState None None Samples.scissor0 clip None Samples.rt true
                 eq_refl eq_refl)).
Defined.

(* ================================================================== *)
(** ** SkPictureImageFilter *)

Section PictureFilterFacts.

Import PictureFilter.

(** X16. What [flatten] writes, [CreateProc] reads back to the end, with
    the buffer still valid: the crop rectangle and the resolution come back
    as they were, and the picture comes back unless the buffer crosses a
    process boundary. *)
Theorem flatten_CreateProc_round_trip :
  forall f crossProcess,
    exists f' b',
      CreateProc (reader (flatten f {| wCrossProcess := crossProcess; written := [] |}))
      = Some (f', b') /\
      toRead b' = [] /\ isValid b' = true /\
      fCropRect f' = fCropRect f /\
      fPictureResolution f' = fPictureResolution f /\
      fPicture f' = (if crossProcess then None else fPicture f).
Proof.
  intros [picture crop resolution uid] crossProcess.
  destruct crossProcess, picture as [p|], resolution; simpl;
    eexists; eexists; (split; [reflexivity|]); simpl; repeat split.
Qed.

(** X17. From a buffer that crosses a process boundary [CreateProc] never
    builds a filter with a picture, and when the buffer claims to hold a
    picture it is left invalid. *)
Theorem CreateProc_cross_process_no_picture :
  forall buffer f b',
    rCrossProcess buffer = true ->
    CreateProc buffer = Some (f, b') ->
    fPicture f = None /\
    (forall rest, toRead buffer = TBool true :: rest -> isValid b' = false).
Proof.
  intros buffer f b' Hcross H. unfold CreateProc in H. rewrite Hcross in H. simpl in H.
  unfold readBool in H.
  destruct (toRead buffer) as [|[v| | |] rest0] eqn:Hread; try discriminate.
  simpl in H. unfold readRect in H. simpl in H.
  destruct rest0 as [|[| |crop|] rest1]; try discriminate. simpl in H.
  assert (Hvalid : forall rest, TBool v :: TRect crop :: rest1 = TBool true :: rest ->
                                isValid buffer && negb v = false).
  { intros rest Heq. inversion Heq; subst. apply andb_false_r. }
  destruct (versionLT_PictureImageFilterResolution buffer); simpl in H.
  - inversion H; subst. simpl. auto.
  - unfold readInt in H. simpl in H.
    destruct rest1 as [|[|n| |] rest2]; try discriminate. simpl in H.
    destruct (n =? 1); inversion H; subst; simpl; auto.
Qed.

(** X17 at a sample input. *)
Lemma CreateProc_cross_process_no_picture_witness :
  (rCrossProcess PictureSamples.crossProcessBuffer = true /\
   exists f b', CreateProc PictureSamples.crossProcessBuffer = Some (f, b') /\
                fPicture f = None /\ isValid b' = false).
Proof.
  split; [reflexivity|].
  eexists. eexists. split; [reflexivity|].
  pose proof (CreateProc_cross_process_no_picture PictureSamples.crossProcessBuffer
                _ _ eq_refl eq_refl) as (Hp & Hv).
  exact (conj Hp (Hv _ eq_refl)).
Defined.

(** X18. A filter read from a buffer older than the picture resolution is
    a device-space filter. *)
Theorem CreateProc_old_version_device_space :
  forall buffer f b',
    versionLT_PictureImageFilterResolution buffer = true ->
    CreateProc buffer = Some (f, b') ->
    fPictureResolution f = kDeviceSpace_PictureResolution.
Proof.
  intros buffer f b' Hold H. unfold CreateProc in H.
  assert (Hadv : forall rest b, versionLT_PictureImageFilterResolution b = true ->
                   versionLT_PictureImageFilterResolution (advance rest b) = true)
    by (intros; assumption).
  destruct (rCrossProcess buffer); simpl in H.
  - unfold readBool in H. destruct (toRead buffer) as [|[v| | |] rest]; try discriminate.
    simpl in H. unfold readRect in H. simpl in H.
    destruct rest as [|[| |crop|] rest]; try discriminate. simpl in H.
    rewrite Hold in H. simpl in H. inversion H; subst. reflexivity.
  - unfold readBool in H. destruct (toRead buffer) as [|[v| | |] rest]; try discriminate.
    simpl in H. destruct v; simpl in H.
    + unfold CreateFromBuffer in H. simpl in H.
      destruct rest as [|[| | |p] rest]; try discriminate. simpl in H.
      unfold readRect in H. simpl in H.
      destruct rest as [|[| |crop|] rest]; try discriminate. simpl in H.
      rewrite Hold in H. simpl in H. inversion H; subst. reflexivity.
    + unfold readRect in H. simpl in H.
      destruct rest as [|[| |crop|] rest]; try discriminate. simpl in H.
      rewrite Hold in H. simpl in H. inversion H; subst. reflexivity.
Qed.

(** X18 at a sample input. *)
Lemma CreateProc_old_version_device_space_witness :
  versionLT_PictureImageFilterResolution PictureSamples.oldBuffer = true /\
  exists f b', CreateProc PictureSamples.oldBuffer = Some (f, b') /\
               fPictureResolution f = kDeviceSpace_PictureResolution.
Proof.
  split; [reflexivity|].
  eexists. eexists. split; [reflexivity|].
  exact (CreateProc_old_version_device_space PictureSamples.oldBuffer _ _
           eq_refl eq_refl).
Defined.

Lemma SkIRect_intersect_spec : forall a r b,
  SkIRect_intersect a r = Some b ->
  SkIRect_isEmpty b = false /\
  SkIRect.fLeft r <= SkIRect.fLeft b /\ SkIRect.fRight b <= SkIRect.fRight r /\
  SkIRect.fTop r <= SkIRect.fTop b /\ SkIRect.fBottom b <= SkIRect.fBottom r /\
  SkIRect.fLeft a <= SkIRect.fLeft b /\ SkIRect.fRight b <= SkIRect.fRight a /\
  SkIRect.fTop a <= SkIRect.fTop b /\ SkIRect.fBottom b <= SkIRect.fBottom a.
Proof.
  intros a r b H. unfold SkIRect_intersect in H.
  destruct (_ && _) eqn:Hc in H; [|discriminate].
  inversion H; subst; clear H.
  repeat (apply andb_true_iff in Hc; destruct Hc as [Hc ?]).
  unfold SkIRect_isEmpty in *. simpl.
  repeat match goal with
         | H : (_ <? _) = true |- _ => apply Z.ltb_lt in H
         | H : negb _ = true |- _ => apply negb_true_iff in H
         | H : (_ || _) = false |- _ => apply orb_false_iff in H; destruct H
         | H : (_ <=? _) = false |- _ => apply Z.leb_gt in H
         end.
  split; [|lia].
  apply orb_false_iff. split; apply Z.leb_gt; lia.
Qed.

Lemma to_i32_small : forall x, fitsInt32 x = true -> to_i32 x = x.
Proof.
  intros x H. unfold fitsInt32 in H. apply andb_true_iff in H. destruct H as [H1 H2].
  apply Z.leb_le in H1. apply Z.ltb_lt in H2. unfold to_i32.
  rewrite Z.mod_small by lia. lia.
Qed.

Lemma fitsInt32_between : forall x y, 0 <= x <= y -> fitsInt32 y = true -> fitsInt32 x = true.
Proof.
  intros x y Hxy H. unfold fitsInt32 in *. apply andb_true_iff in H. destruct H as [H1 H2].
  apply Z.leb_le in H1. apply Z.ltb_lt in H2.
  apply andb_true_iff. split; [apply Z.leb_le|apply Z.ltb_lt]; lia.
Qed.

(** X19. Let the rounded-out mapped crop rectangle and the clip bounds have
    [int32_t] edges, and the clip bounds a width and a height that are
    [int32_t]s.  When [onFilterImage] succeeds on a filter with a picture,
    it has drawn, once, into a device of the size of the part of the mapped
    crop rectangle that lies inside the clip bounds; that part is not
    empty, its width and height did not wrap, the result is the device's
    bitmap and the offset is the part's top-left corner, a point of the clip
    bounds.  When it fails it leaves the result and the offset alone and
    draws nothing. *)
Theorem onFilterImage_outcome :
  forall f proxy ctx result offset p,
    fPicture f = Some p ->
    isInt32Rect (SkRect.roundOut (mapRect proxy (ctm ctx) (fCropRect f))) = true ->
    isInt32Rect (clipBounds ctx) = true ->
    fitsInt32 (SkIRect.width (clipBounds ctx)) = true ->
    fitsInt32 (SkIRect.height (clipBounds ctx)) = true ->
    let r := onFilterImage f proxy ctx result offset in
    if returned r
    then exists device bounds,
           SkIRect_intersect (SkRect.roundOut (mapRect proxy (ctm ctx) (fCropRect f)))
                             (clipBounds ctx) = Some bounds /\
           createDevice proxy (SkIRect.width bounds) (SkIRect.height bounds)
             = Some device /\
           outResult r = bitmapOf device /\
           outOffset r = SkIPoint.Make (SkIRect.fLeft bounds) (SkIRect.fTop bounds) /\
           0 < SkIRect.width bounds /\ 0 < SkIRect.height bounds /\
           fitsInt32 (SkIRect.width bounds) = true /\
           fitsInt32 (SkIRect.height bounds) = true /\
           SkIRect.fLeft (clipBounds ctx) <= SkIPoint.fX (outOffset r)
             < SkIRect.fRight (clipBounds ctx) /\
           SkIRect.fTop (clipBounds ctx) <= SkIPoint.fY (outOffset r)
             < SkIRect.fBottom (clipBounds ctx) /\
           (drawCall r = Some (drawPictureAtLocalResolution device bounds) \/
            drawCall r = Some (drawPictureAtDeviceResolution device bounds))
    else outResult r = result /\ outOffset r = offset /\ drawCall r = None.
Proof.
  intros f proxy ctx result offset p Hp _ _ Hcw Hch r. subst r.
  unfold onFilterImage. rewrite Hp.
  destruct (SkIRect_intersect _ _) as [bounds|] eqn:Hi; simpl; [|auto].
  pose proof Hi as Hspec. apply SkIRect_intersect_spec in Hspec.
  destruct Hspec as (Hne & Hl & Hr & Ht & Hb & _).
  rewrite Hne.
  assert (Hdim : SkIRect.fLeft bounds < SkIRect.fRight bounds /\
                 SkIRect.fTop bounds < SkIRect.fBottom bounds).
  { unfold SkIRect_isEmpty in Hne. apply orb_false_iff in Hne.
    destruct Hne as [H1 H2]. apply Z.leb_gt in H1, H2. lia. }
  assert (Hw : fitsInt32 (SkIRect.width bounds) = true).
  { apply fitsInt32_between with (y := SkIRect.width (clipBounds ctx)); [|exact Hcw].
    unfold SkIRect.width. lia. }
  assert (Hh : fitsInt32 (SkIRect.height bounds) = true).
  { apply fitsInt32_between with (y := SkIRect.height (clipBounds ctx)); [|exact Hch].
    unfold SkIRect.height. lia. }
  unfold SkIRect_width32, SkIRect_height32.
  fold (SkIRect.width bounds). fold (SkIRect.height bounds).
  rewrite (to_i32_small _ Hw), (to_i32_small _ Hh).
  destruct (createDevice proxy _ _) as [device|] eqn:Hd; simpl; [|auto].
  exists device, bounds.
  split; [reflexivity|]. split; [exact Hd|]. split; [reflexivity|].
  split; [reflexivity|].
  unfold SkIRect.width, SkIRect.height in *.
  repeat split; try lia; auto.
  destruct (isLocalSpace _ && _); auto.
Qed.

(** X19 at a sample input: the crop rectangle (10,10,60,60) in a clip of
    40 by 40. *)
Lemma onFilterImage_outcome_witness :
  let r := onFilterImage PictureSamples.filter PictureSamples.proxy PictureSamples.ctx
                         emptyBitmap (SkIPoint.Make 3 4) in
  (fPicture PictureSamples.filter = Some PictureSamples.picture /\
   isInt32Rect (SkRect.roundOut (mapRect PictureSamples.proxy (ctm PictureSamples.ctx)
                                         (fCropRect PictureSamples.filter))) = true /\
   isInt32Rect (clipBounds PictureSamples.ctx) = true /\
   fitsInt32 (SkIRect.width (clipBounds PictureSamples.ctx)) = true /\
   fitsInt32 (SkIRect.height (clipBounds PictureSamples.ctx)) = true) /\
  returned r = true /\
  if returned r
  then exists device bounds,
         SkIRect_intersect
           (SkRect.roundOut (mapRect PictureSamples.proxy (ctm PictureSamples.ctx)
                                     (fCropRect PictureSamples.filter)))
           (clipBounds PictureSamples.ctx) = Some bounds /\
         createDevice PictureSamples.proxy (SkIRect.width bounds) (SkIRect.height bounds)
           = Some device /\
         outResult r = bitmapOf device /\
         outOffset r = SkIPoint.Make (SkIRect.fLeft bounds) (SkIRect.fTop bounds) /\
         0 < SkIRect.width bounds /\ 0 < SkIRect.height bounds /\
         fitsInt32 (SkIRect.width bounds) = true /\
         fitsInt32 (SkIRect.height bounds) = true /\
         SkIRect.fLeft (clipBounds PictureSamples.ctx) <= SkIPoint.fX (outOffset r)
           < SkIRect.fRight (clipBounds PictureSamples.ctx) /\
         SkIRect.fTop (clipBounds PictureSamples.ctx) <= SkIPoint.fY (outOffset r)
           < SkIRect.fBottom (clipBounds PictureSamples.ctx) /\
         (drawCall r = Some (drawPictureAtLocalResolution device bounds) \/
          drawCall r = Some (drawPictureAtDeviceResolution device bounds))
  else outResult r = emptyBitmap /\ outOffset r = SkIPoint.Make 3 4 /\ drawCall r = None.
Proof.
  intros r.
  exact (conj (conj eq_refl (conj eq_refl (conj eq_refl (conj eq_refl eq_refl))))
           (conj eq_refl
              (onFilterImage_outcome PictureSamples.filter PictureSamples.proxy
                 PictureSamples.ctx emptyBitmap (SkIPoint.Make 3 4) PictureSamples.picture
                 eq_refl eq_refl eq_refl eq_refl eq_refl))).
Defined.

End PictureFilterFacts.

(* ================================================================== *)
(** ** SKPBench *)

Section SKPBenchFacts.

Import SKPBench.

Lemma fTileRects_addTile : forall t c bo x y b,
  fTileRects (addTile t c bo x y b) = fTileRects b ++ [MakeXYWH x y t t].
Proof. reflexivity. Qed.

Lemma tilesAt_app : forall a b x y, tilesAt (a ++ b) x y = (tilesAt a x y + tilesAt b x y)%nat.
Proof. intros. unfold tilesAt. now rewrite filter_app, length_app. Qed.

Lemma pow2_pos : forall e, (0 < pow2 e)%Q.
Proof. intros e. unfold pow2. apply Qpower_0_lt. reflexivity. Qed.

Lemma pow2_add : forall a b, (pow2 (a + b) == pow2 a * pow2 b)%Q.
Proof. intros a b. unfold pow2. apply Qpower_plus. discriminate. Qed.

Lemma pow2_0 : (pow2 0 == 1)%Q.
Proof. reflexivity. Qed.

Lemma pow2_inject : forall e, 0 <= e -> (pow2 e == inject_Z (2 ^ e))%Q.
Proof. intros e He. unfold pow2. symmetry. apply (Zpower_Qpower 2 e He). Qed.

Lemma pow2_cancel : forall a, (pow2 a * pow2 (- a) == 1)%Q.
Proof. intros a. rewrite <- pow2_add. replace (a + - a) with 0 by lia. reflexivity. Qed.

Lemma pow2_le : forall a b, a <= b -> (pow2 a <= pow2 b)%Q.
Proof.
  intros a b Hab. replace b with (a + (b - a)) by lia. rewrite pow2_add.
  rewrite <- (Qmult_1_r (pow2 a)) at 1.
  apply Qmult_le_l; [apply pow2_pos|].
  rewrite pow2_inject by lia. change 1%Q with (inject_Z 1). rewrite <- Zle_Qle.
  assert (0 < 2 ^ (b - a)) by (apply Z.pow_pos_nonneg; lia). lia.
Qed.

Lemma pow2_lt : forall a b, a < b -> (pow2 a < pow2 b)%Q.
Proof.
  intros a b Hab. replace b with (a + (b - a)) by lia. rewrite pow2_add.
  rewrite <- (Qmult_1_r (pow2 a)) at 1.
  apply Qmult_lt_l; [apply pow2_pos|].
  rewrite pow2_inject by lia. change 1%Q with (inject_Z 1). rewrite <- Zlt_Qlt.
  assert (2 ^ 0 < 2 ^ (b - a)) by (apply Z.pow_lt_mono_r; lia).
  simpl in *. lia.
Qed.

Lemma pow2_shift_lt : forall x p q, (x * pow2 q < pow2 p)%Q -> (x < pow2 (p - q))%Q.
Proof.
  intros x p q H.
  assert (E : (x == x * pow2 q * pow2 (- q))%Q).
  { rewrite <- Qmult_assoc, pow2_cancel, Qmult_1_r. reflexivity. }
  rewrite E. replace (p - q) with (p + - q) by lia. rewrite pow2_add.
  apply Qmult_lt_r; [apply pow2_pos|exact H].
Qed.

Lemma pow2_shift_gt : forall x p q, (pow2 p < x * pow2 q)%Q -> (pow2 (p - q) < x)%Q.
Proof.
  intros x p q H.
  assert (E : (x == x * pow2 q * pow2 (- q))%Q).
  { rewrite <- Qmult_assoc, pow2_cancel, Qmult_1_r. reflexivity. }
  rewrite E. replace (p - q) with (p + - q) by lia. rewrite pow2_add.
  apply Qmult_lt_r; [apply pow2_pos|exact H].
Qed.

Lemma binaryExponent_spec : forall x,
  (0 < x)%Q ->
  (pow2 (binaryExponent x) <= x)%Q /\ (x < pow2 (binaryExponent x + 1))%Q.
Proof.
  intros [n d] Hx.
  assert (Hn : 0 < n) by (unfold Qlt in Hx; simpl in Hx; lia).
  unfold binaryExponent. simpl Qnum. simpl Qden.
  pose proof (Z.log2_spec n Hn) as [Hn1 Hn2].
  pose proof (Z.log2_spec (Z.pos d) ltac:(lia)) as [Hd1 Hd2].
  pose proof (Z.log2_nonneg n) as Hln. pose proof (Z.log2_nonneg (Z.pos d)) as Hld.
  set (ln := Z.log2 n) in *. set (ld := Z.log2 (Z.pos d)) in *.
  assert (P1 : 0 < 2 ^ ln) by (apply Z.pow_pos_nonneg; lia).
  assert (P2 : 0 < 2 ^ ld) by (apply Z.pow_pos_nonneg; lia).
  assert (Hup : (n # d < pow2 (ln + 1 - ld))%Q).
  { apply pow2_shift_lt. rewrite !pow2_inject by lia.
    unfold Qlt. simpl. rewrite Z.mul_1_r.
    replace (2 ^ Z.succ ln) with (2 ^ (ln + 1)) in Hn2 by (f_equal; lia). nia. }
  assert (Hlow : (pow2 (ln - (ld + 1)) < n # d)%Q).
  { apply pow2_shift_gt. rewrite !pow2_inject by lia.
    unfold Qlt. simpl. rewrite Z.mul_1_r.
    replace (2 ^ Z.succ ld) with (2 ^ (ld + 1)) in Hd2 by (f_equal; lia). nia. }
  destruct (Qle_bool (pow2 (ln - ld)) (n # d)) eqn:Hc.
  - apply Qle_bool_iff in Hc. split; [exact Hc|].
    replace (ln - ld + 1) with (ln + 1 - ld) by lia. exact Hup.
  - assert (Hlt : (n # d < pow2 (ln - ld))%Q).
    { apply Qnot_le_lt. intros H. apply Qle_bool_iff in H. congruence. }
    split.
    + apply Qlt_le_weak. replace (ln - ld - 1) with (ln - (ld + 1)) by lia. exact Hlow.
    + replace (ln - ld - 1 + 1) with (ln - ld) by lia. exact Hlt.
Qed.

Lemma roundHalfEven_int : forall s j, (s == inject_Z j)%Q -> roundHalfEven s = j.
Proof.
  intros s j Hs. unfold roundHalfEven.
  assert (Hf : Qfloor s = j) by (rewrite Hs; apply Qfloor_Z).
  rewrite Hf.
  assert (Hc : (s - inject_Z j ?= 1 # 2)%Q = Lt).
  { apply Qlt_alt. rewrite Hs. unfold Qminus. rewrite Qplus_opp_r. reflexivity. }
  now rewrite Hc.
Qed.

Lemma roundHalfEven_error : forall s,
  (s - (1 # 2) <= inject_Z (roundHalfEven s))%Q /\
  (inject_Z (roundHalfEven s) <= s + (1 # 2))%Q.
Proof.
  intros s. unfold roundHalfEven.
  pose proof (Qfloor_le s) as Hlo. pose proof (Qlt_floor s) as Hhi.
  set (f := Qfloor s) in *.
  assert (Hf1 : (inject_Z (f + 1) == inject_Z f + 1)%Q)
    by (rewrite inject_Z_plus; reflexivity).
  rewrite Hf1 in Hhi.
  destruct (s - inject_Z f ?= 1 # 2)%Q eqn:Hc.
  - apply Qeq_alt in Hc. destruct (Z.even f); rewrite ?Hf1; split; lra.
  - apply Qlt_alt in Hc. split; lra.
  - apply Qgt_alt in Hc. rewrite Hf1. split; lra.
Qed.

(** A positive scalar is rounded by less than half a unit in its last
    place. *)
Lemma roundPositive_error : forall x,
  (0 < x)%Q ->
  (x - pow2 (binaryExponent x - 24) <= roundPositive x)%Q /\
  (roundPositive x <= x + pow2 (binaryExponent x - 24))%Q.
Proof.
  intros x Hx. unfold roundPositive. set (e := binaryExponent x).
  destruct (roundHalfEven_error (x * pow2 (23 - e))) as [Hlo Hhi].
  set (r := inject_Z (roundHalfEven (x * pow2 (23 - e)))) in *.
  pose proof (pow2_pos (e - 23)) as Hp.
  assert (Hx' : (x == x * pow2 (23 - e) * pow2 (e - 23))%Q).
  { rewrite <- Qmult_assoc, <- pow2_add. replace (23 - e + (e - 23)) with 0 by lia.
    rewrite pow2_0. ring. }
  assert (Hh : (pow2 (e - 24) == (1 # 2) * pow2 (e - 23))%Q).
  { replace (e - 24) with (-1 + (e - 23)) by lia. rewrite pow2_add. reflexivity. }
  assert (E1 : (x - pow2 (e - 24) == (x * pow2 (23 - e) - (1 # 2)) * pow2 (e - 23))%Q).
  { transitivity (x * pow2 (23 - e) * pow2 (e - 23) - (1 # 2) * pow2 (e - 23))%Q;
      [|ring].
    unfold Qminus. apply Qplus_comp; [exact Hx'|]. apply Qopp_comp. exact Hh. }
  assert (E2 : (x + pow2 (e - 24) == (x * pow2 (23 - e) + (1 # 2)) * pow2 (e - 23))%Q).
  { transitivity (x * pow2 (23 - e) * pow2 (e - 23) + (1 # 2) * pow2 (e - 23))%Q;
      [|ring].
    apply Qplus_comp; [exact Hx'|exact Hh]. }
  split.
  - rewrite E1. apply Qmult_le_compat_r; [exact Hlo|apply Qlt_le_weak; exact Hp].
  - rewrite E2. apply Qmult_le_compat_r; [exact Hhi|apply Qlt_le_weak; exact Hp].
Qed.

Lemma float32_positive : forall x, (0 < x)%Q -> float32 x = roundPositive x.
Proof.
  intros [n d] Hx. unfold float32. simpl.
  destruct n; try reflexivity; unfold Qlt in Hx; simpl in Hx; lia.
Qed.

(** Integers of at most 24 bits are [float]s. *)
Lemma float32_int : forall x k,
  0 <= k < 2 ^ 24 -> (x == inject_Z k)%Q -> (float32 x == inject_Z k)%Q.
Proof.
  intros x k Hk Hx.
  destruct (Z.eq_dec k 0) as [->|Hk0].
  - assert (Hn : Qnum x = 0).
    { unfold Qeq in Hx. simpl in Hx. lia. }
    unfold float32. rewrite Hn. reflexivity.
  - assert (Hpos : (0 < x)%Q).
    { rewrite Hx. change 0%Q with (inject_Z 0). rewrite <- Zlt_Qlt. lia. }
    rewrite float32_positive by exact Hpos.
    destruct (binaryExponent_spec x Hpos) as [Hlo Hhi].
    unfold roundPositive. set (e := binaryExponent x) in *.
    assert (He1 : e < 24).
    { destruct (Z_lt_le_dec e 24) as [H|H]; [exact H|exfalso].
      apply pow2_le in H. rewrite (pow2_inject 24) in H by lia.
      assert (Hc : (inject_Z (2 ^ 24) <= inject_Z k)%Q).
      { rewrite <- Hx. eapply Qle_trans; [exact H|exact Hlo]. }
      rewrite <- Zle_Qle in Hc. lia. }
    assert (He0 : 0 <= e).
    { destruct (Z_lt_le_dec e 0) as [H|H]; [exfalso|exact H].
      assert (H' : e + 1 <= 0) by lia. apply pow2_le in H'. rewrite pow2_0 in H'.
      assert (Hc : (inject_Z k < inject_Z 1)%Q).
      { rewrite <- Hx. eapply Qlt_le_trans; [exact Hhi|exact H']. }
      rewrite <- Zlt_Qlt in Hc. lia. }
    assert (Hs : (x * pow2 (23 - e) == inject_Z (k * 2 ^ (23 - e)))%Q).
    { rewrite Hx, pow2_inject by lia. rewrite inject_Z_mult. reflexivity. }
    rewrite (roundHalfEven_int _ _ Hs), inject_Z_mult.
    rewrite <- pow2_inject by lia.
    rewrite <- Qmult_assoc, <- pow2_add. replace (23 - e + (e - 23)) with 0 by lia.
    rewrite pow2_0. ring.
Qed.

(** The quotient of two integers of at most 24 bits, rounded to a [float],
    has the ceiling of the exact quotient. *)

(** The quotient of two integers of at most 24 bits, rounded to a [float],
    has the ceiling of the exact quotient. *)
Lemma float32_quotient_ceiling : forall x w t,
  0 <= w < 2 ^ 24 -> 0 < t < 2 ^ 24 ->
  (x == inject_Z w / inject_Z t)%Q ->
  Qceiling (float32 x) = (w + t - 1) / t.
Proof.
  intros x w t Hw Ht Hx.
  pose proof (Z.div_mod w t ltac:(lia)) as Hdm.
  pose proof (Z.mod_pos_bound w t ltac:(lia)) as Hr.
  assert (Hk0 : 0 <= w / t) by (apply Z.div_pos; lia).
  set (k := w / t) in *. set (r := w mod t) in *.
  assert (Htq : (0 < inject_Z t)%Q)
    by (change 0%Q with (inject_Z 0); rewrite <- Zlt_Qlt; lia).
  assert (Hxt : (x * inject_Z t == inject_Z w)%Q).
  { rewrite Hx. field. intros H. rewrite H in Htq. discriminate. }
  destruct (Z.eq_dec r 0) as [Hr0|Hr0].
  - (* the quotient is an integer *)
    assert (Hk : 0 <= k < 2 ^ 24) by nia.
    assert (Hxk : (x == inject_Z k)%Q).
    { apply (Qmult_inj_r _ _ (inject_Z t)); [intros H; rewrite H in Htq; discriminate|].
      rewrite Hxt, <- inject_Z_mult. apply inject_Z_injective. lia. }
    rewrite (float32_int x k Hk Hxk).
    assert (Hc : Qceiling (inject_Z k) = k).
    { unfold Qceiling. rewrite <- inject_Z_opp, Qfloor_Z. lia. }
    rewrite Hc. apply Z.div_unique with (r := t - 1); lia.
  - (* the quotient lies strictly between two integers *)
    assert (Hres : (w + t - 1) / t = k + 1).
    { symmetry. apply Z.div_unique with (r := r - 1); lia. }
    rewrite Hres.
    assert (Hpos : (0 < x)%Q).
    { apply (Qmult_lt_r _ _ (inject_Z t) Htq). rewrite Qmult_0_l, Hxt.
      change 0%Q with (inject_Z 0). rewrite <- Zlt_Qlt. nia. }
    rewrite float32_positive by exact Hpos.
    destruct (binaryExponent_spec x Hpos) as [Hlo _].
    destruct (roundPositive_error x Hpos) as [He1 He2].
    set (e := binaryExponent x) in *. set (y := roundPositive x) in *.
    (* half a unit in the last place is below 1/t *)
    assert (Hulp : (pow2 (e - 24) * inject_Z t < 1)%Q).
    { assert (H1 : (pow2 e * inject_Z t <= inject_Z w)%Q).
      { rewrite <- Hxt. apply Qmult_le_compat_r; [exact Hlo|apply Qlt_le_weak; exact Htq]. }
      assert (H2 : (inject_Z w < pow2 24)%Q).
      { rewrite pow2_inject by lia. rewrite <- Zlt_Qlt. lia. }
      assert (H3 : (pow2 (e - 24) == pow2 e * pow2 (- 24))%Q).
      { replace (e - 24) with (e + - 24) by lia. apply pow2_add. }
      rewrite H3.
      setoid_replace (pow2 e * pow2 (- 24) * inject_Z t)%Q
        with (pow2 e * inject_Z t * pow2 (- 24))%Q by ring.
      apply Qle_lt_trans with (inject_Z w * pow2 (- 24))%Q.
      - apply Qmult_le_compat_r; [exact H1|apply Qlt_le_weak; apply pow2_pos].
      - setoid_replace 1%Q with (pow2 24 * pow2 (- 24))%Q
          by (symmetry; apply pow2_cancel).
        apply Qmult_lt_r; [apply pow2_pos|exact H2]. }
    (* the exact quotient keeps 1/t away from the integers around it *)
    assert (Hxlo : (inject_Z k * inject_Z t + 1 <= x * inject_Z t)%Q).
    { rewrite Hxt. change 1%Q with (inject_Z 1).
      rewrite <- inject_Z_mult, <- inject_Z_plus, <- Zle_Qle. lia. }
    assert (Hxhi : (x * inject_Z t + 1 <= inject_Z (k + 1) * inject_Z t)%Q).
    { rewrite Hxt. change 1%Q with (inject_Z 1).
      rewrite <- inject_Z_mult, <- inject_Z_plus, <- Zle_Qle. lia. }
    assert (Hylo : (inject_Z k < y)%Q).
    { apply (Qmult_lt_r _ _ (inject_Z t) Htq).
      apply Qlt_le_trans with ((x - pow2 (e - 24)) * inject_Z t)%Q.
      - setoid_replace ((x - pow2 (e - 24)) * inject_Z t)%Q
          with (x * inject_Z t - pow2 (e - 24) * inject_Z t)%Q by ring.
        lra.
      - apply Qmult_le_compat_r; [exact He1|apply Qlt_le_weak; exact Htq]. }
    assert (Hyhi : (y < inject_Z (k + 1))%Q).
    { apply (Qmult_lt_r _ _ (inject_Z t) Htq).
      apply Qle_lt_trans with ((x + pow2 (e - 24)) * inject_Z t)%Q.
      - apply Qmult_le_compat_r; [exact He2|apply Qlt_le_weak; exact Htq].
      - setoid_replace ((x + pow2 (e - 24)) * inject_Z t)%Q
          with (x * inject_Z t + pow2 (e - 24) * inject_Z t)%Q by ring.
        lra. }
    pose proof (Qle_ceiling y) as Hc1. pose proof (Qceiling_lt y) as Hc2.
    assert (A : (inject_Z k < inject_Z (Qceiling y))%Q)
      by (eapply Qlt_le_trans; [exact Hylo|exact Hc1]).
    assert (B : (inject_Z (Qceiling y - 1) < inject_Z (k + 1))%Q)
      by (eapply Qlt_trans; [exact Hc2|exact Hyhi]).
    rewrite <- Zlt_Qlt in A, B. lia.
Qed.

Lemma tileRow_facts : forall fuel t c bo y x b,
  0 < t ->
  (Z.to_nat (SkIRect.fRight bo - x) < fuel)%nat ->
  exists b',
    tileRow fuel t c bo y x b = Some b' /\
    reserved b' = reserved b /\
    (length (fSurfaces b) = length (fTileRects b) ->
     length (fSurfaces b') = length (fTileRects b')) /\
    Z.of_nat (length (fTileRects b'))
    = Z.of_nat (length (fTileRects b))
      + Z.max 0 ((SkIRect.fRight bo - x + t - 1) / t) /\
    (forall px py, px < SkIRect.fRight bo ->
       tilesAt (fTileRects b') px py
       = (tilesAt (fTileRects b) px py
          + (if ((y <=? py) && (py <? y + t) && (x <=? px))%Z then 1 else 0))%nat).
Proof.
  induction fuel as [|fuel IH]; intros t c bo y x b Ht Hfuel; [lia|].
  simpl. destruct (Z.ltb_spec x (SkIRect.fRight bo)) as [Hlt|Hge].
  - destruct (IH t c bo y (x + t) (addTile t c bo x y b) Ht ltac:(lia))
      as (b' & Hrun & Hres & Hlen & Hcount & Hat).
    exists b'. split; [exact Hrun|]. split; [exact Hres|]. split; [|split].
    + intros Heq. apply Hlen. simpl. rewrite !length_app. simpl. lia.
    + rewrite Hcount, fTileRects_addTile, length_app. simpl.
      replace (SkIRect.fRight bo - x + t - 1)
        with (SkIRect.fRight bo - (x + t) + t - 1 + 1 * t) by lia.
      rewrite Z.div_add by lia.
      assert (0 <= (SkIRect.fRight bo - (x + t) + t - 1) / t).
      { apply Z.div_pos; lia. }
      lia.
    + intros px py Hpx. rewrite (Hat px py Hpx), fTileRects_addTile, tilesAt_app.
      unfold tilesAt at 2. simpl. unfold containsXY. simpl.
      destruct (Z.leb_spec y py), (Z.ltb_spec py (y + t)), (Z.leb_spec x px),
               (Z.ltb_spec px (x + t)), (Z.leb_spec (x + t) px); simpl; lia.
  - exists b. split; [reflexivity|]. split; [reflexivity|]. split; [auto|]. split.
    + assert ((SkIRect.fRight bo - x + t - 1) / t <= 0).
      { assert ((SkIRect.fRight bo - x + t - 1) / t < 1); [|lia].
        apply Z.div_lt_upper_bound; lia. }
      lia.
    + intros px py Hpx.
      destruct (Z.leb_spec x px); [lia|]. rewrite andb_false_r. lia.
Qed.

Lemma tileRows_facts : forall fuel t c bo y b,
  0 < t ->
  (Z.to_nat (SkIRect.width bo) + Z.to_nat (SkIRect.fBottom bo - y) < fuel)%nat ->
  exists b',
    tileRows fuel t c bo y b = Some b' /\
    reserved b' = reserved b /\
    (length (fSurfaces b) = length (fTileRects b) ->
     length (fSurfaces b') = length (fTileRects b')) /\
    Z.of_nat (length (fTileRects b'))
    = Z.of_nat (length (fTileRects b))
      + Z.max 0 ((SkIRect.fBottom bo - y + t - 1) / t)
        * Z.max 0 ((SkIRect.width bo + t - 1) / t) /\
    (forall px py, px < SkIRect.fRight bo -> py < SkIRect.fBottom bo ->
       tilesAt (fTileRects b') px py
       = (tilesAt (fTileRects b) px py
          + (if ((y <=? py) && (SkIRect.fLeft bo <=? px))%Z then 1 else 0))%nat).
Proof.
  induction fuel as [|fuel IH]; intros t c bo y b Ht Hfuel; [lia|].
  cbn [tileRows]. unfold SkIRect.width in *.
  destruct (Z.ltb_spec y (SkIRect.fBottom bo)) as [Hlt|Hge].
  - destruct (tileRow_facts (S fuel) t c bo y (SkIRect.fLeft bo) b Ht ltac:(lia))
      as (b1 & Hrow & Hres1 & Hlen1 & Hcount1 & Hat1).
    rewrite Hrow.
    destruct (IH t c bo (y + t) b1 Ht ltac:(lia))
      as (b' & Hrun & Hres & Hlen & Hcount & Hat).
    exists b'. split; [exact Hrun|]. split; [congruence|]. split; [auto|]. split.
    + rewrite Hcount, Hcount1.
      replace (SkIRect.fBottom bo - y + t - 1)
        with (SkIRect.fBottom bo - (y + t) + t - 1 + 1 * t) by lia.
      rewrite Z.div_add by lia.
      assert (0 <= (SkIRect.fBottom bo - (y + t) + t - 1) / t).
      { apply Z.div_pos; lia. }
      nia.
    + intros px py Hpx Hpy. rewrite (Hat px py Hpx Hpy), (Hat1 px py Hpx).
      destruct (Z.leb_spec y py), (Z.ltb_spec py (y + t)),
               (Z.leb_spec (SkIRect.fLeft bo) px), (Z.leb_spec (y + t) py);
        simpl; lia.
  - exists b. split; [reflexivity|]. split; [reflexivity|]. split; [auto|]. split.
    + assert ((SkIRect.fBottom bo - y + t - 1) / t <= 0).
      { assert ((SkIRect.fBottom bo - y + t - 1) / t < 1); [|lia].
        apply Z.div_lt_upper_bound; lia. }
      replace (Z.max 0 ((SkIRect.fBottom bo - y + t - 1) / t)) with 0 by lia. lia.
    + intros px py Hpx Hpy.
      destruct (Z.leb_spec y py); [lia|]. simpl. lia.
Qed.

Lemma drawTiles_paired : forall rects surfaces visited,
  length surfaces = length rects ->
  drawTiles rects (length visited) (visited ++ surfaces)
  = Some (map (fun sr => {| image := fst sr;
                            imageLeft := SkIntToScalar (SkIRect.fLeft (snd sr));
                            imageTop := SkIntToScalar (SkIRect.fTop (snd sr)) |})
              (combine surfaces rects)).
Proof.
  induction rects as [|r rects IH]; intros surfaces visited Hlen.
  - destruct surfaces; [reflexivity|discriminate].
  - destruct surfaces as [|s surfaces]; [discriminate|].
    simpl. rewrite nth_error_app2 by lia. rewrite Nat.sub_diag. simpl.
    specialize (IH surfaces (visited ++ [s]) ltac:(simpl in Hlen; lia)).
    rewrite length_app, <- app_assoc in IH. simpl in IH.
    rewrite Nat.add_1_r in IH. rewrite IH. reflexivity.
Qed.

(** X20. With a positive tile size the loops of [onPerCanvasPreDraw] end,
    and every pixel of the canvas's clip bounds lies in exactly one of the
    tiles laid out. *)
Theorem onPerCanvasPreDraw_tiles_partition :
  forall fuel benchTile canvas b,
    0 < benchTile ->
    SkIRect.fRight (clipDeviceBounds canvas) + benchTile <= INT_MAX ->
    SkIRect.fBottom (clipDeviceBounds canvas) + benchTile <= INT_MAX ->
    fUseMultiPictureDraw b = true ->
    fTileRects b = [] ->
    (Z.to_nat (SkIRect.width (clipDeviceBounds canvas))
     + Z.to_nat (SkIRect.height (clipDeviceBounds canvas)) < fuel)%nat ->
    exists b',
      onPerCanvasPreDraw fuel benchTile canvas b = Some b' /\
      forall px py,
        containsXY (clipDeviceBounds canvas) px py = true ->
        tilesAt (fTileRects b') px py = 1%nat.
Proof.
  intros fuel t canvas b Ht _ _ Hmpd Hempty Hfuel.
  unfold onPerCanvasPreDraw. rewrite Hmpd. simpl negb. cbv iota.
  set (bo := clipDeviceBounds canvas) in *.
  match goal with
  | |- exists b', tileRows _ _ _ _ _ ?b1 = _ /\ _ =>
      destruct (tileRows_facts fuel t canvas bo (SkIRect.fTop bo) b1 Ht)
        as (b' & Hrun & _ & _ & _ & Hat)
  end.
  { unfold SkIRect.height in Hfuel. exact Hfuel. }
  exists b'. split; [exact Hrun|].
  intros px py Hin. unfold containsXY in Hin.
  repeat (apply andb_true_iff in Hin; destruct Hin as [Hin ?]).
  rewrite Hat by (apply Z.ltb_lt; assumption).
  simpl fTileRects. rewrite Hempty.
  match goal with H : (SkIRect.fTop bo <=? py) = true |- _ => rewrite H end.
  rewrite Hin. reflexivity.
Qed.

(** X20 at a sample input: 5 by 3 pixels in tiles of 2. *)
Lemma onPerCanvasPreDraw_tiles_partition_witness :
  (0 < 2 /\
   SkIRect.fRight (clipDeviceBounds BenchSamples.canvas) + 2 <= INT_MAX /\
   SkIRect.fBottom (clipDeviceBounds BenchSamples.canvas) + 2 <= INT_MAX /\
   fUseMultiPictureDraw BenchSamples.bench = true /\
   fTileRects BenchSamples.bench = [] /\
   (Z.to_nat (SkIRect.width (clipDeviceBounds BenchSamples.canvas))
    + Z.to_nat (SkIRect.height (clipDeviceBounds BenchSamples.canvas)) < 9)%nat) /\
  exists b',
    onPerCanvasPreDraw 9 2 BenchSamples.canvas BenchSamples.bench = Some b' /\
    forall px py,
      containsXY (clipDeviceBounds BenchSamples.canvas) px py = true ->
      tilesAt (fTileRects b') px py = 1%nat.
Proof.
  assert (H0 : 0 < 2) by lia.
  assert (H1 : SkIRect.fRight (clipDeviceBounds BenchSamples.canvas) + 2 <= INT_MAX)
    by (vm_compute; discriminate).
  assert (H2 : SkIRect.fBottom (clipDeviceBounds BenchSamples.canvas) + 2 <= INT_MAX)
    by (vm_compute; discriminate).
  assert (H3 : (Z.to_nat (SkIRect.width (clipDeviceBounds BenchSamples.canvas))
                + Z.to_nat (SkIRect.height (clipDeviceBounds BenchSamples.canvas)) < 9)%nat)
    by (vm_compute; lia).
  exact (conj (conj H0 (conj H1 (conj H2 (conj eq_refl (conj eq_refl H3)))))
              (onPerCanvasPreDraw_tiles_partition 9 2 BenchSamples.canvas
                 BenchSamples.bench H0 H1 H2 eq_refl eq_refl H3)).
Defined.

(** X21. On clip bounds of a width and a height below [2 ^ 24], with a
    tile size below [2 ^ 24] and no more pixels than an [int] counts, a bench
    without tiles lays out exactly as many tiles as it reserved room for,
    [xTiles * yTiles] as the code computes it in [float], and one surface
    for each tile. *)
Theorem onPerCanvasPreDraw_fills_reservation :
  forall fuel benchTile canvas b,
    0 < benchTile < 2 ^ 24 ->
    SkIRect.fRight (clipDeviceBounds canvas) + benchTile <= INT_MAX ->
    SkIRect.fBottom (clipDeviceBounds canvas) + benchTile <= INT_MAX ->
    0 <= SkIRect.width (clipDeviceBounds canvas) < 2 ^ 24 ->
    0 <= SkIRect.height (clipDeviceBounds canvas) < 2 ^ 24 ->
    SkIRect.width (clipDeviceBounds canvas) * SkIRect.height (clipDeviceBounds canvas)
      <= INT_MAX ->
    fUseMultiPictureDraw b = true ->
    fTileRects b = [] ->
    fSurfaces b = [] ->
    (Z.to_nat (SkIRect.width (clipDeviceBounds canvas))
     + Z.to_nat (SkIRect.height (clipDeviceBounds canvas)) < fuel)%nat ->
    exists b',
      onPerCanvasPreDraw fuel benchTile canvas b = Some b' /\
      Z.of_nat (length (fTileRects b')) = reserved b' /\
      reserved b' = xTiles benchTile (clipDeviceBounds canvas)
                    * yTiles benchTile (clipDeviceBounds canvas) /\
      length (fSurfaces b') = length (fTileRects b').
Proof.
  intros fuel t canvas b Ht _ _ Hw Hh Harea Hmpd Hempty Hsurf Hfuel.
  unfold onPerCanvasPreDraw. rewrite Hmpd. simpl negb. cbv iota.
  set (bo := clipDeviceBounds canvas) in *.
  match goal with
  | |- exists b', tileRows _ _ _ _ _ ?b1 = _ /\ _ =>
      destruct (tileRows_facts fuel t canvas bo (SkIRect.fTop bo) b1 ltac:(lia))
        as (b' & Hrun & Hres & Hlen & Hcount & _)
  end.
  { unfold SkIRect.height in Hfuel. exact Hfuel. }
  exists b'. split; [exact Hrun|].
  simpl in Hres, Hlen, Hcount. rewrite Hempty in *. rewrite Hsurf in *.
  assert (Hfit : forall x, 0 <= x < 2 ^ 24 -> fitsInt32 x = true).
  { intros x Hx. unfold fitsInt32. apply andb_true_iff.
    split; [apply Z.leb_le|apply Z.ltb_lt]; lia. }
  assert (Hx : xTiles t bo = (SkIRect.width bo + t - 1) / t).
  { unfold xTiles, SkIRect_width32. fold (SkIRect.width bo).
    rewrite (to_i32_small _ (Hfit _ Hw)).
    apply float32_quotient_ceiling; [exact Hw|exact Ht|].
    unfold SkIntToScalar.
    rewrite (float32_int (inject_Z (SkIRect.width bo)) (SkIRect.width bo) Hw
                         (Qeq_refl _)).
    rewrite (float32_int (inject_Z t) t ltac:(lia) (Qeq_refl _)). reflexivity. }
  assert (Hy : yTiles t bo = (SkIRect.height bo + t - 1) / t).
  { unfold yTiles, SkIRect_height32. fold (SkIRect.height bo).
    rewrite (to_i32_small _ (Hfit _ Hh)).
    apply float32_quotient_ceiling; [exact Hh|exact Ht|].
    unfold SkIntToScalar.
    rewrite (float32_int (inject_Z (SkIRect.height bo)) (SkIRect.height bo) Hh
                         (Qeq_refl _)).
    rewrite (float32_int (inject_Z t) t ltac:(lia) (Qeq_refl _)). reflexivity. }
  rewrite Hx, Hy in *.
  assert (Hceil : forall a, 0 <= a -> 0 <= (a + t - 1) / t <= a).
  { intros a Ha. split; [apply Z.div_pos; lia|].
    destruct (Z.eq_dec a 0) as [->|Hne].
    - rewrite Z.div_small; lia.
    - apply Z.div_le_upper_bound; [lia|]. nia. }
  pose proof (Hceil _ (proj1 Hw)) as Hcw. pose proof (Hceil _ (proj1 Hh)) as Hchh.
  assert (Hprod : fitsInt32 ((SkIRect.width bo + t - 1) / t
                             * ((SkIRect.height bo + t - 1) / t)) = true).
  { unfold fitsInt32, INT_MAX in *. apply andb_true_iff.
    split; [apply Z.leb_le|apply Z.ltb_lt]; nia. }
  rewrite (to_i32_small _ Hprod) in Hres.
  split; [|split; [exact Hres|apply Hlen; reflexivity]].
  rewrite Hcount, Hres. simpl.
  unfold SkIRect.height in *. lia.
Qed.

(** X21 at a sample input: 5 by 3 pixels in tiles of 2. *)
Lemma onPerCanvasPreDraw_fills_reservation_witness :
  (0 < 2 < 2 ^ 24 /\
   0 <= SkIRect.width (clipDeviceBounds BenchSamples.canvas) < 2 ^ 24 /\
   0 <= SkIRect.height (clipDeviceBounds BenchSamples.canvas) < 2 ^ 24 /\
   SkIRect.width (clipDeviceBounds BenchSamples.canvas)
   * SkIRect.height (clipDeviceBounds BenchSamples.canvas) <= INT_MAX) /\
  exists b',
    onPerCanvasPreDraw 9 2 BenchSamples.canvas BenchSamples.bench = Some b' /\
    Z.of_nat (length (fTileRects b')) = reserved b' /\
    reserved b' = xTiles 2 (clipDeviceBounds BenchSamples.canvas)
                  * yTiles 2 (clipDeviceBounds BenchSamples.canvas) /\
    length (fSurfaces b') = length (fTileRects b').
Proof.
  assert (H0 : 0 < 2 < 2 ^ 24) by lia.
  assert (H1 : SkIRect.fRight (clipDeviceBounds BenchSamples.canvas) + 2 <= INT_MAX)
    by (vm_compute; discriminate).
  assert (H2 : SkIRect.fBottom (clipDeviceBounds BenchSamples.canvas) + 2 <= INT_MAX)
    by (vm_compute; discriminate).
  assert (Hw : 0 <= SkIRect.width (clipDeviceBounds BenchSamples.canvas) < 2 ^ 24)
    by (vm_compute; split; [discriminate|reflexivity]).
  assert (Hh : 0 <= SkIRect.height (clipDeviceBounds BenchSamples.canvas) < 2 ^ 24)
    by (vm_compute; split; [discriminate|reflexivity]).
  assert (Ha : SkIRect.width (clipDeviceBounds BenchSamples.canvas)
               * SkIRect.height (clipDeviceBounds BenchSamples.canvas) <= INT_MAX)
    by (vm_compute; discriminate).
  assert (H3 : (Z.to_nat (SkIRect.width (clipDeviceBounds BenchSamples.canvas))
                + Z.to_nat (SkIRect.height (clipDeviceBounds BenchSamples.canvas)) < 9)%nat)
    by (vm_compute; lia).
  exact (conj (conj H0 (conj Hw (conj Hh Ha)))
              (onPerCanvasPreDraw_fills_reservation 9 2 BenchSamples.canvas
                 BenchSamples.bench H0 H1 H2 Hw Hh Ha eq_refl eq_refl eq_refl H3)).
Defined.

(** X22. After [onPerCanvasPreDraw], [onPerCanvasPostDraw] draws the image
    of every surface into the master canvas, each at the top-left corner of
    its tile and in the order of the tiles, and leaves the bench without
    tiles and surfaces. *)
Theorem onPerCanvasPostDraw_draws_every_tile :
  forall fuel benchTile canvas b,
    0 < benchTile ->
    SkIRect.fRight (clipDeviceBounds canvas) + benchTile <= INT_MAX ->
    SkIRect.fBottom (clipDeviceBounds canvas) + benchTile <= INT_MAX ->
    fUseMultiPictureDraw b = true ->
    length (fSurfaces b) = length (fTileRects b) ->
    (Z.to_nat (SkIRect.width (clipDeviceBounds canvas))
     + Z.to_nat (SkIRect.height (clipDeviceBounds canvas)) < fuel)%nat ->
    exists b' b'' draws,
      onPerCanvasPreDraw fuel benchTile canvas b = Some b' /\
      onPerCanvasPostDraw b' = Some (b'', draws) /\
      fTileRects b'' = [] /\ fSurfaces b'' = [] /\
      map image draws = fSurfaces b' /\
      map (fun d => (imageLeft d, imageTop d)) draws
      = map (fun r => (SkIntToScalar (SkIRect.fLeft r), SkIntToScalar (SkIRect.fTop r)))
            (fTileRects b').
Proof.
  intros fuel t canvas b Ht _ _ Hmpd Hpaired Hfuel.
  assert (Hmpd' : forall fuel y b0 b', tileRows fuel t canvas (clipDeviceBounds canvas) y b0
                                       = Some b' ->
                                       fUseMultiPictureDraw b' = fUseMultiPictureDraw b0).
  { assert (Hrow : forall fuel y x b0 b',
               tileRow fuel t canvas (clipDeviceBounds canvas) y x b0 = Some b' ->
               fUseMultiPictureDraw b' = fUseMultiPictureDraw b0).
    { induction fuel0 as [|f IH]; intros y x b0 b' H; [discriminate|].
      simpl in H. destruct (x <? _).
      - apply IH in H. exact H.
      - inversion H; reflexivity. }
    induction fuel0 as [|f IH]; intros y b0 b' H; [discriminate|].
    cbn [tileRows] in H. destruct (y <? _).
    - destruct (tileRow (S f) t canvas _ y _ b0) as [b2|] eqn:Hr; [|discriminate].
      apply IH in H. apply Hrow in Hr. congruence.
    - inversion H; reflexivity. }
  unfold onPerCanvasPreDraw. rewrite Hmpd. simpl negb. cbv iota.
  set (bo := clipDeviceBounds canvas) in *.
  match goal with
  | |- exists b' b'' draws, tileRows _ _ _ _ _ ?b1 = _ /\ _ =>
      destruct (tileRows_facts fuel t canvas bo (SkIRect.fTop bo) b1 Ht)
        as (b' & Hrun & _ & Hlen & _ & _)
  end.
  { unfold SkIRect.height in Hfuel. exact Hfuel. }
  specialize (Hlen Hpaired).
  apply Hmpd' in Hrun as Hm. simpl in Hm.
  exists b'. unfold onPerCanvasPostDraw. rewrite Hm. simpl negb. cbv iota.
  pose proof (drawTiles_paired (fTileRects b') (fSurfaces b') [] Hlen) as Hd.
  simpl in Hd. rewrite Hd.
  eexists. eexists. split; [exact Hrun|]. split; [reflexivity|].
  split; [reflexivity|]. split; [reflexivity|].
  clear - Hlen. revert Hlen.
  generalize (fSurfaces b') as ss. generalize (fTileRects b') as rs.
  induction rs as [|r rs IH]; intros [|s ss] Hlen; try discriminate; simpl.
  - split; reflexivity.
  - destruct (IH ss ltac:(simpl in Hlen; lia)) as [H1 H2].
    rewrite H1, H2. split; reflexivity.
Qed.

(** X22 at a sample input: 5 by 3 pixels in tiles of 2. *)
Lemma onPerCanvasPostDraw_draws_every_tile_witness :
  (0 < 2 /\
   fUseMultiPictureDraw BenchSamples.bench = true /\
   length (fSurfaces BenchSamples.bench) = length (fTileRects BenchSamples.bench)) /\
  exists b' b'' draws,
    onPerCanvasPreDraw 9 2 BenchSamples.canvas BenchSamples.bench = Some b' /\
    onPerCanvasPostDraw b' = Some (b'', draws) /\
    fTileRects b'' = [] /\ fSurfaces b'' = [] /\
    map image draws = fSurfaces b' /\
    map (fun d => (imageLeft d, imageTop d)) draws
    = map (fun r => (SkIntToScalar (SkIRect.fLeft r), SkIntToScalar (SkIRect.fTop r)))
          (fTileRects b').
Proof.
  assert (H0 : 0 < 2) by lia.
  assert (H1 : SkIRect.fRight (clipDeviceBounds BenchSamples.canvas) + 2 <= INT_MAX)
    by (vm_compute; discriminate).
  assert (H2 : SkIRect.fBottom (clipDeviceBounds BenchSamples.canvas) + 2 <= INT_MAX)
    by (vm_compute; discriminate).
  assert (H3 : (Z.to_nat (SkIRect.width (clipDeviceBounds BenchSamples.canvas))
                + Z.to_nat (SkIRect.height (clipDeviceBounds BenchSamples.canvas)) < 9)%nat)
    by (vm_compute; lia).
  exact (conj (conj H0 (conj eq_refl eq_refl))
              (onPerCanvasPostDraw_draws_every_tile 9 2 BenchSamples.canvas
                 BenchSamples.bench H0 H1 H2 eq_refl eq_refl H3)).
Defined.

End SKPBenchFacts.

(* ================================================================== *)
(** ** GrPaint *)

Section GrPaintFacts.

Import GrPaint.

Lemma setStages_same : forall Stage (p : GrPaint.t Stage),
  setStages (fColorStages p) (fCoverageStages p) p = p.
Proof. intros Stage p. destruct p. reflexivity. Qed.

Lemma inverseLoop_computed : forall Stage (ops : Ops Stage) newToOld todo done m n,
  inverseLoop ops newToOld done todo (Some m) n
  = {| failed := false;
       stages := done ++ map (stage_localCoordChange ops m) todo;
       oldToNew := Some m; inversions := n |}.
Proof.
  induction todo as [|s todo IH]; intros done m n; simpl.
  - now rewrite app_nil_r.
  - rewrite IH, <- app_assoc. reflexivity.
Qed.

Lemma inverseLoop_first : forall Stage (ops : Ops Stage) newToOld todo done n,
  inverseLoop ops newToOld done todo None n
  = match todo with
    | [] => {| failed := false; stages := done; oldToNew := None; inversions := n |}
    | _ :: _ =>
        match invert ops newToOld with
        | None => {| failed := true; stages := done ++ todo; oldToNew := None;
                     inversions := S n |}
        | Some m => {| failed := false;
                       stages := done ++ map (stage_localCoordChange ops m) todo;
                       oldToNew := Some m; inversions := S n |}
        end
    end.
Proof.
  intros Stage ops newToOld [|s todo] done n; simpl; [reflexivity|].
  destruct (invert ops newToOld) as [m|]; [|reflexivity].
  rewrite inverseLoop_computed, <- app_assoc. reflexivity.
Qed.

(** X23. [localCoordChangeInverse] fails exactly when the paint has a
    stage and the matrix has no inverse; a failed call leaves the paint as
    it was; and the matrix is inverted once when the paint has a stage and
    not at all when it has none. *)
Theorem localCoordChangeInverse_failure :
  forall Stage (ops : Ops Stage) newToOld (p : GrPaint.t Stage),
    let r := localCoordChangeInverse ops newToOld p in
    (fst (fst r) = false <->
     numTotalStages p <> 0%nat /\ invert ops newToOld = None) /\
    (fst (fst r) = false -> snd (fst r) = p) /\
    snd r = (if Nat.eqb (numTotalStages p) 0 then 0 else 1)%nat.
Proof.
  intros Stage ops newToOld p r. subst r.
  unfold localCoordChangeInverse, numTotalStages.
  rewrite inverseLoop_first.
  destruct (fColorStages p) as [|c cs] eqn:Hc.
  - cbn [failed stages oldToNew inversions]. rewrite inverseLoop_first.
    destruct (fCoverageStages p) as [|v vs] eqn:Hv.
    + simpl. split; [split; [discriminate|intros [H _]; congruence]|].
      split; [discriminate|reflexivity].
    + destruct (invert ops newToOld) as [m|] eqn:Hi; simpl.
      * split; [split; [discriminate|intros [_ H]; discriminate]|].
        split; [discriminate|reflexivity].
      * split; [split; [intros _; split; [discriminate|reflexivity]|reflexivity]|].
        split; [|reflexivity].
        intros _. rewrite <- Hc, <- Hv. apply setStages_same.
  - destruct (invert ops newToOld) as [m|] eqn:Hi.
    + cbn [failed stages oldToNew inversions]. rewrite inverseLoop_computed. simpl.
      split; [split; [discriminate|intros [_ H]; discriminate]|].
      split; [discriminate|reflexivity].
    + simpl.
      split; [split; [intros _; split; [discriminate|reflexivity]|reflexivity]|].
      split; [|reflexivity].
      intros _. rewrite <- Hc. apply setStages_same.
Qed.

(** X24. With an invertible matrix [localCoordChangeInverse] succeeds and
    does to the paint what [localCoordChange] does with the inverse. *)
Theorem localCoordChangeInverse_applies_inverse :
  forall Stage (ops : Ops Stage) newToOld m (p : GrPaint.t Stage),
    invert ops newToOld = Some m ->
    fst (localCoordChangeInverse ops newToOld p) = (true, localCoordChange ops m p).
Proof.
  intros Stage ops newToOld m p Hi.
  unfold localCoordChangeInverse, localCoordChange.
  rewrite inverseLoop_first, Hi.
  destruct (fColorStages p) as [|c cs] eqn:Hc.
  - cbn [failed stages oldToNew inversions]. rewrite inverseLoop_first, Hi.
    destruct (fCoverageStages p) as [|v vs] eqn:Hv; simpl; reflexivity.
  - cbn [failed stages oldToNew inversions]. rewrite inverseLoop_computed.
    simpl. reflexivity.
Qed.

(** X24 at a sample input. *)
Lemma localCoordChangeInverse_applies_inverse_witness :
  invert PaintSamples.ops (MatrixTranslate 1 2) = Some MatrixI /\
  fst (localCoordChangeInverse PaintSamples.ops (MatrixTranslate 1 2) PaintSamples.paint)
  = (true, localCoordChange PaintSamples.ops MatrixI PaintSamples.paint).
Proof.
  exact (conj eq_refl
              (localCoordChangeInverse_applies_inverse nat PaintSamples.ops
                 (MatrixTranslate 1 2) MatrixI PaintSamples.paint eq_refl)).
Defined.

End GrPaintFacts.
